(** * PDD exam service: credential lifecycle and exam session engine

    A shallow embedding of the request handlers of [pdd_app] (FastAPI +
    SQLAlchemy): [api/auth.py], [api/exams.py], [api/user.py],
    [api/admin.py], [api/question.py], [api/category.py], over the tables
    declared in [db/models.py] and the schemas of [db/schema.py].

    Conventions of the embedding.
    - A table is the list of its rows in insertion order; [query.first()] is
      [find], [query.all()] is the list, [len] is [length] read as an integer.
    - A handler takes the committed database and returns the database after
      the request together with the response or the exception raised.  A
      handler that raises before [db.commit()] returns the database it got.
    - What a handler takes from its environment is an explicit argument:
      [now] for [datetime.utcnow()], [salt] for the salt drawn by passlib,
      [rng] for the draws of [random.sample].
    - Request bodies are the schemas after FastAPI has validated them. *)

From Stdlib Require Import ZArith List String Ascii Bool Lia Arith Permutation Sorted.
From Stdlib Require Import Decimal DecimalString DecimalZ DecimalPos.
Import ListNotations.
Local Open Scope string_scope.
Local Open Scope Z_scope.

(** ** Python values *)

(** [datetime]: seconds since the epoch. *)
Definition datetime := Z.

Definition len {A : Type} (l : list A) : Z := Z.of_nat (List.length l).

(** [str(n)] and [int(s)] on integers, in decimal. *)
Definition str (n : Z) : string := NilZero.string_of_int (Z.to_int n).

Arguments str : simpl never.

(** A string holds the UTF-8 encoding of a Python [str]: [len(s)] counts the
    code points, that is the bytes that do not continue a character, and
    [len(s.encode())] the bytes. *)
Definition continues (c : ascii) : bool :=
  let n := N_of_ascii c in (128 <=? n)%N && (n <? 192)%N.

Fixpoint str_len (s : string) : Z :=
  match s with
  | EmptyString => 0
  | String c s' => (if continues c then 0 else 1) + str_len s'
  end.

Definition bytes_len (s : string) : Z := Z.of_nat (String.length s).

Fixpoint has_null (s : string) : bool :=
  match s with
  | EmptyString => false
  | String c s' => Ascii.eqb c Ascii.zero || has_null s'
  end.

Inductive Exception : Type :=
| HTTPException (status_code : Z) (detail : string)
| UnknownHashError
| PasswordSizeError
| PasswordValueError
| KeyError (key : string)
| ValueError (msg : string)
| IntegrityError
| InvalidRequestError
| ValidationError.

Inductive Result (A : Type) : Type :=
| Ok (a : A)
| Raise (e : Exception).
Arguments Ok {A} a.
Arguments Raise {A} e.

Definition int (s : string) : Result Z :=
  match NilZero.int_of_string s with
  | Some d => Ok (Z.of_int d)
  | None => Raise (ValueError "invalid literal for int() with base 10")
  end.

(** Truth value of an [Optional[str]]: [None] and the empty string are false. *)
Definition truthy (o : option string) : bool :=
  match o with
  | Some s => negb (String.eqb s "")
  | None => false
  end.

(** ** db/models.py *)

Module DifficultyChoices.
Inductive t : Set := easy | medium | advanced.
End DifficultyChoices.

Module ExamStatusChoices.
Inductive t : Set := in_progress | completed | failed.
Definition eqb (a b : t) : bool :=
  match a, b with
  | in_progress, in_progress | completed, completed | failed, failed => true
  | _, _ => false
  end.
End ExamStatusChoices.

Module RoleChoices.
Inductive t : Set := admin | user.
Definition eqb (a b : t) : bool :=
  match a, b with
  | admin, admin | user, user => true
  | _, _ => false
  end.
End RoleChoices.

(** A passlib hash string in modular crypt format, [$ident$salt$checksum],
    kept as its three parts. *)
Module Scheme.
Inductive t : Set := argon2 | bcrypt.
Definition eqb (a b : t) : bool :=
  match a, b with
  | argon2, argon2 | bcrypt, bcrypt => true
  | _, _ => false
  end.
End Scheme.

Module PasswordHash.
Record t : Set := { ident : Scheme.t; salt : string; checksum : string }.
End PasswordHash.

Module User.
Record t : Set := {
  id : Z;
  email : string;
  username : string;
  password : PasswordHash.t;
  role : RoleChoices.t;
  created_at : datetime
}.
End User.
Abbreviation User := User.t.

Module RefreshToken.
Record t : Set := {
  id : Z;
  user_id : Z;
  token : string;
  created_date : datetime
}.
End RefreshToken.
Abbreviation RefreshToken := RefreshToken.t.

Module Category.
Record t : Set := { id : Z; category_name : string }.
End Category.
Abbreviation Category := Category.t.

Module Question.
Record t : Set := {
  id : Z;
  text : string;
  image : option string;
  explanation : string;
  difficulty : DifficultyChoices.t;
  category_id : Z;
  created_at : datetime
}.
End Question.
Abbreviation Question := Question.t.

Module AnswerOption.
Record t : Set := {
  id : Z;
  question_id : Z;
  text : string;
  is_correct : bool
}.
End AnswerOption.
Abbreviation AnswerOption := AnswerOption.t.

Module Exam.
Record t : Set := {
  id : Z;
  user_id : Z;
  score : Z;
  status : ExamStatusChoices.t;
  started_at : datetime;
  finished_at : option datetime
}.
End Exam.
Abbreviation Exam := Exam.t.

Module ExamAnswer.
Record t : Set := {
  id : Z;
  exam_id : Z;
  question_id : Z;
  selected_option_id : Z;
  is_correct : bool;
  answered_at : datetime
}.
End ExamAnswer.
Abbreviation ExamAnswer := ExamAnswer.t.

(** The committed contents of the tables, named by their [__tablename__]. *)
Record Database : Set := {
  user_table : list User;
  refresh_token_table : list RefreshToken;
  category_table : list Category;
  question_table : list Question;
  answer_option_table : list AnswerOption;
  exam_table : list Exam;
  exam_answer_table : list ExamAnswer
}.

Definition empty_db : Database :=
  {| user_table := []; refresh_token_table := []; category_table := [];
     question_table := []; answer_option_table := []; exam_table := [];
     exam_answer_table := [] |}.

Definition with_users (l : list User) (db : Database) : Database :=
  {| user_table := l; refresh_token_table := refresh_token_table db;
     category_table := category_table db; question_table := question_table db;
     answer_option_table := answer_option_table db; exam_table := exam_table db;
     exam_answer_table := exam_answer_table db |}.

Definition with_refresh_tokens (l : list RefreshToken) (db : Database) : Database :=
  {| user_table := user_table db; refresh_token_table := l;
     category_table := category_table db; question_table := question_table db;
     answer_option_table := answer_option_table db; exam_table := exam_table db;
     exam_answer_table := exam_answer_table db |}.

Definition with_categories (l : list Category) (db : Database) : Database :=
  {| user_table := user_table db; refresh_token_table := refresh_token_table db;
     category_table := l; question_table := question_table db;
     answer_option_table := answer_option_table db; exam_table := exam_table db;
     exam_answer_table := exam_answer_table db |}.

Definition with_questions (l : list Question) (db : Database) : Database :=
  {| user_table := user_table db; refresh_token_table := refresh_token_table db;
     category_table := category_table db; question_table := l;
     answer_option_table := answer_option_table db; exam_table := exam_table db;
     exam_answer_table := exam_answer_table db |}.

Definition with_answer_options (l : list AnswerOption) (db : Database) : Database :=
  {| user_table := user_table db; refresh_token_table := refresh_token_table db;
     category_table := category_table db; question_table := question_table db;
     answer_option_table := l; exam_table := exam_table db;
     exam_answer_table := exam_answer_table db |}.

Definition with_exams (l : list Exam) (db : Database) : Database :=
  {| user_table := user_table db; refresh_token_table := refresh_token_table db;
     category_table := category_table db; question_table := question_table db;
     answer_option_table := answer_option_table db; exam_table := l;
     exam_answer_table := exam_answer_table db |}.

Definition with_exam_answers (l : list ExamAnswer) (db : Database) : Database :=
  {| user_table := user_table db; refresh_token_table := refresh_token_table db;
     category_table := category_table db; question_table := question_table db;
     answer_option_table := answer_option_table db; exam_table := exam_table db;
     exam_answer_table := l |}.

(** [autoincrement=True]: the key given to a new row is one more than the
    largest key of the table. *)
Definition next_id (ids : list Z) : Z := Z.succ (fold_right Z.max 0 ids).

(** Relationships of the models, read as the queries they stand for. *)
Definition question_options (db : Database) (question : Question) : list AnswerOption :=
  filter (fun o => AnswerOption.question_id o =? Question.id question)
         (answer_option_table db).

Definition exam_answers (db : Database) (exam : Exam) : list ExamAnswer :=
  filter (fun a => ExamAnswer.exam_id a =? Exam.id exam) (exam_answer_table db).

(** ** db/schema.py: the request and response bodies of the handlers *)

Module QuestionOptionSchema.
Record t : Set := { id : string; text : string }.
End QuestionOptionSchema.

Module QuestionSchema.
Record t : Set := {
  id : string;
  text : string;
  image : option string;
  options : list QuestionOptionSchema.t
}.
End QuestionSchema.

Module ExamStartResponseSchema.
Record t : Set := {
  message : string;
  exam_id : Z;
  started_at : datetime;
  questions : list QuestionSchema.t
}.
End ExamStartResponseSchema.

Module ExamAnswerRequestSchema.
Record t : Set := { question_id : Z; option_id : Z }.
End ExamAnswerRequestSchema.

Module ExamAnswerResponseSchema.
Record t : Set := { message : string; is_correct : bool; current_score : Z }.
End ExamAnswerResponseSchema.

Module ExamFinishResponseSchema.
Record t : Set := {
  message : string;
  exam_id : Z;
  score : Z;
  total_questions : Z;
  passed : bool;
  finished_at : datetime
}.
End ExamFinishResponseSchema.

Module UserCreateSchema.
Record t : Set := { email : string; username : string; password : string }.
End UserCreateSchema.

Module UserLoginSchema.
Record t : Set := { email : string; password : string }.
End UserLoginSchema.

Module UserUpdateSchema.
Record t : Set := {
  email : option string;
  username : option string;
  password : option string
}.
End UserUpdateSchema.

Module AdminUpdateUserSchema.
Record t : Set := {
  email : option string;
  username : option string;
  password : option string;
  role : option RoleChoices.t
}.
End AdminUpdateUserSchema.

Module UserRegisterResponseSchema.
Record t : Set := {
  id : Z;
  email : string;
  username : string;
  created_at : datetime
}.
End UserRegisterResponseSchema.

Module TokenSchema.
Record t : Set := {
  access_token : string;
  refresh_token : string;
  token_type : string
}.
End TokenSchema.

Module AccessTokenSchema.
Record t : Set := { access_token : string }.
End AccessTokenSchema.

Module RefreshTokenRequestSchema.
Record t : Set := { refresh_token : string }.
End RefreshTokenRequestSchema.

Module LogoutResponseSchema.
Record t : Set := { message : string }.
End LogoutResponseSchema.

Module CategoryCreateSchema.
Record t : Set := { category_name : string }.
End CategoryCreateSchema.

Module CategoryUpdateSchema.
Record t : Set := { category_name : string }.
End CategoryUpdateSchema.

(** A field of a partial update: left out of the request, sent as [null],
    or sent with a value ([model_dump(exclude_unset=True)] keeps the last
    two). *)
Module Field.
Inductive t (A : Type) : Type := unset | null | value (a : A).
Arguments unset {A}.
Arguments null {A}.
Arguments value {A} a.
End Field.

Module QuestionUpdateSchema.
Record t : Set := {
  text : Field.t string;
  image : Field.t string;
  explanation : Field.t string;
  difficulty : Field.t DifficultyChoices.t;
  category_id : Field.t Z
}.
End QuestionUpdateSchema.

Module AnswerOptionCreateSchema.
Record t : Set := { text : string; is_correct : bool }.
End AnswerOptionCreateSchema.

Module QuestionCreateSchema.
Record t : Set := {
  text : string;
  image : option string;
  explanation : string;
  difficulty : DifficultyChoices.t;
  category_id : Z;
  options : list AnswerOptionCreateSchema.t
}.
End QuestionCreateSchema.

(** The profile returned by the user endpoints; its [status] block of exam
    statistics is left out. *)
Module UserProfileSchema.
Record t : Set := { id : Z; email : string; username : string }.
End UserProfileSchema.

(** The body of the answers that are a message and the key of a row. *)
Module MessageResponse.
Record t : Set := { message : string; row_id : Z }.
End MessageResponse.

(** ** random.sample

    [random.sample(population, k)] as CPython selects from a pool: draw [j]
    below the number of cells still live, take [pool[j]], and move the last
    live cell into the vacancy.  [rng i] is the [i]-th draw of the generator.
    (Above its set-size threshold, 85 cells for [k = 20], CPython draws
    positions and rejects repeats instead; the positions it returns are [k]
    distinct ones as here.) *)

Definition randbelow (rng : nat -> nat) (i n : nat) : nat := (rng i mod n)%nat.

Definition list_set {A : Type} (j : nat) (v : A) (l : list A) : list A :=
  (firstn j l ++ v :: skipn (S j) l)%list.

Fixpoint sample_pool {A : Type} (rng : nat -> nat) (i k : nat) (pool : list A)
  : list A :=
  match k with
  | O => []
  | S k' =>
      let j := randbelow rng i (List.length pool) in
      match nth_error pool j with
      | None => []
      | Some x =>
          x :: sample_pool rng (S i) k'
                 (removelast (list_set j (last pool x) pool))
      end
  end.

Arguments sample_pool : simpl never.

Definition random_sample {A : Type} (rng : nat -> nat) (population : list A)
  (k : nat) : Result (list A) :=
  if (List.length population <? k)%nat
  then Raise (ValueError "Sample larger than population or is negative")
  else Ok (sample_pool rng 0 k population).

(** ** api/exams.py *)

Definition EXAM_QUESTIONS_COUNT : Z := 20.
Definition PASSING_SCORE : Z := 18.

Definition start_exam (rng : nat -> nat) (now : datetime)
  (current_user : User) (db : Database)
  : Database * Result ExamStartResponseSchema.t :=
  let existing_exam :=
    find (fun e => (Exam.user_id e =? User.id current_user)
                   && ExamStatusChoices.eqb (Exam.status e)
                        ExamStatusChoices.in_progress)
         (exam_table db) in
  match existing_exam with
  | Some _ =>
      (db, Raise (HTTPException 400
         "У вас уже есть активный экзамен. Завершите его перед началом нового."))
  | None =>
      let all_questions := question_table db in
      if len all_questions <? EXAM_QUESTIONS_COUNT
      then (db, Raise (HTTPException 400
                  ("Недостаточно вопросов для экзамена. Требуется минимум "
                   ++ str EXAM_QUESTIONS_COUNT ++ " вопросов.")))
      else
        match random_sample rng all_questions (Z.to_nat EXAM_QUESTIONS_COUNT) with
        | Raise e => (db, Raise e)
        | Ok selected_questions =>
            let new_exam :=
              {| Exam.id := next_id (map Exam.id (exam_table db));
                 Exam.user_id := User.id current_user;
                 Exam.status := ExamStatusChoices.in_progress;
                 Exam.started_at := now;
                 Exam.score := 0;
                 Exam.finished_at := None |} in
            let db := with_exams (exam_table db ++ [new_exam])%list db in
            let questions_response :=
              map (fun question =>
                     {| QuestionSchema.id := str (Question.id question);
                        QuestionSchema.text := Question.text question;
                        QuestionSchema.image := Question.image question;
                        QuestionSchema.options :=
                          map (fun opt =>
                                 {| QuestionOptionSchema.id := str (AnswerOption.id opt);
                                    QuestionOptionSchema.text := AnswerOption.text opt |})
                              (question_options db question) |})
                  selected_questions in
            (db, Ok {| ExamStartResponseSchema.message := "Экзамен начат";
                       ExamStartResponseSchema.exam_id := Exam.id new_exam;
                       ExamStartResponseSchema.started_at := Exam.started_at new_exam;
                       ExamStartResponseSchema.questions := questions_response |})
        end
  end.

(** [UPDATE exam SET ... WHERE exam.id = :id], the flush of a changed row. *)
Definition update_exam (exam : Exam) (db : Database) : Database :=
  with_exams
    (map (fun e => if Exam.id e =? Exam.id exam then exam else e) (exam_table db))
    db.

Definition set_score (score : Z) (e : Exam) : Exam :=
  {| Exam.id := Exam.id e; Exam.user_id := Exam.user_id e; Exam.score := score;
     Exam.status := Exam.status e; Exam.started_at := Exam.started_at e;
     Exam.finished_at := Exam.finished_at e |}.

Definition set_finished (status : ExamStatusChoices.t) (finished_at : datetime)
  (e : Exam) : Exam :=
  {| Exam.id := Exam.id e; Exam.user_id := Exam.user_id e; Exam.score := Exam.score e;
     Exam.status := status; Exam.started_at := Exam.started_at e;
     Exam.finished_at := Some finished_at |}.

Definition answer_question (now : datetime) (exam_id : Z)
  (answer_data : ExamAnswerRequestSchema.t) (current_user : User) (db : Database)
  : Database * Result ExamAnswerResponseSchema.t :=
  let question_id := ExamAnswerRequestSchema.question_id answer_data in
  let option_id := ExamAnswerRequestSchema.option_id answer_data in
  match find (fun e => Exam.id e =? exam_id) (exam_table db) with
  | None => (db, Raise (HTTPException 404 "Экзамен не найден"))
  | Some exam =>
  if negb (Exam.user_id exam =? User.id current_user)
  then (db, Raise (HTTPException 403 "Это не ваш экзамен"))
  else if negb (ExamStatusChoices.eqb (Exam.status exam) ExamStatusChoices.in_progress)
  then (db, Raise (HTTPException 400 "Экзамен уже завершен"))
  else
  match find (fun q => Question.id q =? question_id) (question_table db) with
  | None => (db, Raise (HTTPException 404 "Вопрос не найден"))
  | Some question =>
  match find (fun o => (AnswerOption.id o =? option_id)
                       && (AnswerOption.question_id o =? question_id))
             (answer_option_table db) with
  | None => (db, Raise (HTTPException 404
               "Вариант ответа не найден или не принадлежит этому вопросу"))
  | Some option =>
  let existing_answer :=
    find (fun a => (ExamAnswer.exam_id a =? exam_id)
                   && (ExamAnswer.question_id a =? question_id))
         (exam_answer_table db) in
  match existing_answer with
  | Some _ => (db, Raise (HTTPException 400 "Вы уже ответили на этот вопрос"))
  | None =>
      let is_correct := AnswerOption.is_correct option in
      let exam_answer :=
        {| ExamAnswer.id := next_id (map ExamAnswer.id (exam_answer_table db));
           ExamAnswer.exam_id := exam_id;
           ExamAnswer.question_id := question_id;
           ExamAnswer.selected_option_id := option_id;
           ExamAnswer.is_correct := is_correct;
           ExamAnswer.answered_at := now |} in
      let db := with_exam_answers (exam_answer_table db ++ [exam_answer])%list db in
      let exam := if is_correct then set_score (Exam.score exam + 1) exam else exam in
      let db := update_exam exam db in
      (db, Ok {| ExamAnswerResponseSchema.message := "Ответ сохранен";
                 ExamAnswerResponseSchema.is_correct := is_correct;
                 ExamAnswerResponseSchema.current_score := Exam.score exam |})
  end end end end.

Definition finish_exam (now : datetime) (exam_id : Z) (current_user : User)
  (db : Database) : Database * Result ExamFinishResponseSchema.t :=
  match find (fun e => Exam.id e =? exam_id) (exam_table db) with
  | None => (db, Raise (HTTPException 404 "Экзамен не найден"))
  | Some exam =>
  if negb (Exam.user_id exam =? User.id current_user)
  then (db, Raise (HTTPException 403 "Это не ваш экзамен"))
  else if negb (ExamStatusChoices.eqb (Exam.status exam) ExamStatusChoices.in_progress)
  then (db, Raise (HTTPException 400 "Экзамен уже завершен"))
  else
    let total_questions := len (exam_answers db exam) in
    if total_questions <? EXAM_QUESTIONS_COUNT
    then (db, Raise (HTTPException 400
                ("Вы ответили только на " ++ str total_questions ++ " из "
                 ++ str EXAM_QUESTIONS_COUNT ++ " вопросов")))
    else
      let passed := Exam.score exam >=? PASSING_SCORE in
      let exam :=
        set_finished (if passed then ExamStatusChoices.completed
                      else ExamStatusChoices.failed) now exam in
      let db := update_exam exam db in
      (db, Ok {| ExamFinishResponseSchema.message := "Экзамен завершен";
                 ExamFinishResponseSchema.exam_id := Exam.id exam;
                 ExamFinishResponseSchema.score := Exam.score exam;
                 ExamFinishResponseSchema.total_questions := total_questions;
                 ExamFinishResponseSchema.passed := passed;
                 ExamFinishResponseSchema.finished_at := now |})
  end.

(** [query.order_by(Exam.started_at.desc())].  The database fixes no order
    among rows with the same start time; here they stay in table order. *)
Fixpoint insert_by_started_at_desc (e : Exam) (l : list Exam) : list Exam :=
  match l with
  | [] => [e]
  | x :: l' =>
      if Exam.started_at x <=? Exam.started_at e
      then e :: x :: l'
      else x :: insert_by_started_at_desc e l'
  end.

Definition order_by_started_at_desc (l : list Exam) : list Exam :=
  fold_right insert_by_started_at_desc [] l.

(** [GET /exams/]: the history of the caller's exams, for a [limit] and an
    [offset] that are not negative (what a negative one does is the
    database's business and is not modelled). *)
Definition get_user_exams (status : option ExamStatusChoices.t)
  (limit offset : Z) (current_user : User) (db : Database) : list Exam :=
  let query := filter (fun e => Exam.user_id e =? User.id current_user)
                      (exam_table db) in
  let query :=
    match status with
    | Some status =>
        filter (fun e => ExamStatusChoices.eqb (Exam.status e) status) query
    | None => query
    end in
  firstn (Z.to_nat limit)
    (skipn (Z.to_nat offset) (order_by_started_at_desc query)).

Definition get_exam_detail (exam_id : Z) (current_user : User) (db : Database)
  : Result Exam :=
  match find (fun e => Exam.id e =? exam_id) (exam_table db) with
  | None => Raise (HTTPException 404 "Экзамен не найден")
  | Some exam =>
      if negb (Exam.user_id exam =? User.id current_user)
      then Raise (HTTPException 403 "Это не ваш экзамен")
      else Ok exam
  end.

(** ** passlib.context.CryptContext and PyJWT *)

Record CryptContext : Set := { schemes : list Scheme.t }.

(** [passlib.utils.handlers.validate_secret]: a secret longer than
    [MAX_PASSWORD_SIZE] is refused. *)
Definition MAX_PASSWORD_SIZE : Z := 4096.

Definition validate_secret (size : Z) : Result unit :=
  if MAX_PASSWORD_SIZE <? size then Raise PasswordSizeError else Ok tt.

(** What the handler of a scheme checks of a secret before it computes, in
    [hash] and in [verify] alike: the size of the [str]; for bcrypt also the
    size of its encoding, and that no byte of it is NUL. *)
Definition check_secret (scheme : Scheme.t) (secret : string) : Result unit :=
  match validate_secret (str_len secret) with
  | Raise e => Raise e
  | Ok _ =>
      match scheme with
      | Scheme.argon2 => Ok tt
      | Scheme.bcrypt =>
          match validate_secret (bytes_len secret) with
          | Raise e => Raise e
          | Ok _ => if has_null secret then Raise PasswordValueError else Ok tt
          end
      end
  end.

(** The claims of a token: the keys the handlers put in and read back. *)
Module Claims.
Record t : Set := {
  sub : option string;
  email : option string;
  exp : option datetime;
  type : option string
}.
End Claims.

Definition option_string_eqb (a : option string) (b : string) : bool :=
  match a with
  | Some s => String.eqb s b
  | None => false
  end.

Definition set_email (email : string) (u : User) : User :=
  {| User.id := User.id u; User.email := email; User.username := User.username u;
     User.password := User.password u; User.role := User.role u;
     User.created_at := User.created_at u |}.

Definition set_username (username : string) (u : User) : User :=
  {| User.id := User.id u; User.email := User.email u; User.username := username;
     User.password := User.password u; User.role := User.role u;
     User.created_at := User.created_at u |}.

Definition set_password (password : PasswordHash.t) (u : User) : User :=
  {| User.id := User.id u; User.email := User.email u;
     User.username := User.username u; User.password := password;
     User.role := User.role u; User.created_at := User.created_at u |}.

Definition set_role (role : RoleChoices.t) (u : User) : User :=
  {| User.id := User.id u; User.email := User.email u;
     User.username := User.username u; User.password := User.password u;
     User.role := role; User.created_at := User.created_at u |}.

(** [UPDATE user SET ... WHERE user.id = :id] at [db.commit()]: the columns
    [email] and [username] are [unique=True], so the flush fails when another
    row holds the new value. *)
Definition commit_user (user : User) (db : Database) : Result Database :=
  if existsb (fun u => negb (User.id u =? User.id user)
                       && (String.eqb (User.email u) (User.email user)
                           || String.eqb (User.username u) (User.username user)))
             (user_table db)
  then Raise IntegrityError
  else Ok (with_users
             (map (fun u => if User.id u =? User.id user then user else u)
                  (user_table db))
             db).

(** Cascades declared on the relationships of [Question] and [Category]
    ([cascade='all, delete-orphan']): deleting a question deletes its answer
    options and the exam answers given to it; deleting a category deletes
    its questions. *)
Definition cascade_delete_question (question_id : Z) (db : Database) : Database :=
  let db := with_exam_answers
              (filter (fun a => negb (ExamAnswer.question_id a =? question_id))
                      (exam_answer_table db)) db in
  let db := with_answer_options
              (filter (fun o => negb (AnswerOption.question_id o =? question_id))
                      (answer_option_table db)) db in
  with_questions
    (filter (fun q => negb (Question.id q =? question_id)) (question_table db)) db.

Definition cascade_delete_category (category_id : Z) (db : Database) : Database :=
  let category_questions :=
    filter (fun q => Question.category_id q =? category_id) (question_table db) in
  let db := fold_left (fun db q => cascade_delete_question (Question.id q) db)
                      category_questions db in
  with_categories
    (filter (fun c => negb (Category.id c =? category_id)) (category_table db)) db.

(** ** main.py: the routes that write to the tables above, with what each
    takes from the request and from its environment *)

Inductive Request : Type :=
| POST_auth_register (salt : string) (now : datetime) (user_data : UserCreateSchema.t)
| POST_auth_login (now : datetime) (login_data : UserLoginSchema.t)
| POST_auth_refresh (now : datetime) (data : RefreshTokenRequestSchema.t)
| POST_auth_logout (data : RefreshTokenRequestSchema.t)
| POST_exams_start (credentials : string) (rng : nat -> nat) (now : datetime)
| POST_exams_answer (credentials : string) (now : datetime) (exam_id : Z)
    (answer_data : ExamAnswerRequestSchema.t)
| POST_exams_finish (credentials : string) (now : datetime) (exam_id : Z)
| PUT_users_me (credentials : string) (now : datetime) (salt : string)
    (update_data : UserUpdateSchema.t)
| PUT_admin_users (credentials : string) (now : datetime) (salt : string)
    (user_id : Z) (update_data : AdminUpdateUserSchema.t)
| POST_categories (credentials : string) (now : datetime)
    (category_data : CategoryCreateSchema.t)
| DELETE_categories (credentials : string) (now : datetime) (category_id : Z)
| POST_questions (credentials : string) (now : datetime)
    (question_data : QuestionCreateSchema.t)
| DELETE_questions (credentials : string) (now : datetime) (question_id : Z)
| PUT_categories (credentials : string) (now : datetime) (category_id : Z)
    (category_data : CategoryUpdateSchema.t)
| PUT_questions (credentials : string) (now : datetime) (question_id : Z)
    (question_data : QuestionUpdateSchema.t).

(** The routes that delete catalog rows, and with them exam answers. *)
Definition deletes_catalog (req : Request) : bool :=
  match req with
  | DELETE_categories _ _ _ | DELETE_questions _ _ _ => true
  | _ => false
  end.

Section Deployment.

(** [pdd_app/config.py]: the token lifetimes.  [SECRET_KEY] and [ALGORITHM]
    are fixed inside [jwt_encode] and [jwt_decode]. *)
Variable ACCESS_TOKEN_EXPIRE_MINUTES : Z.
Variable REFRESH_TOKEN_EXPIRE_DAYS : Z.

(** [jwt.encode(payload, SECRET_KEY, algorithm=ALGORITHM)], the [exp] claim in
    whole seconds, and the signature check and parse of [jwt.decode] (its
    expiry check is written out in [decode_token]). *)
Variable jwt_encode : Claims.t -> string.
Variable jwt_decode : string -> option Claims.t.

(** The checksum a scheme computes from a salt and a secret. *)
Variable digest : Scheme.t -> string -> string -> string.

Definition CryptContext_hash (ctx : CryptContext) (salt secret : string)
  : Result PasswordHash.t :=
  match schemes ctx with
  | [] => Raise (KeyError "no crypt algorithms loaded in this CryptContext instance")
  | scheme :: _ =>
      match check_secret scheme secret with
      | Raise e => Raise e
      | Ok _ =>
          Ok {| PasswordHash.ident := scheme; PasswordHash.salt := salt;
                PasswordHash.checksum := digest scheme salt secret |}
      end
  end.

Definition CryptContext_verify (ctx : CryptContext) (secret : string)
  (hash : PasswordHash.t) : Result bool :=
  if existsb (Scheme.eqb (PasswordHash.ident hash)) (schemes ctx)
  then
    match check_secret (PasswordHash.ident hash) secret with
    | Raise e => Raise e
    | Ok _ =>
        Ok (String.eqb
              (digest (PasswordHash.ident hash) (PasswordHash.salt hash) secret)
              (PasswordHash.checksum hash))
    end
  else Raise UnknownHashError.

(** *** api/auth.py *)

Definition auth_pwd_context : CryptContext := {| schemes := [Scheme.argon2] |}.

Definition hash_password (salt password : string) : Result PasswordHash.t :=
  CryptContext_hash auth_pwd_context salt password.

Definition verify_password (plain_password : string)
  (hashed_password : PasswordHash.t) : Result bool :=
  CryptContext_verify auth_pwd_context plain_password hashed_password.

Definition timedelta_or (expires_delta : option Z) (default : Z) : Z :=
  match expires_delta with
  | Some d => if d =? 0 then default else d
  | None => default
  end.

Definition create_access_token (now : datetime) (data : Claims.t)
  (expires_delta : option Z) : string :=
  let expire := now + timedelta_or expires_delta (60 * ACCESS_TOKEN_EXPIRE_MINUTES) in
  jwt_encode {| Claims.sub := Claims.sub data; Claims.email := Claims.email data;
                Claims.exp := Some expire; Claims.type := Some "access" |}.

Definition create_refresh_token (now : datetime) (data : Claims.t) : string :=
  let expire := now + 86400 * REFRESH_TOKEN_EXPIRE_DAYS in
  jwt_encode {| Claims.sub := Claims.sub data; Claims.email := Claims.email data;
                Claims.exp := Some expire; Claims.type := Some "refresh" |}.

Definition decode_token (now : datetime) (token : string) : Result Claims.t :=
  match jwt_decode token with
  | None => Raise (HTTPException 401 "Неверный токен")
  | Some payload =>
      match Claims.exp payload with
      | Some exp =>
          if exp <=? now then Raise (HTTPException 401 "Токен истек")
          else Ok payload
      | None => Ok payload
      end
  end.

Definition register (salt : string) (now : datetime)
  (user_data : UserCreateSchema.t) (db : Database)
  : Database * Result UserRegisterResponseSchema.t :=
  match find (fun u => String.eqb (User.email u) (UserCreateSchema.email user_data))
             (user_table db) with
  | Some _ => (db, Raise (HTTPException 409 "Email already exists"))
  | None =>
  match find (fun u => String.eqb (User.username u)
                                  (UserCreateSchema.username user_data))
             (user_table db) with
  | Some _ => (db, Raise (HTTPException 409 "Username already exists"))
  | None =>
  match hash_password salt (UserCreateSchema.password user_data) with
  | Raise e => (db, Raise e)
  | Ok hashed =>
      let user :=
        {| User.id := next_id (map User.id (user_table db));
           User.email := UserCreateSchema.email user_data;
           User.username := UserCreateSchema.username user_data;
           User.password := hashed;
           User.role := RoleChoices.user;
           User.created_at := now |} in
      let db := with_users (user_table db ++ [user])%list db in
      (db, Ok {| UserRegisterResponseSchema.id := User.id user;
                 UserRegisterResponseSchema.email := User.email user;
                 UserRegisterResponseSchema.username := User.username user;
                 UserRegisterResponseSchema.created_at := User.created_at user |})
  end end end.

Definition login (now : datetime) (login_data : UserLoginSchema.t) (db : Database)
  : Database * Result TokenSchema.t :=
  let unauthorized := (db, Raise (HTTPException 401 "Неверный email или пароль")) in
  match find (fun u => String.eqb (User.email u) (UserLoginSchema.email login_data))
             (user_table db) with
  | None => unauthorized
  | Some user =>
  match verify_password (UserLoginSchema.password login_data) (User.password user) with
  | Raise e => (db, Raise e)
  | Ok false => unauthorized
  | Ok true =>
      let access_token :=
        create_access_token now
          {| Claims.sub := Some (str (User.id user));
             Claims.email := Some (User.email user);
             Claims.exp := None; Claims.type := None |} None in
      let refresh_token :=
        create_refresh_token now
          {| Claims.sub := Some (str (User.id user)); Claims.email := None;
             Claims.exp := None; Claims.type := None |} in
      let db :=
        with_refresh_tokens
          (refresh_token_table db ++
           [{| RefreshToken.id := next_id (map RefreshToken.id (refresh_token_table db));
               RefreshToken.user_id := User.id user;
               RefreshToken.token := refresh_token;
               RefreshToken.created_date := now |}])%list db in
      (db, Ok {| TokenSchema.access_token := access_token;
                 TokenSchema.refresh_token := refresh_token;
                 TokenSchema.token_type := "Bearer" |})
  end end.

Definition refresh_token (now : datetime) (data : RefreshTokenRequestSchema.t)
  (db : Database) : Database * Result AccessTokenSchema.t :=
  match decode_token now (RefreshTokenRequestSchema.refresh_token data) with
  | Raise e => (db, Raise e)
  | Ok payload =>
  if negb (option_string_eqb (Claims.type payload) "refresh")
  then (db, Raise (HTTPException 401 "Неверный тип токена"))
  else
  match Claims.sub payload with
  | None => (db, Raise (KeyError "sub"))
  | Some sub =>
  match int sub with
  | Raise e => (db, Raise e)
  | Ok user_id =>
  let token_in_db :=
    find (fun t => String.eqb (RefreshToken.token t)
                              (RefreshTokenRequestSchema.refresh_token data)
                   && (RefreshToken.user_id t =? user_id))
         (refresh_token_table db) in
  match token_in_db with
  | None => (db, Raise (HTTPException 401 "Токен отозван"))
  | Some _ =>
  match find (fun u => User.id u =? user_id) (user_table db) with
  | None => (db, Raise (HTTPException 404 "Пользователь не найден"))
  | Some user =>
      (db, Ok {| AccessTokenSchema.access_token :=
                   create_access_token now
                     {| Claims.sub := Some (str (User.id user));
                        Claims.email := Some (User.email user);
                        Claims.exp := None; Claims.type := None |} None |})
  end end end end end.

Definition logout (data : RefreshTokenRequestSchema.t) (db : Database)
  : Database * Result LogoutResponseSchema.t :=
  let token :=
    find (fun t => String.eqb (RefreshToken.token t)
                              (RefreshTokenRequestSchema.refresh_token data))
         (refresh_token_table db) in
  let db :=
    match token with
    | Some token =>
        with_refresh_tokens
          (filter (fun t => negb (RefreshToken.id t =? RefreshToken.id token))
                  (refresh_token_table db)) db
    | None => db
    end in
  (db, Ok {| LogoutResponseSchema.message := "Logout success" |}).

Definition get_current_user (now : datetime) (credentials : string) (db : Database)
  : Result User :=
  match decode_token now credentials with
  | Raise e => Raise e
  | Ok payload =>
  if negb (option_string_eqb (Claims.type payload) "access")
  then Raise (HTTPException 401 "Неверный тип токена")
  else
  match Claims.sub payload with
  | None => Raise (KeyError "sub")
  | Some sub =>
  match int sub with
  | Raise e => Raise e
  | Ok user_id =>
  match find (fun u => User.id u =? user_id) (user_table db) with
  | None => Raise (HTTPException 404 "Пользователь не найден")
  | Some user => Ok user
  end end end end.

Definition get_current_admin (current_user : User) : Result User :=
  if negb (RoleChoices.eqb (User.role current_user) RoleChoices.admin)
  then Raise (HTTPException 403 "Доступ запрещен")
  else Ok current_user.

(** [current_user: User = Depends(get_current_user)] in front of a handler. *)
Definition Depends_current_user {R : Type} (now : datetime) (credentials : string)
  (handler : User -> Database -> Database * Result R) (db : Database)
  : Database * Result R :=
  match get_current_user now credentials db with
  | Raise e => (db, Raise e)
  | Ok current_user => handler current_user db
  end.

(** *** api/user.py and api/admin.py *)

(** [UserProfileSchema(id=.., email=.., username=.., stats=stats)]: the schema
    declares the required field [status] and no field [stats], so pydantic
    rejects the call. *)
Definition UserProfileSchema_with_stats (id : Z) (email username : string)
  : Result UserProfileSchema.t :=
  Raise ValidationError.

Definition user_pwd_context : CryptContext := {| schemes := [Scheme.bcrypt] |}.
Definition admin_pwd_context : CryptContext := {| schemes := [Scheme.bcrypt] |}.

(** [if value: obj.field = value] for an [Optional[str]] value. *)
Definition assign_if (value : option string) (set : string -> User -> User)
  (u : User) : User :=
  if truthy value
  then match value with Some v => set v u | None => u end
  else u.

(** [if password: obj.password = pwd_context.hash(password)]. *)
Definition assign_password_if (ctx : CryptContext) (salt : string)
  (value : option string) (u : User) : Result User :=
  if truthy value
  then match value with
       | Some v =>
           match CryptContext_hash ctx salt v with
           | Ok hashed => Ok (set_password hashed u)
           | Raise e => Raise e
           end
       | None => Ok u
       end
  else Ok u.

(** [current_user] was loaded by [get_current_user] in the session of
    [auth.get_db]; the [db] of this handler is the session of [user.get_db].
    The assignments change the object of the other session, which is closed
    without a commit; [db.commit()] has nothing to write, and
    [db.refresh(current_user)] raises [InvalidRequestError]: the instance is
    not persistent within this session.  Nothing is stored. *)
Definition update_current_user_profile (salt : string)
  (update_data : UserUpdateSchema.t) (current_user : User) (db : Database)
  : Database * Result UserProfileSchema.t :=
  if negb (truthy (UserUpdateSchema.email update_data)
           || truthy (UserUpdateSchema.username update_data)
           || truthy (UserUpdateSchema.password update_data))
  then (db, Raise (HTTPException 400
              "Необходимо указать хотя бы одно поле для обновления"))
  else
    let current_user := assign_if (UserUpdateSchema.email update_data) set_email
                          current_user in
    let current_user := assign_if (UserUpdateSchema.username update_data)
                          set_username current_user in
    match assign_password_if user_pwd_context salt
            (UserUpdateSchema.password update_data) current_user with
    | Raise e => (db, Raise e)
    | Ok current_user => (db, Raise InvalidRequestError)
    end.

Definition admin_update_user (salt : string) (user_id : Z)
  (update_data : AdminUpdateUserSchema.t) (current_user : User) (db : Database)
  : Database * Result UserProfileSchema.t :=
  if negb (RoleChoices.eqb (User.role current_user) RoleChoices.admin)
  then (db, Raise (HTTPException 403 "Только администратор может изменять роли"))
  else
  match find (fun u => User.id u =? user_id) (user_table db) with
  | None => (db, Raise (HTTPException 404 "Пользователь не найден"))
  | Some user =>
    let user := assign_if (AdminUpdateUserSchema.email update_data) set_email user in
    let user := assign_if (AdminUpdateUserSchema.username update_data)
                  set_username user in
    match assign_password_if admin_pwd_context salt
            (AdminUpdateUserSchema.password update_data) user with
    | Raise e => (db, Raise e)
    | Ok user =>
        let user := match AdminUpdateUserSchema.role update_data with
                    | Some role => set_role role user
                    | None => user
                    end in
        match commit_user user db with
        | Raise e => (db, Raise e)
        | Ok db =>
            (db, UserProfileSchema_with_stats (User.id user) (User.email user)
                   (User.username user))
        end
    end
  end.

(** *** api/category.py and api/question.py *)

Definition check_admin_role (current_user : User) : Result unit :=
  if negb (RoleChoices.eqb (User.role current_user) RoleChoices.admin)
  then Raise (HTTPException 403 "Доступ запрещен. Требуются права администратора.")
  else Ok tt.

Definition create_category (category_data : CategoryCreateSchema.t)
  (current_user : User) (db : Database) : Database * Result Category :=
  match check_admin_role current_user with
  | Raise e => (db, Raise e)
  | Ok _ =>
  match find (fun c => String.eqb (Category.category_name c)
                         (CategoryCreateSchema.category_name category_data))
             (category_table db) with
  | Some _ => (db, Raise (HTTPException 409
                 "Категория с таким названием уже существует"))
  | None =>
      let new_category :=
        {| Category.id := next_id (map Category.id (category_table db));
           Category.category_name :=
             CategoryCreateSchema.category_name category_data |} in
      (with_categories (category_table db ++ [new_category])%list db,
       Ok new_category)
  end end.

Definition update_category (category_id : Z)
  (category_data : CategoryUpdateSchema.t) (current_user : User) (db : Database)
  : Database * Result Category :=
  match check_admin_role current_user with
  | Raise e => (db, Raise e)
  | Ok _ =>
  match find (fun c => Category.id c =? category_id) (category_table db) with
  | None => (db, Raise (HTTPException 404 "Категория не найдена"))
  | Some category =>
      let category_name := CategoryUpdateSchema.category_name category_data in
      if negb (String.eqb category_name "")
      then
        match find (fun c => String.eqb (Category.category_name c) category_name
                             && negb (Category.id c =? category_id))
                   (category_table db) with
        | Some _ => (db, Raise (HTTPException 409
                       "Категория с таким названием уже существует"))
        | None =>
            let category := {| Category.id := Category.id category;
                               Category.category_name := category_name |} in
            (with_categories
               (map (fun c => if Category.id c =? Category.id category
                              then category else c)
                    (category_table db)) db,
             Ok category)
        end
      else (db, Ok category)
  end end.

Definition delete_category (category_id : Z) (current_user : User) (db : Database)
  : Database * Result MessageResponse.t :=
  match check_admin_role current_user with
  | Raise e => (db, Raise e)
  | Ok _ =>
  match find (fun c => Category.id c =? category_id) (category_table db) with
  | None => (db, Raise (HTTPException 404 "Категория не найдена"))
  | Some category =>
      (cascade_delete_category (Category.id category) db,
       Ok {| MessageResponse.message := "Категория успешно удалена";
             MessageResponse.row_id := category_id |})
  end end.

(** The validator of [QuestionCreateSchema.options]. *)
Definition validate_options (v : list AnswerOptionCreateSchema.t)
  : Result (list AnswerOptionCreateSchema.t) :=
  if len v <? 2
  then Raise (ValueError "Вопрос должен содержать минимум 2 варианта ответа")
  else
    let correct_count := len (filter AnswerOptionCreateSchema.is_correct v) in
    if negb (correct_count =? 1)
    then Raise (ValueError "Должен быть только один правильный ответ")
    else Ok v.

Definition add_answer_option (question_id : Z)
  (db : Database) (option_data : AnswerOptionCreateSchema.t) : Database :=
  let answer_option :=
    {| AnswerOption.id := next_id (map AnswerOption.id (answer_option_table db));
       AnswerOption.question_id := question_id;
       AnswerOption.text := AnswerOptionCreateSchema.text option_data;
       AnswerOption.is_correct := AnswerOptionCreateSchema.is_correct option_data |} in
  with_answer_options (answer_option_table db ++ [answer_option])%list db.

Definition create_question (now : datetime) (question_data : QuestionCreateSchema.t)
  (current_user : User) (db : Database) : Database * Result MessageResponse.t :=
  match check_admin_role current_user with
  | Raise e => (db, Raise e)
  | Ok _ =>
  match find (fun c => Category.id c =? QuestionCreateSchema.category_id question_data)
             (category_table db) with
  | None => (db, Raise (HTTPException 404 "Категория не найдена"))
  | Some _ =>
      let new_question :=
        {| Question.id := next_id (map Question.id (question_table db));
           Question.text := QuestionCreateSchema.text question_data;
           Question.image := QuestionCreateSchema.image question_data;
           Question.explanation := QuestionCreateSchema.explanation question_data;
           Question.difficulty := QuestionCreateSchema.difficulty question_data;
           Question.category_id := QuestionCreateSchema.category_id question_data;
           Question.created_at := now |} in
      let db := with_questions (question_table db ++ [new_question])%list db in
      let db := fold_left (add_answer_option (Question.id new_question))
                          (QuestionCreateSchema.options question_data) db in
      (db, Ok {| MessageResponse.message := "Вопрос успешно создан";
                 MessageResponse.row_id := Question.id new_question |})
  end end.

(** [setattr(question, field, value)] for the fields sent, and the flush:
    a [null] in a column that is not nullable fails it. *)
Definition set_column {A : Type} (field : Field.t A) (old : A) : Result A :=
  match field with
  | Field.unset => Ok old
  | Field.null => Raise IntegrityError
  | Field.value a => Ok a
  end.

Definition set_nullable {A : Type} (field : Field.t A) (old : option A)
  : option A :=
  match field with
  | Field.unset => old
  | Field.null => None
  | Field.value a => Some a
  end.

Definition setattr_question (question_data : QuestionUpdateSchema.t)
  (question : Question) : Result Question :=
  match set_column (QuestionUpdateSchema.text question_data)
          (Question.text question),
        set_column (QuestionUpdateSchema.explanation question_data)
          (Question.explanation question),
        set_column (QuestionUpdateSchema.difficulty question_data)
          (Question.difficulty question),
        set_column (QuestionUpdateSchema.category_id question_data)
          (Question.category_id question) with
  | Ok text, Ok explanation, Ok difficulty, Ok category_id =>
      Ok {| Question.id := Question.id question;
            Question.text := text;
            Question.image := set_nullable (QuestionUpdateSchema.image question_data)
                                (Question.image question);
            Question.explanation := explanation;
            Question.difficulty := difficulty;
            Question.category_id := category_id;
            Question.created_at := Question.created_at question |}
  | _, _, _, _ => Raise IntegrityError
  end.

Definition update_question (question_id : Z)
  (question_data : QuestionUpdateSchema.t) (current_user : User) (db : Database)
  : Database * Result MessageResponse.t :=
  match check_admin_role current_user with
  | Raise e => (db, Raise e)
  | Ok _ =>
  match find (fun q => Question.id q =? question_id) (question_table db) with
  | None => (db, Raise (HTTPException 404 "Вопрос не найден"))
  | Some question =>
  let category_missing :=
    match QuestionUpdateSchema.category_id question_data with
    | Field.value category_id =>
        negb (category_id =? 0)
        && negb (existsb (fun c => Category.id c =? category_id)
                         (category_table db))
    | _ => false
    end in
  if category_missing
  then (db, Raise (HTTPException 404 "Категория не найдена"))
  else
    match setattr_question question_data question with
    | Raise e => (db, Raise e)
    | Ok question =>
        if existsb (fun c => Category.id c =? Question.category_id question)
                   (category_table db)
        then (with_questions
                (map (fun q => if Question.id q =? Question.id question
                               then question else q)
                     (question_table db)) db,
              Ok {| MessageResponse.message := "Вопрос успешно обновлен";
                    MessageResponse.row_id := Question.id question |})
        else (db, Raise IntegrityError)
    end
  end end.

Definition delete_question (question_id : Z) (current_user : User) (db : Database)
  : Database * Result MessageResponse.t :=
  match check_admin_role current_user with
  | Raise e => (db, Raise e)
  | Ok _ =>
  match find (fun q => Question.id q =? question_id) (question_table db) with
  | None => (db, Raise (HTTPException 404 "Вопрос не найден"))
  | Some question =>
      (cascade_delete_question (Question.id question) db,
       Ok {| MessageResponse.message := "Вопрос успешно удален";
             MessageResponse.row_id := question_id |})
  end end.

(** *** main.py: the routes, dispatched *)

(** The database a request leaves behind. *)
Definition handle (req : Request) (db : Database) : Database :=
  match req with
  | POST_auth_register salt now user_data => fst (register salt now user_data db)
  | POST_auth_login now login_data => fst (login now login_data db)
  | POST_auth_refresh now data => fst (refresh_token now data db)
  | POST_auth_logout data => fst (logout data db)
  | POST_exams_start credentials rng now =>
      fst (Depends_current_user now credentials (start_exam rng now) db)
  | POST_exams_answer credentials now exam_id answer_data =>
      fst (Depends_current_user now credentials
             (answer_question now exam_id answer_data) db)
  | POST_exams_finish credentials now exam_id =>
      fst (Depends_current_user now credentials (finish_exam now exam_id) db)
  | PUT_users_me credentials now salt update_data =>
      fst (Depends_current_user now credentials
             (update_current_user_profile salt update_data) db)
  | PUT_admin_users credentials now salt user_id update_data =>
      fst (Depends_current_user now credentials
             (admin_update_user salt user_id update_data) db)
  | POST_categories credentials now category_data =>
      fst (Depends_current_user now credentials (create_category category_data) db)
  | DELETE_categories credentials now category_id =>
      fst (Depends_current_user now credentials (delete_category category_id) db)
  | POST_questions credentials now question_data =>
      match validate_options (QuestionCreateSchema.options question_data) with
      | Raise _ => db
      | Ok _ =>
          fst (Depends_current_user now credentials
                 (create_question now question_data) db)
      end
  | DELETE_questions credentials now question_id =>
      fst (Depends_current_user now credentials (delete_question question_id) db)
  | PUT_categories credentials now category_id category_data =>
      fst (Depends_current_user now credentials
             (update_category category_id category_data) db)
  | PUT_questions credentials now question_id question_data =>
      fst (Depends_current_user now credentials
             (update_question question_id question_data) db)
  end.


(** ** Invariants of the committed database *)

Definition in_progress_of (user_id : Z) (e : Exam) : bool :=
  (Exam.user_id e =? user_id)
  && ExamStatusChoices.eqb (Exam.status e) ExamStatusChoices.in_progress.

(** At most one exam of a user is in progress. *)
Definition one_in_progress (db : Database) : Prop :=
  forall user_id,
    (List.length (filter (in_progress_of user_id) (exam_table db)) <= 1)%nat.

(** [id] is the primary key of [exam] and of [question]. *)
Definition exam_pk (db : Database) : Prop := NoDup (map Exam.id (exam_table db)).
Definition question_pk (db : Database) : Prop :=
  NoDup (map Question.id (question_table db)).

(** [exam_answer.exam_id] is a foreign key into [exam]. *)
Definition answer_fk (db : Database) : Prop :=
  forall a, In a (exam_answer_table db) ->
            In (ExamAnswer.exam_id a) (map Exam.id (exam_table db)).

Definition answer_key (a : ExamAnswer) : Z * Z :=
  (ExamAnswer.exam_id a, ExamAnswer.question_id a).

(** At most one answer is recorded for an exam and a question. *)
Definition answer_unique (db : Database) : Prop :=
  NoDup (map answer_key (exam_answer_table db)).

(** The recorded answers of an exam that are marked correct. *)
Definition correct_answers (db : Database) (e : Exam) : Z :=
  len (filter ExamAnswer.is_correct (exam_answers db e)).

(** The score of every exam stands in relation [R] to the number of its
    recorded answers that are marked correct. *)
Definition score_rel (R : Z -> Z -> Prop) (db : Database) : Prop :=
  forall e, In e (exam_table db) -> R (correct_answers db e) (Exam.score e).

Definition score_counts : Database -> Prop := score_rel eq.
Definition score_bounds : Database -> Prop := score_rel Z.le.

Definition terminal (e : Exam) : Prop :=
  Exam.status e = ExamStatusChoices.completed
  \/ Exam.status e = ExamStatusChoices.failed.

(** ** Keys and lookups *)

Lemma fold_max_ge (ids : list Z) (x : Z) :
  In x ids -> x <= fold_right Z.max 0 ids.
Proof.
  induction ids as [|y ids IH]; simpl; [tauto|].
  intros [->|Hin]; [lia|]. specialize (IH Hin). lia.
Qed.

Lemma next_id_fresh (ids : list Z) : ~ In (next_id ids) ids.
Proof.
  intros Hin. apply fold_max_ge in Hin. unfold next_id in Hin. lia.
Qed.

Lemma status_eqb_eq (a b : ExamStatusChoices.t) :
  ExamStatusChoices.eqb a b = true <-> a = b.
Proof. destruct a, b; simpl; split; congruence. Qed.

Lemma pk_injective {A : Type} (key : A -> Z) (l : list A) (x y : A) :
  NoDup (map key l) -> In x l -> In y l -> key x = key y -> x = y.
Proof.
  induction l as [|a l IH]; simpl; [tauto|].
  intros Hnd Hx Hy Hk. inversion Hnd as [|? ? Hnotin Hnd']; subst.
  destruct Hx as [->|Hx], Hy as [->|Hy]; auto.
  - exfalso. apply Hnotin. rewrite Hk. now apply in_map.
  - exfalso. apply Hnotin. rewrite <- Hk. now apply in_map.
Qed.

Lemma keys_of_kept_rows_NoDup {Row Key : Type} (key : Row -> Key)
  (keep : Row -> bool) (rows : list Row) :
  NoDup (map key rows) -> NoDup (map key (filter keep rows)).
Proof.
  intros Hnd. induction rows as [|row rows IH]; simpl in *; [constructor|].
  inversion Hnd as [|? ? Hnotin Hnd']; subst.
  destruct (keep row); simpl; auto.
  constructor; auto.
  intros Hin. apply Hnotin. apply in_map_iff in Hin as (x & Hx & Hin).
  apply filter_In in Hin as [Hin _]. rewrite <- Hx. now apply in_map.
Qed.

Lemma NoDup_snoc {A : Type} (l : list A) (x : A) :
  NoDup l -> ~ In x l -> NoDup (l ++ [x]).
Proof.
  intros Hnd Hx. induction Hnd as [|a l Ha Hnd IH]; simpl.
  - constructor; [tauto|constructor].
  - constructor.
    + rewrite in_app_iff. simpl. intros [H|[H|[]]]; [tauto|].
      subst. apply Hx. now left.
    + apply IH. intros H. apply Hx. now right.
Qed.

Lemma find_map_replace (x : Z) (e' : Exam) (l : list Exam) (e : Exam) :
  Exam.id e' = x ->
  find (fun e => Exam.id e =? x) l = Some e ->
  find (fun e => Exam.id e =? x)
       (map (fun e => if Exam.id e =? x then e' else e) l) = Some e'.
Proof.
  intros He'. induction l as [|a l IH]; simpl; [discriminate|].
  destruct (Exam.id a =? x) eqn:Ha; simpl.
  - intros _. now rewrite He', Z.eqb_refl.
  - rewrite Ha. exact IH.
Qed.

Lemma map_replace_ids (e' : Exam) (l : list Exam) :
  map Exam.id (map (fun e => if Exam.id e =? Exam.id e' then e' else e) l)
  = map Exam.id l.
Proof.
  induction l as [|a l IH]; simpl; [reflexivity|].
  rewrite IH. destruct (Exam.id a =? Exam.id e') eqn:Ha; [|reflexivity].
  apply Z.eqb_eq in Ha. now rewrite Ha.
Qed.

Lemma filter_map_le {A : Type} (p : A -> bool) (f : A -> A) (l : list A) :
  (forall a, In a l -> p (f a) = true -> p a = true) ->
  (List.length (filter p (map f l)) <= List.length (filter p l))%nat.
Proof.
  induction l as [|a l IH]; simpl; intros H; [lia|].
  assert (IH' := IH (fun b Hb => H b (or_intror Hb))).
  specialize (H a (or_introl eq_refl)).
  destruct (p (f a)) eqn:Hf; [rewrite (H eq_refl)|destruct (p a)]; simpl; lia.
Qed.

Lemma filter_length_snoc {A : Type} (p : A -> bool) (l : list A) (x : A) :
  List.length (filter p (l ++ [x]))
  = (List.length (filter p l) + (if p x then 1 else 0))%nat.
Proof.
  rewrite filter_app, length_app. simpl. now destruct (p x).
Qed.

Lemma find_none_filter_nil {A : Type} (p : A -> bool) (l : list A) :
  find p l = None -> filter p l = [].
Proof.
  induction l as [|a l IH]; simpl; [reflexivity|].
  destruct (p a); [discriminate|exact IH].
Qed.

(** ** What the exam handlers do to the database *)

Definition started_exam (now : datetime) (u : User) (db : Database) : Exam :=
  {| Exam.id := next_id (map Exam.id (exam_table db));
     Exam.user_id := User.id u;
     Exam.status := ExamStatusChoices.in_progress;
     Exam.started_at := now;
     Exam.score := 0;
     Exam.finished_at := None |}.

Definition recorded_answer (now : datetime) (exam_id : Z)
  (answer_data : ExamAnswerRequestSchema.t) (option : AnswerOption)
  (db : Database) : ExamAnswer :=
  {| ExamAnswer.id := next_id (map ExamAnswer.id (exam_answer_table db));
     ExamAnswer.exam_id := exam_id;
     ExamAnswer.question_id := ExamAnswerRequestSchema.question_id answer_data;
     ExamAnswer.selected_option_id := ExamAnswerRequestSchema.option_id answer_data;
     ExamAnswer.is_correct := AnswerOption.is_correct option;
     ExamAnswer.answered_at := now |}.

Definition scored (option : AnswerOption) (exam : Exam) : Exam :=
  if AnswerOption.is_correct option
  then set_score (Exam.score exam + 1) exam else exam.

Definition verdict (exam : Exam) : ExamStatusChoices.t :=
  if Exam.score exam >=? PASSING_SCORE
  then ExamStatusChoices.completed else ExamStatusChoices.failed.

Lemma sample_never_short {A : Type} (rng : nat -> nat) (l : list A) :
  EXAM_QUESTIONS_COUNT <= len l ->
  random_sample rng l (Z.to_nat EXAM_QUESTIONS_COUNT)
  = Ok (sample_pool rng 0 (Z.to_nat EXAM_QUESTIONS_COUNT) l).
Proof.
  unfold random_sample, len, EXAM_QUESTIONS_COUNT. intros H.
  destruct (Nat.ltb_spec (List.length l) (Z.to_nat 20)) as [Hlt|]; [lia|reflexivity].
Qed.

Lemma start_exam_raises rng now u db db' e :
  start_exam rng now u db = (db', Raise e) -> db' = db.
Proof.
  unfold start_exam.
  destruct (find _ (exam_table db)); [congruence|].
  destruct (len (question_table db) <? EXAM_QUESTIONS_COUNT); [congruence|].
  destruct (random_sample _ _ _); congruence.
Qed.

Lemma start_exam_ok rng now u db db' r :
  start_exam rng now u db = (db', Ok r) ->
  find (in_progress_of (User.id u)) (exam_table db) = None
  /\ EXAM_QUESTIONS_COUNT <= len (question_table db)
  /\ db' = with_exams (exam_table db ++ [started_exam now u db])%list db
  /\ ExamStartResponseSchema.exam_id r = Exam.id (started_exam now u db).
Proof.
  unfold start_exam.
  change (fun e : Exam.t => (Exam.user_id e =? User.id u)
            && ExamStatusChoices.eqb (Exam.status e) ExamStatusChoices.in_progress)
    with (in_progress_of (User.id u)).
  destruct (find _ (exam_table db)); [congruence|].
  destruct (Z.ltb_spec (len (question_table db)) EXAM_QUESTIONS_COUNT)
    as [Hlt|Hge]; [congruence|].
  destruct (random_sample _ _ _); [|congruence].
  intros H. injection H as <- <-. simpl. auto.
Qed.

Lemma answer_question_raises now exam_id answer_data u db db' e :
  answer_question now exam_id answer_data u db = (db', Raise e) -> db' = db.
Proof.
  unfold answer_question.
  destruct (find _ (exam_table db)); [|congruence].
  destruct (negb _); [congruence|].
  destruct (negb _); [congruence|].
  destruct (find _ (question_table db)); [|congruence].
  destruct (find _ (answer_option_table db)); [|congruence].
  destruct (find _ (exam_answer_table db)); congruence.
Qed.

Lemma answer_question_ok now exam_id answer_data u db db' r :
  answer_question now exam_id answer_data u db = (db', Ok r) ->
  exists exam question option,
    find (fun e => Exam.id e =? exam_id) (exam_table db) = Some exam
    /\ Exam.user_id exam = User.id u
    /\ Exam.status exam = ExamStatusChoices.in_progress
    /\ find (fun q => Question.id q =? ExamAnswerRequestSchema.question_id answer_data)
            (question_table db) = Some question
    /\ find (fun o => (AnswerOption.id o =? ExamAnswerRequestSchema.option_id answer_data)
                      && (AnswerOption.question_id o
                          =? ExamAnswerRequestSchema.question_id answer_data))
            (answer_option_table db) = Some option
    /\ find (fun a => (ExamAnswer.exam_id a =? exam_id)
                      && (ExamAnswer.question_id a
                          =? ExamAnswerRequestSchema.question_id answer_data))
            (exam_answer_table db) = None
    /\ db' = update_exam (scored option exam)
               (with_exam_answers
                  (exam_answer_table db
                   ++ [recorded_answer now exam_id answer_data option db])%list db)
    /\ r = {| ExamAnswerResponseSchema.message := "Ответ сохранен";
              ExamAnswerResponseSchema.is_correct := AnswerOption.is_correct option;
              ExamAnswerResponseSchema.current_score := Exam.score (scored option exam) |}.
Proof.
  unfold answer_question.
  destruct (find _ (exam_table db)) as [exam|] eqn:Hexam; [|congruence].
  destruct (Z.eqb_spec (Exam.user_id exam) (User.id u)) as [Hu|]; simpl;
    [|congruence].
  destruct (ExamStatusChoices.eqb _ _) eqn:Hst; simpl; [|congruence].
  destruct (find _ (question_table db)) as [question|] eqn:Hq; [|congruence].
  destruct (find _ (answer_option_table db)) as [option|] eqn:Ho; [|congruence].
  destruct (find _ (exam_answer_table db)) eqn:Ha; [congruence|].
  intros H. injection H as <- <-.
  exists exam, question, option. apply status_eqb_eq in Hst.
  unfold scored, recorded_answer. repeat split; auto.
Qed.

Lemma finish_exam_raises now exam_id u db db' e :
  finish_exam now exam_id u db = (db', Raise e) -> db' = db.
Proof.
  unfold finish_exam.
  destruct (find _ (exam_table db)); [|congruence].
  destruct (negb _); [congruence|].
  destruct (negb _); [congruence|].
  destruct (_ <? _); congruence.
Qed.

Lemma finish_exam_ok now exam_id u db db' r :
  finish_exam now exam_id u db = (db', Ok r) ->
  exists exam,
    find (fun e => Exam.id e =? exam_id) (exam_table db) = Some exam
    /\ Exam.user_id exam = User.id u
    /\ Exam.status exam = ExamStatusChoices.in_progress
    /\ EXAM_QUESTIONS_COUNT <= len (exam_answers db exam)
    /\ db' = update_exam (set_finished (verdict exam) now exam) db
    /\ r = {| ExamFinishResponseSchema.message := "Экзамен завершен";
              ExamFinishResponseSchema.exam_id := Exam.id exam;
              ExamFinishResponseSchema.score := Exam.score exam;
              ExamFinishResponseSchema.total_questions := len (exam_answers db exam);
              ExamFinishResponseSchema.passed := Exam.score exam >=? PASSING_SCORE;
              ExamFinishResponseSchema.finished_at := now |}.
Proof.
  unfold finish_exam.
  destruct (find _ (exam_table db)) as [exam|] eqn:Hexam; [|congruence].
  destruct (Z.eqb_spec (Exam.user_id exam) (User.id u)) as [Hu|]; simpl;
    [|congruence].
  destruct (ExamStatusChoices.eqb _ _) eqn:Hst; simpl; [|congruence].
  destruct (Z.ltb_spec (len (exam_answers db exam)) EXAM_QUESTIONS_COUNT)
    as [Hlt|Hge]; [congruence|].
  intros H. injection H as <- <-.
  exists exam. apply status_eqb_eq in Hst. unfold verdict. repeat split; auto.
Qed.

(** The state of the exam tables after a handler, whatever its outcome. *)
Lemma start_exam_db rng now u db :
  fst (start_exam rng now u db) = db
  \/ (find (in_progress_of (User.id u)) (exam_table db) = None
      /\ fst (start_exam rng now u db)
         = with_exams (exam_table db ++ [started_exam now u db])%list db).
Proof.
  destruct (start_exam rng now u db) as [db' [r|e]] eqn:H; simpl.
  - right. apply start_exam_ok in H. intuition.
  - left. now apply start_exam_raises in H.
Qed.

Lemma answer_question_db now exam_id answer_data u db :
  fst (answer_question now exam_id answer_data u db) = db
  \/ exists exam option,
       find (fun e => Exam.id e =? exam_id) (exam_table db) = Some exam
       /\ Exam.status exam = ExamStatusChoices.in_progress
       /\ find (fun a => (ExamAnswer.exam_id a =? exam_id)
                         && (ExamAnswer.question_id a
                             =? ExamAnswerRequestSchema.question_id answer_data))
               (exam_answer_table db) = None
       /\ fst (answer_question now exam_id answer_data u db)
          = update_exam (scored option exam)
              (with_exam_answers
                 (exam_answer_table db
                  ++ [recorded_answer now exam_id answer_data option db])%list db).
Proof.
  destruct (answer_question now exam_id answer_data u db) as [db' [r|e]] eqn:H;
    simpl.
  - right. apply answer_question_ok in H as (exam & q & o & H).
    exists exam, o. intuition.
  - left. now apply answer_question_raises in H.
Qed.

Lemma finish_exam_db now exam_id u db :
  fst (finish_exam now exam_id u db) = db
  \/ exists exam,
       find (fun e => Exam.id e =? exam_id) (exam_table db) = Some exam
       /\ Exam.status exam = ExamStatusChoices.in_progress
       /\ fst (finish_exam now exam_id u db)
          = update_exam (set_finished (verdict exam) now exam) db.
Proof.
  destruct (finish_exam now exam_id u db) as [db' [r|e]] eqn:H; simpl.
  - right. apply finish_exam_ok in H as (exam & H). exists exam. intuition.
  - left. now apply finish_exam_raises in H.
Qed.

(** ** The effect of a request on the exam and question tables

    Every route leaves these tables in one of six relations to what it
    found; the invariants below are preserved relation by relation. *)

Definition replace_exam (exam' : Exam) (l : list Exam) : list Exam :=
  map (fun e => if Exam.id e =? Exam.id exam' then exam' else e) l.

Inductive exam_effect (deleting : bool) (db db' : Database) : Prop :=
| effect_none :
    exam_table db' = exam_table db ->
    exam_answer_table db' = exam_answer_table db ->
    map Question.id (question_table db') = map Question.id (question_table db) ->
    exam_effect deleting db db'
| effect_question_created (q : Question) :
    exam_table db' = exam_table db ->
    exam_answer_table db' = exam_answer_table db ->
    question_table db' = (question_table db ++ [q])%list ->
    ~ In (Question.id q) (map Question.id (question_table db)) ->
    exam_effect deleting db db'
| effect_catalog_deleted (keep_answer : ExamAnswer -> bool)
    (keep_question : Question -> bool) :
    deleting = true ->
    exam_table db' = exam_table db ->
    exam_answer_table db' = filter keep_answer (exam_answer_table db) ->
    question_table db' = filter keep_question (question_table db) ->
    exam_effect deleting db db'
| effect_started (now : datetime) (u : User) :
    find (in_progress_of (User.id u)) (exam_table db) = None ->
    exam_table db' = (exam_table db ++ [started_exam now u db])%list ->
    exam_answer_table db' = exam_answer_table db ->
    question_table db' = question_table db ->
    exam_effect deleting db db'
| effect_answered (exam : Exam) (option : AnswerOption) (a : ExamAnswer) :
    find (fun e => Exam.id e =? ExamAnswer.exam_id a) (exam_table db) = Some exam ->
    Exam.status exam = ExamStatusChoices.in_progress ->
    find (fun b => (ExamAnswer.exam_id b =? ExamAnswer.exam_id a)
                   && (ExamAnswer.question_id b =? ExamAnswer.question_id a))
         (exam_answer_table db) = None ->
    ExamAnswer.is_correct a = AnswerOption.is_correct option ->
    exam_table db' = replace_exam (scored option exam) (exam_table db) ->
    exam_answer_table db' = (exam_answer_table db ++ [a])%list ->
    question_table db' = question_table db ->
    exam_effect deleting db db'
| effect_finished (now : datetime) (exam : Exam) :
    In exam (exam_table db) ->
    Exam.status exam = ExamStatusChoices.in_progress ->
    exam_table db' = replace_exam (set_finished (verdict exam) now exam) (exam_table db) ->
    exam_answer_table db' = exam_answer_table db ->
    question_table db' = question_table db ->
    exam_effect deleting db db'.

Lemma exam_effect_refl (d : bool) (db : Database) : exam_effect d db db.
Proof. now apply effect_none. Qed.

Lemma Depends_current_user_db {R : Type} now credentials
  (handler : User -> Database -> Database * Result R) db :
  fst (Depends_current_user now credentials handler db) = db
  \/ exists u, fst (Depends_current_user now credentials handler db)
               = fst (handler u db).
Proof.
  unfold Depends_current_user.
  destruct (get_current_user now credentials db) as [u|e]; simpl; eauto.
Qed.

Ltac split_handler :=
  repeat match goal with
         | |- context [match ?x with _ => _ end] => destruct x; simpl
         end.

Lemma register_effect d salt now user_data db :
  exam_effect d db (fst (register salt now user_data db)).
Proof.
  unfold register. split_handler; now apply effect_none.
Qed.

Lemma login_effect d now login_data db :
  exam_effect d db (fst (login now login_data db)).
Proof.
  unfold login. split_handler; now apply effect_none.
Qed.

Lemma refresh_token_effect d now data db :
  exam_effect d db (fst (refresh_token now data db)).
Proof.
  unfold refresh_token. split_handler; now apply effect_none.
Qed.

Lemma logout_effect d data db : exam_effect d db (fst (logout data db)).
Proof.
  unfold logout. split_handler; now apply effect_none.
Qed.

Lemma commit_user_effect user db db' :
  commit_user user db = Ok db' -> forall d, exam_effect d db db'.
Proof.
  unfold commit_user. destruct (existsb _ _); [discriminate|].
  intros H d. injection H as <-. now apply effect_none.
Qed.

Lemma update_current_user_profile_db salt update_data u db :
  fst (update_current_user_profile salt update_data u db) = db.
Proof.
  unfold update_current_user_profile.
  destruct (negb _); simpl; [reflexivity|].
  now destruct (assign_password_if _ _ _ _).
Qed.

Lemma update_current_user_profile_effect d salt update_data u db :
  exam_effect d db (fst (update_current_user_profile salt update_data u db)).
Proof. rewrite update_current_user_profile_db. apply exam_effect_refl. Qed.

Lemma admin_update_user_effect d salt user_id update_data u db :
  exam_effect d db (fst (admin_update_user salt user_id update_data u db)).
Proof.
  unfold admin_update_user.
  destruct (negb _); simpl; [apply exam_effect_refl|].
  destruct (find _ _) as [user|]; simpl; [|apply exam_effect_refl].
  destruct (assign_password_if _ _ _ _) as [u'|]; simpl; [|apply exam_effect_refl].
  match goal with |- context [commit_user ?x db] =>
    destruct (commit_user x db) eqn:H end; simpl; [|apply exam_effect_refl].
  eapply commit_user_effect; eassumption.
Qed.

Lemma update_category_effect d category_id category_data u db :
  exam_effect d db (fst (update_category category_id category_data u db)).
Proof.
  unfold update_category. split_handler; now apply effect_none.
Qed.

Lemma update_question_effect d question_id question_data u db :
  exam_effect d db (fst (update_question question_id question_data u db)).
Proof.
  unfold update_question.
  destruct (check_admin_role u); simpl; [|apply exam_effect_refl].
  destruct (find _ (question_table db)); simpl; [|apply exam_effect_refl].
  match goal with |- context [if ?c then _ else _] => destruct c end;
    simpl; [apply exam_effect_refl|].
  destruct (setattr_question _ _) as [q|]; simpl; [|apply exam_effect_refl].
  destruct (existsb _ _); simpl; [|apply exam_effect_refl].
  apply effect_none; simpl; try reflexivity.
  induction (question_table db) as [|row rows IH]; simpl; [reflexivity|].
  rewrite IH. destruct (Z.eqb_spec (Question.id row) (Question.id q)) as [E|];
    [now rewrite E|reflexivity].
Qed.

Lemma create_category_effect d category_data u db :
  exam_effect d db (fst (create_category category_data u db)).
Proof.
  unfold create_category. split_handler; now apply effect_none.
Qed.

Lemma add_answer_options_tables question_id options db :
  let db' := fold_left (add_answer_option question_id) options db in
  exam_table db' = exam_table db
  /\ exam_answer_table db' = exam_answer_table db
  /\ question_table db' = question_table db.
Proof.
  revert db. induction options as [|o options IH]; intros db; simpl; [auto|].
  destruct (IH (add_answer_option question_id db o)) as (H1 & H2 & H3).
  rewrite H1, H2, H3. auto.
Qed.

Lemma create_question_effect d now question_data u db :
  exam_effect d db (fst (create_question now question_data u db)).
Proof.
  unfold create_question.
  destruct (check_admin_role u); simpl; [|apply exam_effect_refl].
  destruct (find _ (category_table db)); simpl; [|apply exam_effect_refl].
  match goal with |- context [fold_left ?f ?l ?d] =>
    destruct (add_answer_options_tables
                (next_id (map Question.id (question_table db))) l d)
      as (H1 & H2 & H3) end.
  eapply effect_question_created; simpl in *; eauto.
  simpl. apply next_id_fresh.
Qed.

Lemma cascade_delete_question_effect question_id db :
  exam_effect true db (cascade_delete_question question_id db).
Proof.
  unfold cascade_delete_question. eapply effect_catalog_deleted; reflexivity.
Qed.

Lemma filter_filter {A : Type} (p q : A -> bool) (l : list A) :
  filter q (filter p l) = filter (fun a => p a && q a) l.
Proof.
  induction l as [|a l IH]; simpl; [reflexivity|].
  destruct (p a); simpl; [destruct (q a)|]; now rewrite IH.
Qed.

Lemma cascade_delete_questions_tables (qs : list Question) (db : Database) :
  let db' := fold_left (fun db q => cascade_delete_question (Question.id q) db)
                       qs db in
  exists keep_answer keep_question,
    exam_table db' = exam_table db
    /\ exam_answer_table db' = filter keep_answer (exam_answer_table db)
    /\ question_table db' = filter keep_question (question_table db).
Proof.
  revert db. induction qs as [|q qs IH]; intros db; simpl.
  - exists (fun _ => true), (fun _ => true).
    repeat split; symmetry; apply forallb_filter_id; now apply forallb_forall.
  - destruct (IH (cascade_delete_question (Question.id q) db))
      as (ka & kq & H1 & H2 & H3).
    simpl in *. rewrite H1, H2, H3, !filter_filter. eauto.
Qed.

Lemma delete_question_effect question_id u db :
  exam_effect true db (fst (delete_question question_id u db)).
Proof.
  unfold delete_question.
  destruct (check_admin_role u); simpl; [|apply exam_effect_refl].
  destruct (find _ _); simpl; [|apply exam_effect_refl].
  apply cascade_delete_question_effect.
Qed.

Lemma delete_category_effect category_id u db :
  exam_effect true db (fst (delete_category category_id u db)).
Proof.
  unfold delete_category.
  destruct (check_admin_role u); simpl; [|apply exam_effect_refl].
  destruct (find _ _) as [c|]; simpl; [|apply exam_effect_refl].
  unfold cascade_delete_category.
  match goal with |- context [fold_left ?f ?l db] =>
    destruct (cascade_delete_questions_tables l db) as (ka & kq & H1 & H2 & H3)
  end.
  eapply effect_catalog_deleted; simpl; eauto.
Qed.

Lemma start_exam_effect d rng now u db :
  exam_effect d db (fst (start_exam rng now u db)).
Proof.
  destruct (start_exam_db rng now u db) as [->|[Hnone ->]];
    [apply exam_effect_refl|].
  now apply effect_started with now u.
Qed.

Lemma answer_question_effect d now exam_id answer_data u db :
  exam_effect d db (fst (answer_question now exam_id answer_data u db)).
Proof.
  destruct (answer_question_db now exam_id answer_data u db)
    as [->|(exam & option & Hexam & Hst & Hnone & ->)];
    [apply exam_effect_refl|].
  apply effect_answered
    with exam option (recorded_answer now exam_id answer_data option db);
    simpl; auto.
Qed.

Lemma finish_exam_effect d now exam_id u db :
  exam_effect d db (fst (finish_exam now exam_id u db)).
Proof.
  destruct (finish_exam_db now exam_id u db) as [->|(exam & Hexam & Hst & ->)];
    [apply exam_effect_refl|].
  apply effect_finished with now exam; simpl; auto.
  now apply find_some in Hexam.
Qed.

(** Every request leaves the tables in one of the six relations; a request
    that is not a deletion from the catalog, in one of the other five. *)
Lemma handle_effect (req : Request) (db : Database) :
  exam_effect (deletes_catalog req) db (handle req db).
Proof.
  destruct req; simpl;
    try match goal with
        | |- context [Depends_current_user ?n ?c ?h db] =>
            destruct (Depends_current_user_db n c h db) as [->|[u ->]];
            [apply exam_effect_refl|]
        end.
  - apply register_effect.
  - apply login_effect.
  - apply refresh_token_effect.
  - apply logout_effect.
  - apply start_exam_effect.
  - apply answer_question_effect.
  - apply finish_exam_effect.
  - apply update_current_user_profile_effect.
  - apply admin_update_user_effect.
  - apply create_category_effect.
  - apply delete_category_effect.
  - destruct (validate_options _); [|apply exam_effect_refl].
    destruct (Depends_current_user_db now credentials
                (create_question now question_data) db) as [->|[u ->]];
      [apply exam_effect_refl|apply create_question_effect].
  - apply delete_question_effect.
  - apply update_category_effect.
  - apply update_question_effect.
Qed.

(** ** Preservation of the invariants, effect by effect *)

Lemma replace_exam_ids (e' : Exam) (l : list Exam) :
  map Exam.id (replace_exam e' l) = map Exam.id l.
Proof. apply map_replace_ids. Qed.

Lemma In_replace_exam (e' : Exam) (l : list Exam) (x : Exam) :
  In x (replace_exam e' l) ->
  (x = e' /\ In (Exam.id e') (map Exam.id l))
  \/ (In x l /\ Exam.id x <> Exam.id e').
Proof.
  unfold replace_exam. intros H. apply in_map_iff in H as (e0 & Hx & Hin).
  destruct (Z.eqb_spec (Exam.id e0) (Exam.id e')) as [Heq|Hne].
  - left. split; [auto|]. rewrite <- Heq. now apply in_map.
  - right. subst. auto.
Qed.

Lemma scored_id option exam : Exam.id (scored option exam) = Exam.id exam.
Proof. unfold scored. now destruct (AnswerOption.is_correct option). Qed.

Lemma scored_user option exam :
  Exam.user_id (scored option exam) = Exam.user_id exam.
Proof. unfold scored. now destruct (AnswerOption.is_correct option). Qed.

Lemma scored_status option exam :
  Exam.status (scored option exam) = Exam.status exam.
Proof. unfold scored. now destruct (AnswerOption.is_correct option). Qed.

Lemma scored_score option exam :
  Exam.score (scored option exam)
  = Exam.score exam + (if AnswerOption.is_correct option then 1 else 0).
Proof. unfold scored. destruct (AnswerOption.is_correct option); simpl; lia. Qed.

Lemma verdict_terminal exam :
  verdict exam = ExamStatusChoices.completed
  \/ verdict exam = ExamStatusChoices.failed.
Proof. unfold verdict. destruct (_ >=? _); auto. Qed.

Lemma find_exam_id exam_id l exam :
  find (fun e => Exam.id e =? exam_id) l = Some exam ->
  In exam l /\ Exam.id exam = exam_id.
Proof.
  intros H. apply find_some in H as [Hin Heq]. split; [auto|]. now apply Z.eqb_eq.
Qed.

Lemma exam_pk_preserved d db db' :
  exam_effect d db db' -> exam_pk db -> exam_pk db'.
Proof.
  unfold exam_pk.
  intros [E _ _|q E _ _ _|ka kq _ E _ _|now u Hnone E _ _
         |exam o a Hexam Hst Hnone Hc E _ _|now exam Hin Hst E _ _] Hpk;
    rewrite E; auto.
  - rewrite map_app. simpl. apply NoDup_snoc; [auto|apply next_id_fresh].
  - now rewrite replace_exam_ids.
  - now rewrite replace_exam_ids.
Qed.

Lemma one_in_progress_preserved d db db' :
  exam_effect d db db' -> exam_pk db -> one_in_progress db -> one_in_progress db'.
Proof.
  unfold one_in_progress.
  intros [E _ _|q E _ _ _|ka kq _ E _ _|now u Hnone E _ _
         |exam o a Hexam Hst Hnone Hc E _ _|now exam Hin Hst E _ _] Hpk Hone uid;
    rewrite E; auto.
  - rewrite filter_length_snoc. specialize (Hone uid).
    unfold in_progress_of at 2. simpl.
    destruct (Z.eqb_spec (User.id u) uid) as [<-|Hne]; simpl; [|lia].
    now rewrite (find_none_filter_nil _ _ Hnone).
  - etransitivity; [|apply (Hone uid)]. apply filter_map_le.
    intros e He. apply find_exam_id in Hexam as [Hin Hid].
    destruct (Z.eqb_spec (Exam.id e) (Exam.id (scored o exam))) as [Heq|]; [|auto].
    rewrite scored_id in Heq.
    assert (e = exam) as -> by (eapply pk_injective; eauto).
    unfold in_progress_of. now rewrite scored_user, scored_status.
  - etransitivity; [|apply (Hone uid)]. apply filter_map_le.
    intros e He. destruct (Exam.id e =? _); [|auto].
    unfold in_progress_of. simpl.
    destruct (verdict_terminal exam) as [-> | ->]; simpl;
      rewrite andb_false_r; discriminate.
Qed.

Lemma answer_fk_preserved d db db' :
  exam_effect d db db' -> answer_fk db -> answer_fk db'.
Proof.
  unfold answer_fk.
  intros [E Ea _|q E Ea _ _|ka kq _ E Ea _|now u Hnone E Ea _
         |exam o a Hexam Hst Hnone Hc E Ea _|now exam Hin Hst E Ea _] Hfk b;
    rewrite E, Ea; auto.
  - intros Hb. apply filter_In in Hb as [Hb _]. auto.
  - intros Hb. rewrite map_app, in_app_iff. auto.
  - rewrite replace_exam_ids, in_app_iff. intros [Hb|[<-|[]]]; [auto|].
    apply find_exam_id in Hexam as [Hin <-]. now apply in_map.
  - rewrite replace_exam_ids. auto.
Qed.

Lemma answer_unique_preserved d db db' :
  exam_effect d db db' -> answer_unique db -> answer_unique db'.
Proof.
  unfold answer_unique.
  intros [_ Ea _|q _ Ea _ _|ka kq _ _ Ea _|now u Hnone _ Ea _
         |exam o a Hexam Hst Hnone Hc _ Ea _|now exam Hin Hst _ Ea _] Hu;
    rewrite Ea; auto.
  - now apply keys_of_kept_rows_NoDup.
  - rewrite map_app. simpl. apply NoDup_snoc; [auto|].
    intros Hin. apply in_map_iff in Hin as (b & Hk & Hb).
    apply (find_none _ _ Hnone) in Hb.
    unfold answer_key in Hk. injection Hk as H1 H2.
    now rewrite H1, H2, !Z.eqb_refl in Hb.
Qed.

Lemma question_pk_preserved d db db' :
  exam_effect d db db' -> question_pk db -> question_pk db'.
Proof.
  unfold question_pk.
  intros [_ _ Eq|q _ _ Eq Hfresh|ka kq _ _ _ Eq|now u Hnone _ _ Eq
         |exam o a Hexam Hst Hnone Hc _ _ Eq|now exam Hin Hst _ _ Eq] Hpk;
    rewrite Eq; auto.
  - rewrite map_app. simpl. now apply NoDup_snoc.
  - now apply keys_of_kept_rows_NoDup.
Qed.

(** The number of correct answers an answer table holds for an exam key. *)
Definition count_correct (answers : list ExamAnswer) (exam_id : Z) : Z :=
  len (filter ExamAnswer.is_correct
              (filter (fun a => ExamAnswer.exam_id a =? exam_id) answers)).

Lemma correct_answers_count db e :
  correct_answers db e = count_correct (exam_answer_table db) (Exam.id e).
Proof. reflexivity. Qed.

Lemma count_correct_snoc answers a exam_id :
  count_correct (answers ++ [a]) exam_id
  = count_correct answers exam_id
    + (if (ExamAnswer.exam_id a =? exam_id) && ExamAnswer.is_correct a
       then 1 else 0).
Proof.
  unfold count_correct, len. rewrite !filter_app, length_app. simpl.
  destruct (ExamAnswer.exam_id a =? exam_id); simpl;
    [destruct (ExamAnswer.is_correct a)|]; simpl; lia.
Qed.

Lemma count_correct_unreferenced answers exam_id :
  ~ In exam_id (map ExamAnswer.exam_id answers) ->
  count_correct answers exam_id = 0.
Proof.
  intros H. unfold count_correct.
  replace (filter (fun a => ExamAnswer.exam_id a =? exam_id) answers) with
    (@nil ExamAnswer); [reflexivity|].
  symmetry. induction answers as [|a answers IH]; simpl in *; [reflexivity|].
  destruct (Z.eqb_spec (ExamAnswer.exam_id a) exam_id); [tauto|].
  apply IH. tauto.
Qed.

Lemma count_correct_filter keep answers exam_id :
  count_correct (filter keep answers) exam_id <= count_correct answers exam_id.
Proof.
  unfold count_correct, len. rewrite !filter_filter.
  apply inj_le. induction answers as [|a answers IH]; simpl; [lia|].
  destruct (keep a); simpl; [|destruct (_ && _); simpl; lia].
  destruct (_ && _); simpl; lia.
Qed.

Lemma score_rel_preserved (R : Z -> Z -> Prop) db db' :
  R 0 0 -> (forall a b, R a b -> R (a + 1) (b + 1)) ->
  exam_effect false db db' -> answer_fk db -> score_rel R db -> score_rel R db'.
Proof.
  unfold score_rel. intros R0 RS.
  intros [E Ea _|q E Ea _ _|ka kq Hd E Ea _|now u Hnone E Ea _
         |exam o a Hexam Hst Hnone Hc E Ea _|now exam Hin Hst E Ea _] Hfk HR e;
    rewrite E, !correct_answers_count, ?Ea; try discriminate;
    try (intros He; rewrite <- correct_answers_count; now apply HR).
  - rewrite in_app_iff. intros [He|[<-|[]]].
    + rewrite <- correct_answers_count. now apply HR.
    + simpl. rewrite count_correct_unreferenced; [exact R0|].
      intros Hin. apply in_map_iff in Hin as (b & Hb & Hin).
      apply Hfk in Hin. rewrite Hb in Hin. now apply next_id_fresh in Hin.
  - apply find_exam_id in Hexam as [Hin Hid].
    rewrite count_correct_snoc.
    intros He. apply In_replace_exam in He as [[-> _]|[He Hne]].
    + rewrite scored_id, scored_score, Hid, Z.eqb_refl, Hc. simpl.
      specialize (HR exam Hin). rewrite correct_answers_count, Hid in HR.
      destruct (AnswerOption.is_correct o); [now apply RS|].
      now rewrite !Z.add_0_r.
    + rewrite scored_id in Hne.
      destruct (Z.eqb_spec (ExamAnswer.exam_id a) (Exam.id e)); [congruence|].
      simpl. rewrite Z.add_0_r, <- correct_answers_count. now apply HR.
  - intros He. apply In_replace_exam in He as [[-> _]|[He Hne]].
    + simpl. specialize (HR exam Hin). now rewrite correct_answers_count in HR.
    + rewrite <- correct_answers_count. now apply HR.
Qed.

Lemma score_bounds_deletion db db' :
  exam_effect true db db' -> answer_fk db ->
  score_rel Z.le db -> score_rel Z.le db'.
Proof.
  intros Heff Hfk HR.
  destruct Heff as [E Ea Eq|q E Ea Eq Hq|ka kq _ E Ea _|now u Hnone E Ea Eq
                   |exam o a Hexam Hst Hnone Hc E Ea Eq|now exam Hin Hst E Ea Eq].
  - apply (score_rel_preserved Z.le db db'); auto; [lia|intros; lia|].
    now apply effect_none.
  - apply (score_rel_preserved Z.le db db'); auto; [lia|intros; lia|].
    now apply effect_question_created with q.
  - unfold score_rel. intros e. rewrite E, correct_answers_count, Ea. intros He.
    etransitivity; [apply count_correct_filter|].
    rewrite <- correct_answers_count. now apply HR.
  - apply (score_rel_preserved Z.le db db'); auto; [lia|intros; lia|].
    now apply effect_started with now u.
  - apply (score_rel_preserved Z.le db db'); auto; [lia|intros; lia|].
    now apply effect_answered with exam o a.
  - apply (score_rel_preserved Z.le db db'); auto; [lia|intros; lia|].
    now apply effect_finished with now exam.
Qed.

(** A terminal exam row survives every effect unchanged. *)
Lemma terminal_row_preserved d db db' e :
  exam_effect d db db' -> exam_pk db ->
  In e (exam_table db) -> terminal e -> In e (exam_table db').
Proof.
  intros [E _ _|q E _ _ _|ka kq _ E _ _|now u Hnone E _ _
         |exam o a Hexam Hst Hnone Hc E _ _|now exam Hin Hst E _ _] Hpk He Ht;
    rewrite E; auto.
  - rewrite in_app_iff. auto.
  - apply find_exam_id in Hexam as [Hin Hid].
    unfold replace_exam. apply in_map_iff. exists e. split; [|auto].
    destruct (Z.eqb_spec (Exam.id e) (Exam.id (scored o exam))) as [Heq|]; [|auto].
    rewrite scored_id in Heq.
    assert (e = exam) as -> by (eapply pk_injective; eauto).
    destruct Ht as [Ht|Ht]; congruence.
  - unfold replace_exam. apply in_map_iff. exists e. split; [|auto].
    destruct (Z.eqb_spec (Exam.id e) (Exam.id (set_finished (verdict exam) now exam)))
      as [Heq|]; [|auto].
    simpl in Heq.
    assert (e = exam) as -> by (eapply pk_injective; eauto).
    destruct Ht as [Ht|Ht]; congruence.
Qed.

(** ** Deletions from the catalog *)

(** The keys that are left when the questions [gone] are deleted. *)
Definition kept (gone : list Z) (k : Z) : bool := negb (existsb (Z.eqb k) gone).

Lemma kept_none {A : Type} (key : A -> Z) (l : list A) :
  filter (fun a => kept [] (key a)) l = l.
Proof. induction l as [|a l IH]; simpl; [reflexivity|]. now rewrite IH. Qed.

Lemma kept_one {A : Type} (key : A -> Z) (x : Z) (l : list A) :
  filter (fun a => negb (key a =? x)) l = filter (fun a => kept [x] (key a)) l.
Proof.
  apply filter_ext. intros a. unfold kept. simpl. now rewrite Bool.orb_false_r.
Qed.

Lemma kept_more {A : Type} (key : A -> Z) (x : Z) (gone : list Z) (l : list A) :
  filter (fun a => kept gone (key a)) (filter (fun a => negb (key a =? x)) l)
  = filter (fun a => kept (x :: gone) (key a)) l.
Proof.
  rewrite filter_filter. apply filter_ext. intros a. unfold kept. simpl.
  now rewrite Bool.negb_orb.
Qed.

Lemma kept_In (gone : list Z) (k : Z) : kept gone k = true <-> ~ In k gone.
Proof.
  unfold kept. rewrite Bool.negb_true_iff, <- Bool.not_true_iff_false.
  rewrite existsb_exists. split; intros H H'; apply H.
  - exists k. split; [assumption|apply Z.eqb_refl].
  - destruct H' as (x & Hx & E). apply Z.eqb_eq in E. now subst.
Qed.

Lemma cascade_delete_questions_kept (qs : list Question) (db : Database) :
  let db' := fold_left (fun db q => cascade_delete_question (Question.id q) db)
                       qs db in
  exam_table db' = exam_table db
  /\ exam_answer_table db'
     = filter (fun a => kept (map Question.id qs) (ExamAnswer.question_id a))
              (exam_answer_table db)
  /\ question_table db'
     = filter (fun q => kept (map Question.id qs) (Question.id q))
              (question_table db).
Proof.
  revert db. induction qs as [|q qs IH]; intros db; simpl.
  - now rewrite !kept_none.
  - destruct (IH (cascade_delete_question (Question.id q) db)) as (H1 & H2 & H3).
    simpl in *. rewrite H1, H2, H3.
    now rewrite (kept_more ExamAnswer.question_id), (kept_more Question.id).
Qed.

Lemma delete_question_ok question_id u db db' r :
  delete_question question_id u db = (db', Ok r) ->
  In question_id (map Question.id (question_table db))
  /\ db' = cascade_delete_question question_id db.
Proof.
  unfold delete_question.
  destruct (check_admin_role u); [|discriminate].
  destruct (find _ (question_table db)) as [q|] eqn:Hfind; [|discriminate].
  apply find_some in Hfind as [Hin Hid]. apply Z.eqb_eq in Hid.
  intros H. injection H as <- _. rewrite Hid. split; [|reflexivity].
  rewrite <- Hid. now apply in_map.
Qed.

Lemma delete_category_ok category_id u db db' r :
  delete_category category_id u db = (db', Ok r) ->
  db' = cascade_delete_category category_id db.
Proof.
  unfold delete_category.
  destruct (check_admin_role u); [|discriminate].
  destruct (find _ (category_table db)) as [c|] eqn:Hfind; [|discriminate].
  apply find_some in Hfind as [_ Hid]. apply Z.eqb_eq in Hid.
  intros H. injection H as <- _. now rewrite Hid.
Qed.

(** What a deletion route leaves of the exams, the answers and the
    questions: the exams; the answers and the questions other than those of
    the questions deleted, which were in the catalog. *)
Lemma handle_deletion (req : Request) (db : Database) :
  deletes_catalog req = true ->
  exists gone,
    exam_table (handle req db) = exam_table db
    /\ exam_answer_table (handle req db)
       = filter (fun a => kept gone (ExamAnswer.question_id a))
                (exam_answer_table db)
    /\ question_table (handle req db)
       = filter (fun q => kept gone (Question.id q)) (question_table db)
    /\ forall k, In k gone -> In k (map Question.id (question_table db)).
Proof.
  assert (Hnothing : exists gone,
             exam_table db = exam_table db
             /\ exam_answer_table db
                = filter (fun a => kept gone (ExamAnswer.question_id a))
                         (exam_answer_table db)
             /\ question_table db
                = filter (fun q => kept gone (Question.id q)) (question_table db)
             /\ forall k, In k gone -> In k (map Question.id (question_table db))).
  { exists []. rewrite !kept_none. repeat split. intros k []. }
  destruct req; try discriminate; intros _; simpl; unfold Depends_current_user;
    destruct (get_current_user now credentials db) as [u|]; simpl;
    try exact Hnothing.
  - destruct (delete_category category_id u db) as [db' [r|e]] eqn:H; simpl.
    + apply delete_category_ok in H as ->. unfold cascade_delete_category.
      set (qs := filter (fun q => Question.category_id q =? category_id)
                        (question_table db)).
      destruct (cascade_delete_questions_kept qs db) as (H1 & H2 & H3).
      exists (map Question.id qs). simpl. repeat split; auto.
      intros k Hk. apply in_map_iff in Hk as (q & <- & Hq).
      apply filter_In in Hq as [Hq _]. now apply in_map.
    + revert H. unfold delete_category.
      destruct (check_admin_role u); [|intros H; injection H as <- _; exact Hnothing].
      destruct (find _ (category_table db));
        intros H; [discriminate H|injection H as <- _; exact Hnothing].
  - destruct (delete_question question_id u db) as [db' [r|e]] eqn:H; simpl.
    + apply delete_question_ok in H as [Hin ->]. unfold cascade_delete_question.
      exists [question_id]. simpl.
      rewrite <- (kept_one ExamAnswer.question_id), <- (kept_one Question.id).
      repeat split. intros k [<-|[]]. exact Hin.
    + revert H. unfold delete_question.
      destruct (check_admin_role u); [|intros H; injection H as <- _; exact Hnothing].
      destruct (find _ (question_table db));
        intros H; [discriminate H|injection H as <- _; exact Hnothing].
Qed.

(** Deleting no question that has an answer leaves the answers. *)
Lemma handle_deletion_of_unanswered (req : Request) (db : Database) :
  deletes_catalog req = true ->
  (forall a, In a (exam_answer_table db) ->
             In (ExamAnswer.question_id a) (map Question.id (question_table db)) ->
             In (ExamAnswer.question_id a)
                (map Question.id (question_table (handle req db)))) ->
  exam_table (handle req db) = exam_table db
  /\ exam_answer_table (handle req db) = exam_answer_table db.
Proof.
  intros Hd Hanswered.
  destruct (handle_deletion req db Hd) as (gone & He & Ha & Hq & Hgone).
  split; [exact He|]. rewrite Ha. apply forallb_filter_id, forallb_forall.
  intros a Hin. apply kept_In. intros Hk.
  specialize (Hanswered a Hin (Hgone _ Hk)). rewrite Hq in Hanswered.
  apply in_map_iff in Hanswered as (q & E & Hq').
  apply filter_In in Hq' as [_ Hkept]. apply kept_In in Hkept.
  apply Hkept. now rewrite E.
Qed.

(** ** Decimal strings and sampling *)

Lemma int_str (n : Z) : int (str n) = Ok n.
Proof.
  assert (forall d, Pos.to_uint d <> Nil) as Hnil
    by apply Unsigned.to_uint_nonnil.
  unfold int, str. rewrite NilZero.isi.
  - now rewrite DecimalZ.of_to.
  - destruct n; simpl; try discriminate. intros H. injection H as H.
    now apply Hnil in H.
  - destruct n; simpl; try discriminate. intros H. injection H as H.
    now apply Hnil in H.
Qed.

Lemma str_injective (a b : Z) : str a = str b -> a = b.
Proof.
  intros H. assert (Ok a = Ok b) as E by (rewrite <- !int_str; now rewrite H).
  now injection E.
Qed.

Lemma NoDup_map_str (ids : list Z) : NoDup ids -> NoDup (map str ids).
Proof.
  induction 1 as [|x l Hx Hnd IH]; simpl; constructor; auto.
  intros Hin. apply in_map_iff in Hin as (y & Hy & Hin).
  apply str_injective in Hy. now subst.
Qed.

Lemma snoc_cases {A : Type} (l : list A) :
  l = [] \/ exists l' y, l = (l' ++ [y])%list.
Proof.
  induction l as [|a l IH] using rev_ind; [now left|right; eauto].
Qed.

(** One step of the selection: the cell taken and the cells left are the
    pool, rearranged. *)
Lemma sample_step_permutation {A : Type} (pool : list A) (j : nat) (x : A) :
  nth_error pool j = Some x ->
  Permutation pool (x :: removelast (list_set j (last pool x) pool)).
Proof.
  intros Hj. apply nth_error_split in Hj as (l1 & l2 & -> & <-).
  unfold list_set.
  rewrite firstn_app, firstn_all, Nat.sub_diag, firstn_O, app_nil_r.
  replace (skipn (S (List.length l1)) (l1 ++ x :: l2)) with l2.
  2:{ rewrite skipn_app, skipn_all2 by lia.
      now replace (S (List.length l1) - List.length l1)%nat with 1%nat by lia. }
  destruct (snoc_cases l2) as [->|(l2' & y & ->)].
  - rewrite last_last, removelast_last. symmetry. apply Permutation_cons_append.
  - replace (l1 ++ x :: l2' ++ [y])%list with ((l1 ++ x :: l2') ++ [y])%list
      by (now rewrite <- app_assoc).
    rewrite last_last.
    replace (l1 ++ y :: l2' ++ [y])%list with ((l1 ++ y :: l2') ++ [y])%list
      by (now rewrite <- app_assoc).
    rewrite removelast_last, <- app_assoc. simpl.
    etransitivity; [symmetry; apply Permutation_middle|].
    apply perm_skip, Permutation_app_head.
    symmetry. apply Permutation_cons_append.
Qed.

Lemma sample_pool_step {A : Type} (rng : nat -> nat) (i k : nat) (pool : list A) :
  sample_pool rng i (S k) pool
  = match nth_error pool (randbelow rng i (List.length pool)) with
    | None => []
    | Some x =>
        x :: sample_pool rng (S i) k
               (removelast
                  (list_set (randbelow rng i (List.length pool)) (last pool x) pool))
    end.
Proof. reflexivity. Qed.

Lemma sample_pool_permutation {A : Type} (rng : nat -> nat) (k i : nat)
  (pool : list A) :
  (k <= List.length pool)%nat ->
  List.length (sample_pool rng i k pool) = k
  /\ exists rest, Permutation pool (sample_pool rng i k pool ++ rest).
Proof.
  revert i pool. induction k as [|k IH]; intros i pool Hk.
  - split; [reflexivity|]. now exists pool.
  - rewrite sample_pool_step.
    assert (randbelow rng i (List.length pool) < List.length pool)%nat as Hj
      by (unfold randbelow; apply Nat.mod_upper_bound; lia).
    destruct (nth_error pool _) as [x|] eqn:Hx;
      [|apply nth_error_None in Hx; lia].
    assert (Hperm := sample_step_permutation _ _ _ Hx).
    set (pool' := removelast _) in *.
    assert (List.length pool = S (List.length pool')) as Hlen
      by (now apply Permutation_length in Hperm).
    destruct (IH (S i) pool') as (Hl & rest & Hrest); [lia|].
    split; [simpl; now rewrite Hl|].
    exists rest. etransitivity; [exact Hperm|]. simpl. now apply perm_skip.
Qed.

Lemma sample_pool_NoDup {A : Type} (key : A -> Z) (rng : nat -> nat) (k : nat)
  (pool : list A) :
  (k <= List.length pool)%nat -> NoDup (map key pool) ->
  NoDup (map key (sample_pool rng 0 k pool)).
Proof.
  intros Hk Hnd.
  destruct (sample_pool_permutation rng k 0 pool Hk) as (_ & rest & Hperm).
  apply (Permutation_map key) in Hperm. rewrite map_app in Hperm.
  eapply Permutation_NoDup in Hnd; [|exact Hperm].
  now apply NoDup_app_remove_r in Hnd.
Qed.

Lemma sample_pool_In {A : Type} (rng : nat -> nat) (k : nat) (pool : list A) x :
  (k <= List.length pool)%nat -> In x (sample_pool rng 0 k pool) -> In x pool.
Proof.
  intros Hk Hin.
  destruct (sample_pool_permutation rng k 0 pool Hk) as (_ & rest & Hperm).
  eapply Permutation_in; [symmetry; exact Hperm|]. apply in_app_iff. now left.
Qed.

(** ** finish_exam *)

Lemma find_update_exam exam_id exam exam' db :
  find (fun e => Exam.id e =? exam_id) (exam_table db) = Some exam ->
  Exam.id exam' = Exam.id exam ->
  find (fun e => Exam.id e =? exam_id) (exam_table (update_exam exam' db))
  = Some exam'.
Proof.
  intros Hfind Hid. destruct (find_exam_id _ _ _ Hfind) as [_ Hx].
  unfold update_exam. simpl. rewrite Hid, Hx.
  apply find_map_replace with exam; congruence.
Qed.

Lemma finish_exam_eval now exam_id u db exam :
  find (fun e => Exam.id e =? exam_id) (exam_table db) = Some exam ->
  Exam.user_id exam = User.id u ->
  Exam.status exam = ExamStatusChoices.in_progress ->
  finish_exam now exam_id u db
  = if len (exam_answers db exam) <? EXAM_QUESTIONS_COUNT
    then (db, Raise (HTTPException 400
                ("Вы ответили только на " ++ str (len (exam_answers db exam))
                 ++ " из " ++ str EXAM_QUESTIONS_COUNT ++ " вопросов")))
    else (update_exam (set_finished (verdict exam) now exam) db,
          Ok {| ExamFinishResponseSchema.message := "Экзамен завершен";
                ExamFinishResponseSchema.exam_id := Exam.id exam;
                ExamFinishResponseSchema.score := Exam.score exam;
                ExamFinishResponseSchema.total_questions := len (exam_answers db exam);
                ExamFinishResponseSchema.passed := Exam.score exam >=? PASSING_SCORE;
                ExamFinishResponseSchema.finished_at := now |}).
Proof.
  intros Hfind Hu Hst. unfold finish_exam.
  rewrite Hfind, Hu, Z.eqb_refl, Hst. reflexivity.
Qed.

(** C1, as the code has it.  For an exam of the calling user that is in
    progress, [finish_exam] succeeds if and only if at least
    [EXAM_QUESTIONS_COUNT] (20) answers are recorded for it.  With fewer it
    raises 400 naming the number of answers, the database untouched: with 19
    the detail reads "19 of 20".  When it succeeds it stamps the finish time
    and keeps the score; the exam becomes [completed] and [passed] is true
    when the score is at least [PASSING_SCORE] (18), and [failed] with
    [passed] false otherwise: so with 20 answers and score 18 it is
    completed, with 20 answers and score 17 it is failed. *)
Theorem finish_exam_requires_all_answers now exam_id current_user db exam :
  find (fun e => Exam.id e =? exam_id) (exam_table db) = Some exam ->
  Exam.user_id exam = User.id current_user ->
  Exam.status exam = ExamStatusChoices.in_progress ->
  let answered := len (exam_answers db exam) in
  let outcome (passed : bool) (status : ExamStatusChoices.t) :=
    exists db' r finished,
      finish_exam now exam_id current_user db = (db', Ok r)
      /\ find (fun e => Exam.id e =? exam_id) (exam_table db') = Some finished
      /\ Exam.status finished = status
      /\ Exam.finished_at finished = Some now
      /\ Exam.score finished = Exam.score exam
      /\ exam_answers db' finished = exam_answers db exam
      /\ ExamFinishResponseSchema.passed r = passed
      /\ ExamFinishResponseSchema.score r = Exam.score exam
      /\ ExamFinishResponseSchema.total_questions r = answered in
  ((exists db' r, finish_exam now exam_id current_user db = (db', Ok r))
   <-> EXAM_QUESTIONS_COUNT <= answered)
  /\ (answered < EXAM_QUESTIONS_COUNT ->
      finish_exam now exam_id current_user db
      = (db, Raise (HTTPException 400
               ("Вы ответили только на " ++ str answered ++ " из 20 вопросов"))))
  /\ (answered = 19 ->
      finish_exam now exam_id current_user db
      = (db, Raise (HTTPException 400 "Вы ответили только на 19 из 20 вопросов")))
  /\ (EXAM_QUESTIONS_COUNT <= answered -> PASSING_SCORE <= Exam.score exam ->
      outcome true ExamStatusChoices.completed)
  /\ (EXAM_QUESTIONS_COUNT <= answered -> Exam.score exam < PASSING_SCORE ->
      outcome false ExamStatusChoices.failed)
  /\ (answered = 20 -> Exam.score exam = 18 ->
      outcome true ExamStatusChoices.completed)
  /\ (answered = 20 -> Exam.score exam = 17 ->
      outcome false ExamStatusChoices.failed).
Proof.
  intros Hfind Hu Hst answered outcome.
  assert (Heval := finish_exam_eval now exam_id current_user db exam Hfind Hu Hst).
  fold answered in Heval.
  assert (Hlow : answered < EXAM_QUESTIONS_COUNT ->
                 finish_exam now exam_id current_user db
                 = (db, Raise (HTTPException 400
                          ("Вы ответили только на " ++ str answered
                           ++ " из 20 вопросов")))).
  { intros Hlt. rewrite Heval.
    destruct (Z.ltb_spec answered EXAM_QUESTIONS_COUNT); [reflexivity|lia]. }
  assert (Hhigh : forall passed status,
             EXAM_QUESTIONS_COUNT <= answered ->
             (Exam.score exam >=? PASSING_SCORE) = passed ->
             verdict exam = status -> outcome passed status).
  { intros passed status Hge Hp Hv. unfold outcome.
    destruct (Z.ltb_spec answered EXAM_QUESTIONS_COUNT) as [|_]; [lia|].
    eexists _, _, (set_finished (verdict exam) now exam).
    split; [exact Heval|].
    split; [now apply find_update_exam with exam|].
    simpl. repeat split; auto. }
  assert (Hpass : PASSING_SCORE <= Exam.score exam ->
                  (Exam.score exam >=? PASSING_SCORE) = true
                  /\ verdict exam = ExamStatusChoices.completed).
  { intros H. unfold verdict.
    destruct (Z.geb_spec (Exam.score exam) PASSING_SCORE); [auto|lia]. }
  assert (Hfail : Exam.score exam < PASSING_SCORE ->
                  (Exam.score exam >=? PASSING_SCORE) = false
                  /\ verdict exam = ExamStatusChoices.failed).
  { intros H. unfold verdict.
    destruct (Z.geb_spec (Exam.score exam) PASSING_SCORE); [lia|auto]. }
  unfold EXAM_QUESTIONS_COUNT, PASSING_SCORE in *.
  repeat split.
  - intros (db' & r & H). rewrite Heval in H.
    destruct (Z.ltb_spec answered 20); [discriminate|lia].
  - intros Hge. rewrite Heval.
    destruct (Z.ltb_spec answered 20); [lia|eauto].
  - exact Hlow.
  - intros E. rewrite Hlow by lia. now rewrite E.
  - intros Hge Hs. destruct (Hpass Hs). now apply Hhigh.
  - intros Hge Hs. destruct (Hfail Hs). now apply Hhigh.
  - intros Hn Hs. destruct Hpass; [lia|]. apply Hhigh; auto; lia.
  - intros Hn Hs. destruct Hfail; [lia|]. apply Hhigh; auto; lia.
Qed.

(** ** answer_question *)

Ltac case_find l :=
  match goal with
  | |- context [find ?p l] => destruct (find p l) eqn:?
  end.

Lemma find_exists {A : Type} (p : A -> bool) (l : list A) (x : A) :
  In x l -> p x = true -> exists y, find p l = Some y.
Proof.
  intros Hin Hp. destruct (find p l) as [y|] eqn:H; [eauto|].
  apply (find_none _ _ H) in Hin. congruence.
Qed.

Lemma answer_question_checks now exam_id answer_data u db exam :
  find (fun e => Exam.id e =? exam_id) (exam_table db) = Some exam ->
  Exam.user_id exam = User.id u ->
  Exam.status exam = ExamStatusChoices.in_progress ->
  answer_question now exam_id answer_data u db
  = match find (fun q => Question.id q
                         =? ExamAnswerRequestSchema.question_id answer_data)
               (question_table db) with
    | None => (db, Raise (HTTPException 404 "Вопрос не найден"))
    | Some _ =>
    match find (fun o => (AnswerOption.id o
                          =? ExamAnswerRequestSchema.option_id answer_data)
                         && (AnswerOption.question_id o
                             =? ExamAnswerRequestSchema.question_id answer_data))
               (answer_option_table db) with
    | None => (db, Raise (HTTPException 404
                 "Вариант ответа не найден или не принадлежит этому вопросу"))
    | Some option =>
    match find (fun a => (ExamAnswer.exam_id a =? exam_id)
                         && (ExamAnswer.question_id a
                             =? ExamAnswerRequestSchema.question_id answer_data))
               (exam_answer_table db) with
    | Some _ => (db, Raise (HTTPException 400 "Вы уже ответили на этот вопрос"))
    | None =>
        (update_exam (scored option exam)
           (with_exam_answers
              (exam_answer_table db
               ++ [recorded_answer now exam_id answer_data option db])%list db),
         Ok {| ExamAnswerResponseSchema.message := "Ответ сохранен";
               ExamAnswerResponseSchema.is_correct := AnswerOption.is_correct option;
               ExamAnswerResponseSchema.current_score :=
                 Exam.score (scored option exam) |})
    end end end.
Proof.
  intros Hfind Hu Hst. unfold answer_question.
  rewrite Hfind, Hu, Z.eqb_refl, Hst. reflexivity.
Qed.

(** The answers of an exam after an accepted answer to it. *)
Lemma exam_answers_recorded now exam_id answer_data option exam exam' db :
  Exam.id exam = exam_id -> Exam.id exam' = exam_id ->
  exam_answers
    (update_exam exam'
       (with_exam_answers
          (exam_answer_table db
           ++ [recorded_answer now exam_id answer_data option db])%list db))
    exam'
  = (exam_answers db exam
     ++ [recorded_answer now exam_id answer_data option db])%list.
Proof.
  intros Hid Hid'. unfold exam_answers. simpl.
  rewrite filter_app, Hid, Hid'. simpl. now rewrite Z.eqb_refl.
Qed.

(** C3.  The empty database holds at most one answer per exam and question,
    and every request keeps it so.  Once [answer_question] has accepted an
    answer to a question in an exam, a further call for the same exam and
    question, by the same user, with whatever option, raises and returns
    the database as it was, so the score and the recorded answers stay:
    with the option of the first call, or any other option of that
    question, it raises 400 "already answered"; with an option that is not
    one of the question's, the 404 of the option check that comes first. *)
Theorem answer_question_once_per_question :
  answer_unique empty_db
  /\ (forall req db, answer_unique db -> answer_unique (handle req db))
  /\ (forall now exam_id answer_data current_user db db' r,
        answer_question now exam_id answer_data current_user db = (db', Ok r) ->
        forall now' option_id,
          let again :=
            {| ExamAnswerRequestSchema.question_id :=
                 ExamAnswerRequestSchema.question_id answer_data;
               ExamAnswerRequestSchema.option_id := option_id |} in
          let belongs (o : AnswerOption) :=
            In o (answer_option_table db')
            /\ AnswerOption.id o = option_id
            /\ AnswerOption.question_id o
               = ExamAnswerRequestSchema.question_id answer_data in
          (exists e, answer_question now' exam_id again current_user db'
                     = (db', Raise e))
          /\ ((exists o, belongs o) ->
              answer_question now' exam_id again current_user db'
              = (db', Raise (HTTPException 400 "Вы уже ответили на этот вопрос")))
          /\ (option_id = ExamAnswerRequestSchema.option_id answer_data ->
              answer_question now' exam_id again current_user db'
              = (db', Raise (HTTPException 400 "Вы уже ответили на этот вопрос")))
          /\ (~ (exists o, belongs o) ->
              answer_question now' exam_id again current_user db'
              = (db', Raise (HTTPException 404
                   "Вариант ответа не найден или не принадлежит этому вопросу")))).
Proof.
  split; [constructor|].
  split; [intros req db; apply answer_unique_preserved with (deletes_catalog req),
                         handle_effect|].
  intros now exam_id answer_data u db db' r Hok now' option_id again belongs.
  apply answer_question_ok in Hok
    as (exam & question & option & Hexam & Hu & Hst & Hq & Ho & Hnone & -> & _).
  set (a := recorded_answer now exam_id answer_data option db).
  set (db' := update_exam _ _).
  assert (Hexam' : find (fun e => Exam.id e =? exam_id) (exam_table db')
                   = Some (scored option exam)).
  { apply (find_update_exam exam_id exam (scored option exam)
             (with_exam_answers (exam_answer_table db ++ [a])%list db));
      [exact Hexam|apply scored_id]. }
  assert (Heval := answer_question_checks now' exam_id again u db'
                     (scored option exam) Hexam').
  rewrite scored_user, scored_status in Heval. specialize (Heval Hu Hst).
  change (question_table db') with (question_table db) in Heval.
  change (answer_option_table db') with (answer_option_table db) in Heval.
  change (exam_answer_table db') with (exam_answer_table db ++ [a])%list in Heval.
  simpl ExamAnswerRequestSchema.question_id in Heval.
  simpl ExamAnswerRequestSchema.option_id in Heval.
  rewrite Hq in Heval.
  destruct (find_exists
              (fun b => (ExamAnswer.exam_id b =? exam_id)
                        && (ExamAnswer.question_id b
                            =? ExamAnswerRequestSchema.question_id answer_data))
              (exam_answer_table db ++ [a])%list a) as (b & Hb).
  { apply in_app_iff. right. now left. }
  { simpl. now rewrite !Z.eqb_refl. }
  rewrite Hb in Heval.
  assert (Hfound : (exists o, belongs o) ->
                   answer_question now' exam_id again u db'
                   = (db', Raise (HTTPException 400 "Вы уже ответили на этот вопрос"))).
  { intros (o & Hin & Hid & Hqid). rewrite Heval.
    destruct (find_exists
                (fun o => (AnswerOption.id o =? option_id)
                          && (AnswerOption.question_id o
                              =? ExamAnswerRequestSchema.question_id answer_data))
                (answer_option_table db) o) as (o' & ->); auto.
    now rewrite Hid, Hqid, !Z.eqb_refl. }
  repeat split.
  - rewrite Heval. case_find (answer_option_table db); eauto.
  - exact Hfound.
  - intros ->. apply Hfound. exists option.
    apply find_some in Ho as [Hin Hb']. apply andb_prop in Hb' as [H1 H2].
    apply Z.eqb_eq in H1, H2. repeat split; auto.
  - intros Hno. rewrite Heval.
    match goal with
    | |- context [find ?p (answer_option_table db)] =>
        destruct (find p (answer_option_table db)) as [o|] eqn:Hfo
    end; [|reflexivity].
    exfalso. apply Hno. exists o.
    apply find_some in Hfo as [Hin Hb']. apply andb_prop in Hb' as [H1 H2].
    apply Z.eqb_eq in H1, H2. repeat split; auto.
Qed.

(** ** Terminal exams *)

Lemma terminal_not_in_progress exam :
  terminal exam ->
  ExamStatusChoices.eqb (Exam.status exam) ExamStatusChoices.in_progress = false.
Proof. intros [-> | ->]; reflexivity. Qed.

(** The requests from an initial database, in order. *)
Definition run (reqs : list Request) (db : Database) : Database :=
  fold_left (fun db req => handle req db) reqs db.

(** The answers of a terminal exam under a request that deletes nothing. *)
Lemma terminal_answers_kept req db e :
  exam_pk db -> In e (exam_table db) -> terminal e ->
  deletes_catalog req = false ->
  exam_answers (handle req db) e = exam_answers db e.
Proof.
  intros Hpk He Ht Hd. assert (Heff := handle_effect req db).
  rewrite Hd in Heff.
  destruct Heff as [_ Ea _|q _ Ea _ _|ka kq Hfalse _ _ _|now u Hnone _ Ea _
                   |exam o a Hexam Hst Hnone Hc _ Ea _|now exam Hin Hst _ Ea _];
    unfold exam_answers; try (now rewrite Ea); [discriminate|].
  rewrite Ea, filter_app. simpl.
  apply find_exam_id in Hexam as [Hin Hid].
  destruct (Z.eqb_spec (ExamAnswer.exam_id a) (Exam.id e)) as [E|];
    [|apply app_nil_r].
  assert (e = exam) as -> by (eapply pk_injective; eauto; congruence).
  destruct Ht as [Ht|Ht]; congruence.
Qed.

(** C6, as the code has it.  The row of an exam whose status is [completed]
    or [failed] is final; its recorded answers are never added to, and are
    removed only together with their question.
    (1) [answer_question] and [finish_exam] on it raise whoever calls, and
    return the database untouched: score, status, answers and finish time
    stay; for the owner of the exam the exception is the 400 "exam already
    finished" of the status check (for another user, the 403 of the
    ownership check that comes first).
    (2) A successful [finish_exam] takes an exam in progress to [completed]
    when its score is at least [PASSING_SCORE] and to [failed] when it is
    below.
    (3) Whatever the request, a row of the exam table after it is a row
    from before it, or is in progress, or is the row of an exam that was in
    progress, finished with the status its score decides and the same
    score; and a terminal row is still there, unchanged, after any request
    and after any sequence of requests.
    (4) The answers recorded for a terminal exam are the same list after
    every request that is not a deletion from the catalog; after a deletion
    they are those of them whose question was not deleted, the questions
    deleted being questions of the catalog before and not after. *)
Theorem terminal_exam_is_final :
  (forall db exam_id exam,
      find (fun e => Exam.id e =? exam_id) (exam_table db) = Some exam ->
      terminal exam ->
      forall now current_user answer_data,
        (exists e, answer_question now exam_id answer_data current_user db
                   = (db, Raise e))
        /\ (exists e, finish_exam now exam_id current_user db = (db, Raise e))
        /\ (Exam.user_id exam = User.id current_user ->
            answer_question now exam_id answer_data current_user db
            = (db, Raise (HTTPException 400 "Экзамен уже завершен"))
            /\ finish_exam now exam_id current_user db
               = (db, Raise (HTTPException 400 "Экзамен уже завершен"))))
  /\ (forall now exam_id current_user db db' r,
         finish_exam now exam_id current_user db = (db', Ok r) ->
         exists exam finished,
           find (fun e => Exam.id e =? exam_id) (exam_table db) = Some exam
           /\ Exam.status exam = ExamStatusChoices.in_progress
           /\ find (fun e => Exam.id e =? exam_id) (exam_table db') = Some finished
           /\ (PASSING_SCORE <= Exam.score exam ->
               Exam.status finished = ExamStatusChoices.completed)
           /\ (Exam.score exam < PASSING_SCORE ->
               Exam.status finished = ExamStatusChoices.failed))
  /\ (forall req db e',
         In e' (exam_table (handle req db)) ->
         In e' (exam_table db)
         \/ Exam.status e' = ExamStatusChoices.in_progress
         \/ exists e, In e (exam_table db)
                      /\ Exam.id e' = Exam.id e
                      /\ Exam.status e = ExamStatusChoices.in_progress
                      /\ Exam.status e' = verdict e
                      /\ Exam.score e' = Exam.score e)
  /\ (forall req db e,
         exam_pk db -> In e (exam_table db) -> terminal e ->
         In e (exam_table (handle req db)))
  /\ (forall reqs db e,
         exam_pk db -> In e (exam_table db) -> terminal e ->
         In e (exam_table (run reqs db)))
  /\ (forall req db e,
         exam_pk db -> In e (exam_table db) -> terminal e ->
         (deletes_catalog req = false ->
          exam_answers (handle req db) e = exam_answers db e)
         /\ exists gone,
              exam_answers (handle req db) e
              = filter (fun a => kept gone (ExamAnswer.question_id a))
                       (exam_answers db e)
              /\ forall k, In k gone ->
                           In k (map Question.id (question_table db))
                           /\ ~ In k (map Question.id
                                        (question_table (handle req db)))).
Proof.
  split.
  { intros db exam_id exam Hfind Hterminal now u answer_data.
    assert (Hst := terminal_not_in_progress _ Hterminal).
    split; [|split; [|intros Hu; split]].
    - unfold answer_question. rewrite Hfind, Hst.
      destruct (negb _); simpl; eauto.
    - unfold finish_exam. rewrite Hfind, Hst.
      destruct (negb _); simpl; eauto.
    - unfold answer_question. now rewrite Hfind, Hu, Z.eqb_refl, Hst.
    - unfold finish_exam. now rewrite Hfind, Hu, Z.eqb_refl, Hst. }
  repeat split.
  - intros now exam_id u db db' r Hok.
    apply finish_exam_ok in Hok as (exam & Hexam & Hu & Hst & Hge & -> & _).
    exists exam, (set_finished (verdict exam) now exam).
    split; [auto|]. split; [auto|].
    split; [now apply find_update_exam with exam|].
    unfold verdict. simpl.
    destruct (Z.geb_spec (Exam.score exam) PASSING_SCORE); split; auto; lia.
  - intros req db e' He'.
    destruct (handle_effect req db)
      as [E _ _|q E _ _ _|ka kq _ E _ _|now u Hnone E _ _
         |exam o a Hexam Hst Hnone Hc E _ _|now exam Hin Hst E _ _];
      rewrite E in He'; auto.
    + apply in_app_iff in He' as [He'|[<-|[]]]; auto.
    + apply In_replace_exam in He' as [[-> _]|[He' _]]; [|auto].
      right. left. now rewrite scored_status.
    + apply In_replace_exam in He' as [[-> _]|[He' _]]; [|auto].
      right. right. exists exam. simpl. auto.
  - intros req db e Hpk He Ht.
    apply (terminal_row_preserved _ db _ e (handle_effect req db)); auto.
  - intros reqs. induction reqs as [|req reqs IH]; intros db e Hpk He Ht;
      simpl; [auto|].
    apply IH; auto.
    + apply (exam_pk_preserved _ db _ (handle_effect req db)); auto.
    + apply (terminal_row_preserved _ db _ e (handle_effect req db)); auto.
  - intros Hd. now apply terminal_answers_kept.
  - destruct (deletes_catalog req) eqn:Hd.
    + destruct (handle_deletion req db Hd) as (gone & _ & Ha & Hq & Hgone).
      exists gone. split.
      * unfold exam_answers. rewrite Ha, !filter_filter.
        apply filter_ext. intros a. apply Bool.andb_comm.
      * intros k Hk. split; [now apply Hgone|]. rewrite Hq. intros Hin.
        apply in_map_iff in Hin as (q & E & Hq').
        apply filter_In in Hq' as [_ Hkept]. apply kept_In in Hkept.
        apply Hkept. now rewrite E.
    + exists []. rewrite kept_none. split; [|intros k []].
      now apply terminal_answers_kept.
Qed.

(** ** start_exam *)

Lemma invariants_preserved req db :
  exam_pk db -> one_in_progress db ->
  exam_pk (handle req db) /\ one_in_progress (handle req db).
Proof.
  intros Hpk Hone. split.
  - apply (exam_pk_preserved _ db _ (handle_effect req db)); auto.
  - apply (one_in_progress_preserved _ db _ (handle_effect req db)); auto.
Qed.

Lemma invariants_run reqs db :
  exam_pk db -> one_in_progress db ->
  exam_pk (run reqs db) /\ one_in_progress (run reqs db).
Proof.
  revert db. induction reqs as [|req reqs IH]; intros db Hpk Hone; simpl; [auto|].
  destruct (invariants_preserved req db Hpk Hone). now apply IH.
Qed.

(** C2.  At most one exam of a user is in progress: so it is in the empty
    database, every request keeps it so (together with the primary key of
    the exam table), hence so it is after any sequence of requests.
    [start_exam] for a user who has an exam in progress raises 400 "you
    already have an active exam" and returns the database as it was: no exam
    is created. *)
Theorem one_exam_in_progress_per_user :
  (exam_pk empty_db /\ one_in_progress empty_db)
  /\ (forall req db,
         exam_pk db -> one_in_progress db ->
         exam_pk (handle req db) /\ one_in_progress (handle req db))
  /\ (forall reqs db,
         exam_pk db -> one_in_progress db ->
         exam_pk (run reqs db) /\ one_in_progress (run reqs db))
  /\ (forall reqs, one_in_progress (run reqs empty_db))
  /\ (forall rng now current_user db exam,
         In exam (exam_table db) ->
         Exam.user_id exam = User.id current_user ->
         Exam.status exam = ExamStatusChoices.in_progress ->
         start_exam rng now current_user db
         = (db, Raise (HTTPException 400
              "У вас уже есть активный экзамен. Завершите его перед началом нового."))).
Proof.
  assert (exam_pk empty_db /\ one_in_progress empty_db) as Hempty.
  { split; [constructor|]. intros uid. simpl. lia. }
  split; [exact Hempty|].
  split; [exact invariants_preserved|].
  split; [exact invariants_run|].
  split; [intros reqs; now apply invariants_run|].
  intros rng now u db exam Hin Hu Hst. unfold start_exam.
  destruct (find_exists
              (fun e => (Exam.user_id e =? User.id u)
                        && ExamStatusChoices.eqb (Exam.status e)
                             ExamStatusChoices.in_progress)
              (exam_table db) exam Hin) as (e & ->); [|reflexivity].
  now rewrite Hu, Hst, Z.eqb_refl.
Qed.

(** The catalog with the correctness flags of its options rewritten. *)
Definition with_flags (flag : AnswerOption -> bool) (db : Database) : Database :=
  with_answer_options
    (map (fun o => {| AnswerOption.id := AnswerOption.id o;
                      AnswerOption.question_id := AnswerOption.question_id o;
                      AnswerOption.text := AnswerOption.text o;
                      AnswerOption.is_correct := flag o |})
         (answer_option_table db))
    db.

Lemma question_options_with_flags flag db exams question :
  map (fun opt => {| QuestionOptionSchema.id := str (AnswerOption.id opt);
                     QuestionOptionSchema.text := AnswerOption.text opt |})
      (question_options (with_exams exams (with_flags flag db)) question)
  = map (fun opt => {| QuestionOptionSchema.id := str (AnswerOption.id opt);
                       QuestionOptionSchema.text := AnswerOption.text opt |})
        (question_options (with_exams exams db) question).
Proof.
  unfold question_options. simpl.
  induction (answer_option_table db) as [|o l IH]; simpl; [reflexivity|].
  destruct (AnswerOption.question_id o =? Question.id question); simpl;
    now rewrite IH.
Qed.

(** C7.  For a user with no exam in progress and a question table keyed by
    [id]: when the catalog holds at least [EXAM_QUESTIONS_COUNT] (20)
    questions, [start_exam] succeeds and returns exactly 20 questions, with
    pairwise distinct ids, each the id of a question of the catalog; the
    response carries no correctness flag (its options are an id and a
    text), and is the same whatever the flags of the catalog are.  When the
    catalog holds fewer than 20 questions, [start_exam] raises 400 "not
    enough questions" and returns the database as it was: no exam is
    created. *)
Theorem start_exam_samples_distinct_questions rng now current_user db :
  question_pk db ->
  find (in_progress_of (User.id current_user)) (exam_table db) = None ->
  (EXAM_QUESTIONS_COUNT <= len (question_table db) ->
   exists db' r,
     start_exam rng now current_user db = (db', Ok r)
     /\ len (ExamStartResponseSchema.questions r) = 20
     /\ NoDup (map QuestionSchema.id (ExamStartResponseSchema.questions r))
     /\ (forall q, In q (ExamStartResponseSchema.questions r) ->
                   exists question, In question (question_table db)
                     /\ QuestionSchema.id q = str (Question.id question))
     /\ (forall flag,
            snd (start_exam rng now current_user (with_flags flag db)) = Ok r))
  /\ (len (question_table db) < EXAM_QUESTIONS_COUNT ->
      start_exam rng now current_user db
      = (db, Raise (HTTPException 400
           "Недостаточно вопросов для экзамена. Требуется минимум 20 вопросов."))).
Proof.
  intros Hpk Hnone. unfold start_exam.
  change (fun e : Exam.t => (Exam.user_id e =? User.id current_user)
            && ExamStatusChoices.eqb (Exam.status e) ExamStatusChoices.in_progress)
    with (in_progress_of (User.id current_user)).
  split.
  - intros Hge. rewrite Hnone.
    destruct (Z.ltb_spec (len (question_table db)) EXAM_QUESTIONS_COUNT); [lia|].
    rewrite sample_never_short by auto.
    assert (Z.to_nat EXAM_QUESTIONS_COUNT <= List.length (question_table db))%nat
      as Hk by (unfold len in Hge; lia).
    destruct (sample_pool_permutation rng _ 0 _ Hk) as [Hlen _].
    assert (Hnd := sample_pool_NoDup Question.id rng _ _ Hk Hpk).
    assert (Hin := fun x => sample_pool_In rng _ (question_table db) x Hk).
    set (selected := sample_pool rng 0 _ _) in *.
    eexists _, _. split; [reflexivity|].
    cbn [ExamStartResponseSchema.questions].
    split; [|split; [|split]].
    + unfold len. rewrite length_map, Hlen. reflexivity.
    + rewrite map_map. cbn [QuestionSchema.id].
      rewrite <- (map_map Question.id str).
      now apply NoDup_map_str.
    + intros q Hq. apply in_map_iff in Hq as (question & <- & Hq).
      exists question. split; [now apply Hin|reflexivity].
    + intros flag. unfold start_exam.
      change (exam_table (with_flags flag db)) with (exam_table db).
      change (question_table (with_flags flag db)) with (question_table db).
      change (fun e : Exam.t => (Exam.user_id e =? User.id current_user)
                && ExamStatusChoices.eqb (Exam.status e)
                     ExamStatusChoices.in_progress)
        with (in_progress_of (User.id current_user)).
      rewrite Hnone.
      destruct (Z.ltb_spec (len (question_table db)) EXAM_QUESTIONS_COUNT); [lia|].
      rewrite sample_never_short by auto. fold selected.
      cbn [snd]. do 2 f_equal.
      apply map_ext. intros question. f_equal.
      apply (question_options_with_flags flag db).
  - intros Hlt. rewrite Hnone.
    destruct (Z.ltb_spec (len (question_table db)) EXAM_QUESTIONS_COUNT);
      [reflexivity|lia].
Qed.

(** ** The score and the recorded answers *)

Lemma find_snoc_fresh {A : Type} (p : A -> bool) (l : list A) (x : A) :
  (forall y, In y l -> p y = false) -> p x = true ->
  find p (l ++ [x]) = Some x.
Proof.
  intros Hl Hx. induction l as [|a l IH]; simpl.
  - now rewrite Hx.
  - rewrite (Hl a) by now left. apply IH. intros y Hy. apply Hl. now right.
Qed.

Lemma filter_none {A : Type} (p : A -> bool) (l : list A) :
  (forall y, In y l -> p y = false) -> filter p l = [].
Proof.
  intros Hl. induction l as [|a l IH]; simpl; [reflexivity|].
  rewrite (Hl a) by now left. apply IH. intros y Hy. apply Hl. now right.
Qed.

Lemma questions_of_category (category_id k : Z) (l : list Question) :
  existsb (Z.eqb k)
    (map Question.id (filter (fun q => Question.category_id q =? category_id) l))
  = existsb (fun q => (Question.category_id q =? category_id)
                      && (Question.id q =? k)) l.
Proof.
  induction l as [|q l IH]; simpl; [reflexivity|].
  destruct (Question.category_id q =? category_id); simpl; [|exact IH].
  rewrite IH. f_equal. apply Z.eqb_sym.
Qed.

(** C8, as the code has it.  The empty database has every score equal to
    the number of recorded correct answers of its exam.  A request keeps it
    so when it is not a deletion from the catalog, and also when it is one
    that deletes no question an answer was given to (given that recorded
    answers point to existing exams, which every request preserves).  Under
    every request the score is at least that number.  A successful
    [delete_question] leaves the exam table, the scores with it, and deletes
    the answers given to the question; a successful [delete_category] does
    so for every question of the category.  [start_exam] creates the exam
    with score 0 and no recorded answer.  An accepted [answer_question]
    appends one answer, marked with the correctness of the selected option,
    to the answers of the exam, adds 1 to the score if and only if that
    option is correct, and returns that correctness and the new score. *)
Theorem score_counts_correct_answers :
  (answer_fk empty_db /\ score_counts empty_db)
  /\ (forall req db,
         deletes_catalog req = false -> answer_fk db -> score_counts db ->
         answer_fk (handle req db) /\ score_counts (handle req db))
  /\ (forall req db,
         answer_fk db -> score_counts db ->
         (forall a, In a (exam_answer_table db) ->
                    In (ExamAnswer.question_id a)
                       (map Question.id (question_table db)) ->
                    In (ExamAnswer.question_id a)
                       (map Question.id (question_table (handle req db)))) ->
         answer_fk (handle req db) /\ score_counts (handle req db))
  /\ (forall req db,
         answer_fk db -> score_bounds db ->
         answer_fk (handle req db) /\ score_bounds (handle req db))
  /\ (forall question_id current_user db db' r,
         delete_question question_id current_user db = (db', Ok r) ->
         exam_table db' = exam_table db
         /\ exam_answer_table db'
            = filter (fun a => negb (ExamAnswer.question_id a =? question_id))
                     (exam_answer_table db))
  /\ (forall category_id current_user db db' r,
         delete_category category_id current_user db = (db', Ok r) ->
         exam_table db' = exam_table db
         /\ exam_answer_table db'
            = filter (fun a =>
                        negb (existsb
                                (fun q => (Question.category_id q =? category_id)
                                          && (Question.id q
                                              =? ExamAnswer.question_id a))
                                (question_table db)))
                     (exam_answer_table db))
  /\ (forall rng now current_user db db' r,
         answer_fk db ->
         start_exam rng now current_user db = (db', Ok r) ->
         exists exam,
           find (fun e => Exam.id e =? ExamStartResponseSchema.exam_id r)
                (exam_table db') = Some exam
           /\ Exam.score exam = 0
           /\ Exam.status exam = ExamStatusChoices.in_progress
           /\ exam_answers db' exam = [])
  /\ (forall now exam_id answer_data current_user db db' r,
         answer_question now exam_id answer_data current_user db = (db', Ok r) ->
         exists exam exam' option a,
           find (fun e => Exam.id e =? exam_id) (exam_table db) = Some exam
           /\ find (fun e => Exam.id e =? exam_id) (exam_table db') = Some exam'
           /\ find (fun o => (AnswerOption.id o
                              =? ExamAnswerRequestSchema.option_id answer_data)
                             && (AnswerOption.question_id o
                                 =? ExamAnswerRequestSchema.question_id answer_data))
                   (answer_option_table db) = Some option
           /\ exam_answers db' exam' = (exam_answers db exam ++ [a])%list
           /\ ExamAnswer.question_id a
              = ExamAnswerRequestSchema.question_id answer_data
           /\ ExamAnswer.selected_option_id a
              = ExamAnswerRequestSchema.option_id answer_data
           /\ ExamAnswer.is_correct a = AnswerOption.is_correct option
           /\ Exam.score exam'
              = Exam.score exam + (if AnswerOption.is_correct option then 1 else 0)
           /\ ExamAnswerResponseSchema.is_correct r = AnswerOption.is_correct option
           /\ ExamAnswerResponseSchema.current_score r = Exam.score exam').
Proof.
  split; [split; [intros a []|intros e []]|].
  split.
  { intros req db Hd Hfk Hs. assert (Heff := handle_effect req db).
    rewrite Hd in Heff. split.
    - now apply (answer_fk_preserved _ db _ Heff).
    - apply (score_rel_preserved eq db _); auto. intros; lia. }
  split.
  { intros req db Hfk Hs Hanswered. assert (Heff := handle_effect req db).
    split; [now apply (answer_fk_preserved _ db _ Heff)|].
    destruct (deletes_catalog req) eqn:Hd.
    - destruct (handle_deletion_of_unanswered req db Hd Hanswered) as [E Ea].
      intros e. rewrite E. intros He. specialize (Hs e He).
      unfold correct_answers, exam_answers in *. now rewrite Ea.
    - apply (score_rel_preserved eq db _); auto. intros; lia. }
  split.
  { intros req db Hfk Hs. assert (Heff := handle_effect req db). split.
    - now apply (answer_fk_preserved _ db _ Heff).
    - destruct (deletes_catalog req).
      + now apply score_bounds_deletion with db.
      + apply (score_rel_preserved Z.le db _); auto; [lia|intros; lia]. }
  split.
  { intros question_id u db db' r Hok.
    apply delete_question_ok in Hok as [_ ->]. split; reflexivity. }
  split.
  { intros category_id u db db' r Hok.
    apply delete_category_ok in Hok as ->. unfold cascade_delete_category.
    set (qs := filter (fun q => Question.category_id q =? category_id)
                      (question_table db)).
    destruct (cascade_delete_questions_kept qs db) as (H1 & H2 & _).
    simpl. split; [exact H1|]. rewrite H2. apply filter_ext. intros a.
    unfold kept. f_equal. apply questions_of_category. }
  split.
  { intros rng now u db db' r Hfk Hok.
    apply start_exam_ok in Hok as (_ & _ & -> & ->).
    exists (started_exam now u db). simpl.
    assert (forall y, In y (exam_table db) ->
                      (Exam.id y =? next_id (map Exam.id (exam_table db))) = false)
      as Hfresh.
    { intros y Hy. apply Z.eqb_neq. intros E.
      apply (next_id_fresh (map Exam.id (exam_table db))).
      rewrite <- E. now apply in_map. }
    split; [apply find_snoc_fresh; [exact Hfresh|apply Z.eqb_refl]|].
    repeat split. unfold exam_answers. simpl. apply filter_none.
    intros a Ha. apply Z.eqb_neq. intros E. apply Hfk in Ha.
    rewrite E in Ha. now apply next_id_fresh in Ha. }
  intros now exam_id answer_data u db db' r Hok.
  apply answer_question_ok in Hok
    as (exam & question & option & Hexam & Hu & Hst & Hq & Ho & Hnone & -> & ->).
  exists exam, (scored option exam), option,
    (recorded_answer now exam_id answer_data option db).
  destruct (find_exam_id _ _ _ Hexam) as [_ Hid].
  split; [exact Hexam|].
  split; [apply find_update_exam with exam; [exact Hexam|apply scored_id]|].
  split; [exact Ho|].
  split; [apply exam_answers_recorded; [exact Hid|now rewrite scored_id]|].
  simpl. repeat split. apply scored_score.
Qed.

(** C10.  [answer_question] checks a question against the catalog only.
    For an exam of the calling user that is in progress, any question of
    the catalog, an option of that question, and no answer recorded yet for
    the exam and the question, the call succeeds and the exam has one
    recorded answer more; nothing bounds the number of answers.  What
    [start_exam] sampled is not kept: the database it leaves is the same
    whatever the draws of the generator. *)
Theorem answer_question_accepts_any_catalog_question :
  (forall now exam_id answer_data current_user db exam question option,
      find (fun e => Exam.id e =? exam_id) (exam_table db) = Some exam ->
      Exam.user_id exam = User.id current_user ->
      Exam.status exam = ExamStatusChoices.in_progress ->
      In question (question_table db) ->
      Question.id question = ExamAnswerRequestSchema.question_id answer_data ->
      In option (answer_option_table db) ->
      AnswerOption.id option = ExamAnswerRequestSchema.option_id answer_data ->
      AnswerOption.question_id option = Question.id question ->
      (forall a, In a (exam_answers db exam) ->
                 ExamAnswer.question_id a <> Question.id question) ->
      exists db' r exam',
        answer_question now exam_id answer_data current_user db = (db', Ok r)
        /\ find (fun e => Exam.id e =? exam_id) (exam_table db') = Some exam'
        /\ Exam.status exam' = ExamStatusChoices.in_progress
        /\ len (exam_answers db' exam') = len (exam_answers db exam) + 1)
  /\ (forall rng rng' now current_user db,
         fst (start_exam rng now current_user db)
         = fst (start_exam rng' now current_user db)).
Proof.
  split.
  - intros now exam_id answer_data u db exam question option
           Hexam Hu Hst Hq Hqid Ho Hoid Hoq Hfresh.
    rewrite (answer_question_checks now exam_id answer_data u db exam Hexam Hu Hst).
    destruct (find_exam_id _ _ _ Hexam) as [_ Hid].
    destruct (find_exists
                (fun q => Question.id q
                          =? ExamAnswerRequestSchema.question_id answer_data)
                (question_table db) question Hq) as (q' & ->);
      [now apply Z.eqb_eq|].
    destruct (find_exists
                (fun o => (AnswerOption.id o
                           =? ExamAnswerRequestSchema.option_id answer_data)
                          && (AnswerOption.question_id o
                              =? ExamAnswerRequestSchema.question_id answer_data))
                (answer_option_table db) option Ho) as (o' & ->);
      [rewrite Hoid, Hoq, Hqid, !Z.eqb_refl; reflexivity|].
    match goal with
    | |- context [find ?p (exam_answer_table db)] =>
        destruct (find p (exam_answer_table db)) as [a|] eqn:Ha
    end.
    + exfalso. apply find_some in Ha as [Hin Hb].
      apply andb_prop in Hb as [H1 H2]. apply Z.eqb_eq in H1, H2.
      apply (Hfresh a); [|congruence].
      unfold exam_answers. apply filter_In. split; [auto|].
      apply Z.eqb_eq. congruence.
    + eexists _, _, (scored o' exam). split; [reflexivity|].
      split; [apply find_update_exam with exam; [exact Hexam|apply scored_id]|].
      split; [now rewrite scored_status|].
      rewrite (exam_answers_recorded now exam_id answer_data o' exam);
        [|exact Hid|now rewrite scored_id].
      unfold len. rewrite length_app. simpl. lia.
  - intros rng rng' now u db.
    destruct (start_exam rng now u db) as [db1 [r1|e1]] eqn:H1;
      destruct (start_exam rng' now u db) as [db2 [r2|e2]] eqn:H2; simpl.
    + apply start_exam_ok in H1 as (_ & _ & -> & _).
      now apply start_exam_ok in H2 as (_ & _ & -> & _).
    + apply start_exam_ok in H1 as (Hn & Hge & _ & _).
      exfalso. revert H2. unfold start_exam.
      change (fun e : Exam.t => (Exam.user_id e =? User.id u)
                && ExamStatusChoices.eqb (Exam.status e)
                     ExamStatusChoices.in_progress)
        with (in_progress_of (User.id u)).
      rewrite Hn.
      destruct (Z.ltb_spec (len (question_table db)) EXAM_QUESTIONS_COUNT); [lia|].
      rewrite sample_never_short by auto. discriminate.
    + apply start_exam_ok in H2 as (Hn & Hge & _ & _).
      exfalso. revert H1. unfold start_exam.
      change (fun e : Exam.t => (Exam.user_id e =? User.id u)
                && ExamStatusChoices.eqb (Exam.status e)
                     ExamStatusChoices.in_progress)
        with (in_progress_of (User.id u)).
      rewrite Hn.
      destruct (Z.ltb_spec (len (question_table db)) EXAM_QUESTIONS_COUNT); [lia|].
      rewrite sample_never_short by auto. discriminate.
    + apply start_exam_raises in H1, H2. congruence.
Qed.

(** ** Credentials *)

Lemma find_absent {A : Type} (p : A -> bool) (l : list A) :
  (forall y, In y l -> p y = false) -> find p l = None.
Proof.
  intros Hl. induction l as [|a l IH]; simpl; [reflexivity|].
  rewrite (Hl a) by now left. apply IH. intros y Hy. apply Hl. now right.
Qed.

Lemma check_secret_argon2 secret :
  check_secret Scheme.argon2 secret
  = if MAX_PASSWORD_SIZE <? str_len secret then Raise PasswordSizeError else Ok tt.
Proof.
  unfold check_secret, validate_secret.
  now destruct (MAX_PASSWORD_SIZE <? str_len secret).
Qed.

Lemma str_len_bytes_len s : str_len s <= bytes_len s.
Proof.
  unfold bytes_len. induction s as [|c s IH]; simpl String.length; simpl str_len;
    [lia|].
  destruct (continues c); lia.
Qed.

Lemma check_secret_bcrypt secret :
  check_secret Scheme.bcrypt secret
  = if MAX_PASSWORD_SIZE <? bytes_len secret then Raise PasswordSizeError
    else if has_null secret then Raise PasswordValueError else Ok tt.
Proof.
  unfold check_secret, validate_secret.
  assert (H := str_len_bytes_len secret).
  destruct (Z.ltb_spec MAX_PASSWORD_SIZE (str_len secret));
    destruct (Z.ltb_spec MAX_PASSWORD_SIZE (bytes_len secret));
    try reflexivity; lia.
Qed.

Lemma hash_password_sized salt password :
  str_len password <= MAX_PASSWORD_SIZE ->
  hash_password salt password
  = Ok {| PasswordHash.ident := Scheme.argon2; PasswordHash.salt := salt;
          PasswordHash.checksum := digest Scheme.argon2 salt password |}.
Proof.
  intros Hlen. unfold hash_password, CryptContext_hash. simpl schemes. cbv iota.
  rewrite check_secret_argon2.
  destruct (Z.ltb_spec MAX_PASSWORD_SIZE (str_len password)); [lia|reflexivity].
Qed.

Lemma hash_password_oversized salt password :
  MAX_PASSWORD_SIZE < str_len password ->
  hash_password salt password = Raise PasswordSizeError.
Proof.
  intros Hlen. unfold hash_password, CryptContext_hash. simpl schemes. cbv iota.
  rewrite check_secret_argon2.
  destruct (Z.ltb_spec MAX_PASSWORD_SIZE (str_len password)); [reflexivity|lia].
Qed.

Lemma verify_password_argon2 secret salt checksum :
  verify_password secret
    {| PasswordHash.ident := Scheme.argon2; PasswordHash.salt := salt;
       PasswordHash.checksum := checksum |}
  = if MAX_PASSWORD_SIZE <? str_len secret then Raise PasswordSizeError
    else Ok (String.eqb (digest Scheme.argon2 salt secret) checksum).
Proof.
  unfold verify_password, CryptContext_verify. simpl.
  rewrite check_secret_argon2.
  now destruct (MAX_PASSWORD_SIZE <? str_len secret).
Qed.

Lemma verify_own_hash ctx salt secret h :
  CryptContext_hash ctx salt secret = Ok h ->
  CryptContext_verify ctx secret h = Ok true.
Proof.
  unfold CryptContext_hash, CryptContext_verify.
  destruct (schemes ctx) as [|s l]; [discriminate|].
  destruct (check_secret s secret) eqn:Hcheck; [|discriminate].
  intros H. injection H as <-. simpl.
  replace (Scheme.eqb s s) with true by (now destruct s). simpl.
  now rewrite Hcheck, String.eqb_refl.
Qed.

Lemma login_verifies now login_data db user :
  find (fun u => String.eqb (User.email u) (UserLoginSchema.email login_data))
       (user_table db) = Some user ->
  (verify_password (UserLoginSchema.password login_data) (User.password user)
   = Ok false ->
   login now login_data db
   = (db, Raise (HTTPException 401 "Неверный email или пароль")))
  /\ (forall e,
        verify_password (UserLoginSchema.password login_data) (User.password user)
        = Raise e ->
        login now login_data db = (db, Raise e)).
Proof.
  intros Hfind. unfold login. rewrite Hfind.
  split; [intros ->|intros e ->]; reflexivity.
Qed.

(** C4, as the code has it.  For a request whose email and username no user
    holds yet and whose password has at most [MAX_PASSWORD_SIZE] characters,
    [register] succeeds, and on the database it leaves [login] with the same
    email and password succeeds at any time, returning a bearer pair and
    storing the refresh token.  [login] with that email and a password of
    at most [MAX_PASSWORD_SIZE] characters whose argon2 checksum under the
    salt of the registration differs from the stored one raises 401 "wrong
    email or password" and returns the database as it was; so does every
    wrong password of that size, when no two secrets share a checksum under
    that salt.  Beyond [MAX_PASSWORD_SIZE] characters passlib refuses the
    secret: [login] raises [PasswordSizeError], not 401, and [register]
    raises it and stores no user. *)
Theorem register_then_login salt now user_data db :
  (forall u, In u (user_table db) ->
             User.email u <> UserCreateSchema.email user_data) ->
  (forall u, In u (user_table db) ->
             User.username u <> UserCreateSchema.username user_data) ->
  (str_len (UserCreateSchema.password user_data) <= MAX_PASSWORD_SIZE ->
   exists db1 r,
     register salt now user_data db = (db1, Ok r)
     /\ UserRegisterResponseSchema.email r = UserCreateSchema.email user_data
     /\ UserRegisterResponseSchema.username r = UserCreateSchema.username user_data
     /\ (forall now',
            exists db2 tokens,
              login now'
                {| UserLoginSchema.email := UserCreateSchema.email user_data;
                   UserLoginSchema.password := UserCreateSchema.password user_data |}
                db1 = (db2, Ok tokens)
              /\ TokenSchema.token_type tokens = "Bearer"
              /\ exists t, In t (refresh_token_table db2)
                           /\ RefreshToken.token t = TokenSchema.refresh_token tokens
                           /\ RefreshToken.user_id t = UserRegisterResponseSchema.id r)
     /\ (forall now' wrong,
            str_len wrong <= MAX_PASSWORD_SIZE ->
            digest Scheme.argon2 salt wrong
            <> digest Scheme.argon2 salt (UserCreateSchema.password user_data) ->
            login now'
              {| UserLoginSchema.email := UserCreateSchema.email user_data;
                 UserLoginSchema.password := wrong |}
              db1
            = (db1, Raise (HTTPException 401 "Неверный email или пароль")))
     /\ ((forall secret,
             digest Scheme.argon2 salt secret
             = digest Scheme.argon2 salt (UserCreateSchema.password user_data) ->
             secret = UserCreateSchema.password user_data) ->
         forall now' wrong,
           str_len wrong <= MAX_PASSWORD_SIZE ->
           wrong <> UserCreateSchema.password user_data ->
           login now'
             {| UserLoginSchema.email := UserCreateSchema.email user_data;
                UserLoginSchema.password := wrong |}
             db1
           = (db1, Raise (HTTPException 401 "Неверный email или пароль")))
     /\ (forall now' wrong,
            MAX_PASSWORD_SIZE < str_len wrong ->
            login now'
              {| UserLoginSchema.email := UserCreateSchema.email user_data;
                 UserLoginSchema.password := wrong |}
              db1
            = (db1, Raise PasswordSizeError)))
  /\ (MAX_PASSWORD_SIZE < str_len (UserCreateSchema.password user_data) ->
      register salt now user_data db = (db, Raise PasswordSizeError)).
Proof.
  intros Hemail Hname.
  split.
  2:{ intros Hlong. unfold register.
      rewrite find_absent
        by (intros u Hu; apply String.eqb_neq; now apply Hemail).
      rewrite find_absent
        by (intros u Hu; apply String.eqb_neq; now apply Hname).
      now rewrite hash_password_oversized. }
  intros Hlen. unfold register.
  rewrite find_absent
    by (intros u Hu; apply String.eqb_neq; now apply Hemail).
  rewrite find_absent
    by (intros u Hu; apply String.eqb_neq; now apply Hname).
  rewrite hash_password_sized by exact Hlen.
  simpl. eexists _, _. split; [reflexivity|]. simpl.
  split; [reflexivity|]. split; [reflexivity|].
  set (user := {| User.id := next_id (map User.id (user_table db));
                  User.email := UserCreateSchema.email user_data |}).
  assert (Hfind : find (fun u => String.eqb (User.email u)
                                   (UserCreateSchema.email user_data))
                       (user_table db ++ [user])%list = Some user).
  { apply find_snoc_fresh; [|apply String.eqb_refl].
    intros u Hu. apply String.eqb_neq. now apply Hemail. }
  assert (Hlogin := fun now' secret =>
            login_verifies now'
              {| UserLoginSchema.email := UserCreateSchema.email user_data;
                 UserLoginSchema.password := secret |}
              (with_users (user_table db ++ [user])%list db) user Hfind).
  cbn [UserLoginSchema.password] in Hlogin.
  assert (Hwrong : forall now' wrong,
             str_len wrong <= MAX_PASSWORD_SIZE ->
             digest Scheme.argon2 salt wrong
             <> digest Scheme.argon2 salt (UserCreateSchema.password user_data) ->
             login now'
               {| UserLoginSchema.email := UserCreateSchema.email user_data;
                  UserLoginSchema.password := wrong |}
               (with_users (user_table db ++ [user])%list db)
             = (with_users (user_table db ++ [user])%list db,
                Raise (HTTPException 401 "Неверный email или пароль"))).
  { intros now' wrong Hsize Hne. apply (proj1 (Hlogin now' wrong)).
    subst user. simpl User.password.
    rewrite verify_password_argon2.
    destruct (Z.ltb_spec MAX_PASSWORD_SIZE (str_len wrong)); [lia|].
    now destruct (String.eqb_spec
                    (digest Scheme.argon2 salt wrong)
                    (digest Scheme.argon2 salt
                       (UserCreateSchema.password user_data))). }
  split; [|split; [|split]].
  - intros now'. unfold login. simpl. rewrite Hfind.
    cbn [UserLoginSchema.password]. subst user. simpl User.password.
    rewrite verify_password_argon2.
    destruct (Z.ltb_spec MAX_PASSWORD_SIZE
                (str_len (UserCreateSchema.password user_data))); [lia|].
    rewrite String.eqb_refl.
    eexists _, _. split; [reflexivity|]. simpl. split; [reflexivity|].
    eexists. split; [apply in_app_iff; right; left; reflexivity|].
    simpl. auto.
  - exact Hwrong.
  - intros Hinj now' wrong Hsize Hne. apply Hwrong; [exact Hsize|].
    intros E. now apply Hinj in E.
  - intros now' wrong Hlong. apply (proj2 (Hlogin now' wrong)).
    subst user. simpl User.password.
    rewrite verify_password_argon2.
    destruct (Z.ltb_spec MAX_PASSWORD_SIZE (str_len wrong)); [reflexivity|lia].
Qed.

(** *** logout and refresh *)

Lemma login_ok now login_data db db' tokens :
  login now login_data db = (db', Ok tokens) ->
  exists user,
    find (fun u => String.eqb (User.email u) (UserLoginSchema.email login_data))
         (user_table db) = Some user
    /\ verify_password (UserLoginSchema.password login_data) (User.password user)
       = Ok true
    /\ TokenSchema.refresh_token tokens
       = create_refresh_token now
           {| Claims.sub := Some (str (User.id user)); Claims.email := None;
              Claims.exp := None; Claims.type := None |}
    /\ db' = with_refresh_tokens
               (refresh_token_table db
                ++ [{| RefreshToken.id :=
                         next_id (map RefreshToken.id (refresh_token_table db));
                       RefreshToken.user_id := User.id user;
                       RefreshToken.token := TokenSchema.refresh_token tokens;
                       RefreshToken.created_date := now |}])%list db.
Proof.
  unfold login.
  destruct (find _ (user_table db)) as [user|] eqn:Hfind; [|discriminate].
  destruct (verify_password _ _) as [[|]|] eqn:Hverify; try discriminate.
  intros H. injection H as <- <-. exists user. simpl. repeat split; auto.
Qed.

Lemma find_first_match {A : Type} (p : A -> bool) (l rest : list A) (x : A) :
  p x = true ->
  exists y, find p (l ++ x :: rest) = Some y /\ In y (l ++ [x]) /\ p y = true.
Proof.
  intros Hx. induction l as [|a l IH]; simpl.
  - rewrite Hx. eauto.
  - destruct (p a) eqn:Ha; [eauto|].
    destruct IH as (y & -> & Hy & Hp). eauto.
Qed.

(** [logout] answers "Logout success" whatever it finds, and changes
    nothing when no row holds the token: it is idempotent. *)
Lemma logout_idempotent data db :
  snd (logout data db) = Ok {| LogoutResponseSchema.message := "Logout success" |}
  /\ ((forall t, In t (refresh_token_table db) ->
                 RefreshToken.token t
                 <> RefreshTokenRequestSchema.refresh_token data) ->
      logout data db
      = (db, Ok {| LogoutResponseSchema.message := "Logout success" |})).
Proof.
  split; [reflexivity|]. intros Habsent. unfold logout.
  rewrite find_absent; [reflexivity|].
  intros t Ht. apply String.eqb_neq. now apply Habsent.
Qed.

(** [refresh_token] on a refresh token that [login] issued at [now0]. *)
Lemma refresh_token_issued now0 now user_id db :
  (forall c, jwt_decode (jwt_encode c) = Some c) ->
  let token :=
    create_refresh_token now0
      {| Claims.sub := Some (str user_id); Claims.email := None;
         Claims.exp := None; Claims.type := None |} in
  refresh_token now {| RefreshTokenRequestSchema.refresh_token := token |} db
  = if now0 + 86400 * REFRESH_TOKEN_EXPIRE_DAYS <=? now
    then (db, Raise (HTTPException 401 "Токен истек"))
    else
      match find (fun t => String.eqb (RefreshToken.token t) token
                           && (RefreshToken.user_id t =? user_id))
                 (refresh_token_table db) with
      | None => (db, Raise (HTTPException 401 "Токен отозван"))
      | Some _ =>
          match find (fun u => User.id u =? user_id) (user_table db) with
          | None => (db, Raise (HTTPException 404 "Пользователь не найден"))
          | Some user =>
              (db, Ok {| AccessTokenSchema.access_token :=
                           create_access_token now
                             {| Claims.sub := Some (str (User.id user));
                                Claims.email := Some (User.email user);
                                Claims.exp := None; Claims.type := None |} None |})
          end
      end.
Proof.
  intros Hcodec token. unfold refresh_token, decode_token.
  cbn [RefreshTokenRequestSchema.refresh_token].
  unfold token at 1, create_refresh_token. rewrite Hcodec.
  cbn [Claims.exp Claims.type Claims.sub].
  destruct (_ <=? now); [reflexivity|].
  simpl. now rewrite int_str.
Qed.

(** When the rows that hold a token issued by [login] all have one key,
    so when one row holds it, [refresh_token] after [logout] raises 401. *)
Lemma refresh_after_logout_of_single_row now0 now user_id db :
  (forall c, jwt_decode (jwt_encode c) = Some c) ->
  let token :=
    create_refresh_token now0
      {| Claims.sub := Some (str user_id); Claims.email := None;
         Claims.exp := None; Claims.type := None |} in
  let data := {| RefreshTokenRequestSchema.refresh_token := token |} in
  (forall t t', In t (refresh_token_table db) -> In t' (refresh_token_table db) ->
                RefreshToken.token t = token -> RefreshToken.token t' = token ->
                RefreshToken.id t = RefreshToken.id t') ->
  let db' := fst (logout data db) in
  exists detail,
    refresh_token now data db' = (db', Raise (HTTPException 401 detail)).
Proof.
  intros Hcodec token data Hsingle db'.
  assert (Hgone : forall t, In t (refresh_token_table db') ->
                            RefreshToken.token t <> token).
  { subst db'. unfold logout. simpl.
    destruct (find _ (refresh_token_table db)) as [found|] eqn:Hfound; simpl.
    - apply find_some in Hfound as [Hin Heq]. apply String.eqb_eq in Heq.
      intros t Ht E. apply filter_In in Ht as [Ht Hne].
      rewrite (Hsingle t found Ht Hin E Heq), Z.eqb_refl in Hne. discriminate.
    - intros t Ht E. apply (find_none _ _ Hfound) in Ht.
      simpl in Ht. rewrite E, String.eqb_refl in Ht. discriminate. }
  assert (Heval := refresh_token_issued now0 now user_id db' Hcodec).
  cbv zeta in Heval. fold token in Heval. unfold data. rewrite Heval.
  destruct (_ <=? now); [eauto|].
  rewrite find_absent; [eauto|].
  intros t Ht. apply andb_false_iff. left. apply String.eqb_neq.
  now apply Hgone.
Qed.

(** C5, the input on which the code departs from it.  A user logs in twice
    within one second: PyJWT writes [exp] in whole seconds, so the two
    refresh tokens are the same string, held by two rows.  [logout] deletes
    the first row that holds the string; [refresh_token] finds the other
    and returns a new access token. *)
Theorem refresh_after_logout_of_twin_login now login_data db db1 db2 t1 t2 :
  (forall c, jwt_decode (jwt_encode c) = Some c) ->
  0 < REFRESH_TOKEN_EXPIRE_DAYS ->
  login now login_data db = (db1, Ok t1) ->
  login now login_data db1 = (db2, Ok t2) ->
  let data := {| RefreshTokenRequestSchema.refresh_token :=
                   TokenSchema.refresh_token t1 |} in
  TokenSchema.refresh_token t2 = TokenSchema.refresh_token t1
  /\ exists db3 r,
       logout data db2
       = (db3, Ok {| LogoutResponseSchema.message := "Logout success" |})
       /\ refresh_token now data db3 = (db3, Ok r).
Proof.
  intros Hcodec Hdays H1 H2 data.
  apply login_ok in H1 as (user & Hu & _ & Ht1 & ->).
  apply login_ok in H2 as (user' & Hu' & _ & Ht2 & ->).
  simpl in Hu'. rewrite Hu in Hu'. injection Hu' as <-.
  set (T := create_refresh_token now
              {| Claims.sub := Some (str (User.id user)); Claims.email := None;
                 Claims.exp := None; Claims.type := None |}) in *.
  subst data. rewrite Ht2, Ht1. split; [reflexivity|].
  set (rows := refresh_token_table db).
  set (r1 := {| RefreshToken.id := next_id (map RefreshToken.id rows);
                RefreshToken.user_id := User.id user;
                RefreshToken.token := T;
                RefreshToken.created_date := now |}).
  cbn [refresh_token_table with_refresh_tokens]. fold rows. fold r1.
  set (r2 := {| RefreshToken.id := next_id (map RefreshToken.id (rows ++ [r1]));
                RefreshToken.user_id := User.id user;
                RefreshToken.token := T;
                RefreshToken.created_date := now |}).
  unfold logout.
  cbn [refresh_token_table with_refresh_tokens
       RefreshTokenRequestSchema.refresh_token].
  rewrite <- app_assoc. change ([r1] ++ [r2])%list with (r1 :: [r2]).
  destruct (find_first_match
              (fun t => String.eqb (RefreshToken.token t) T) rows [r2] r1)
    as (found & -> & Hfound & _); [apply String.eqb_refl|].
  destruct (find_exists
              (fun t => String.eqb (RefreshToken.token t) T
                        && (RefreshToken.user_id t =? User.id user))
              (filter (fun t => negb (RefreshToken.id t =? RefreshToken.id found))
                      (rows ++ r1 :: [r2])%list) r2) as (row & Hrow).
  { apply filter_In. split; [apply in_app_iff; right; right; now left|].
    apply negb_true_iff, Z.eqb_neq. simpl. intros E.
    apply (next_id_fresh (map RefreshToken.id (rows ++ [r1]))).
    rewrite E. now apply in_map. }
  { simpl. now rewrite String.eqb_refl, Z.eqb_refl. }
  destruct (find_exists (fun u => User.id u =? User.id user) (user_table db) user)
    as (user' & Huser'); [now apply find_some in Hu|apply Z.eqb_refl|].
  eexists _, _. split; [reflexivity|].
  match goal with
  | |- refresh_token _ _ ?d = _ =>
      assert (Heval := refresh_token_issued now now (User.id user) d Hcodec)
  end.
  cbv zeta in Heval. fold T in Heval. rewrite Heval.
  destruct (Z.leb_spec (now + 86400 * REFRESH_TOKEN_EXPIRE_DAYS) now); [lia|].
  cbn [refresh_token_table with_refresh_tokens user_table].
  rewrite Hrow, Huser'. reflexivity.
Qed.

(** *** The hashing schemes of the three modules *)

(** C9, where the code departs from it.  [register] hashes with the argon2
    context of [auth.py]; the profile update of [user.py] and the user
    update of [admin.py] hash with bcrypt contexts of their own.  For a
    password that passlib accepts (at most [MAX_PASSWORD_SIZE] bytes, none
    of them NUL), the hash the update paths compute, and [admin.py] stores,
    is not the one [register] stores, and [verify_password], which [login]
    calls, cannot identify it: it raises [UnknownHashError] instead of
    returning true. *)
Theorem update_paths_hash_with_another_scheme salt password :
  bytes_len password <= MAX_PASSWORD_SIZE ->
  has_null password = false ->
  exists h_register h_user h_admin,
    hash_password salt password = Ok h_register
    /\ CryptContext_hash user_pwd_context salt password = Ok h_user
    /\ CryptContext_hash admin_pwd_context salt password = Ok h_admin
    /\ PasswordHash.ident h_register = Scheme.argon2
    /\ PasswordHash.ident h_user = Scheme.bcrypt
    /\ PasswordHash.ident h_admin = Scheme.bcrypt
    /\ h_register <> h_user
    /\ h_register <> h_admin
    /\ verify_password password h_register = Ok true
    /\ verify_password password h_user = Raise UnknownHashError
    /\ verify_password password h_admin = Raise UnknownHashError.
Proof.
  intros Hsize Hnull.
  assert (Hlen := str_len_bytes_len password).
  assert (Hbcrypt : forall ctx, schemes ctx = [Scheme.bcrypt] ->
             CryptContext_hash ctx salt password
             = Ok {| PasswordHash.ident := Scheme.bcrypt;
                     PasswordHash.salt := salt;
                     PasswordHash.checksum := digest Scheme.bcrypt salt password |}).
  { intros ctx Hctx. unfold CryptContext_hash. rewrite Hctx, check_secret_bcrypt.
    destruct (Z.ltb_spec MAX_PASSWORD_SIZE (bytes_len password)); [lia|].
    now rewrite Hnull. }
  eexists _, _, _.
  split; [apply hash_password_sized; lia|].
  split; [now apply Hbcrypt|]. split; [now apply Hbcrypt|].
  simpl. repeat split; try discriminate.
  rewrite verify_password_argon2.
  destruct (Z.ltb_spec MAX_PASSWORD_SIZE (str_len password)); [lia|].
  now rewrite String.eqb_refl.
Qed.

(** ** Tokens: what [login] issues and what the resolvers accept *)

Lemma login_issues now login_data db db' tokens :
  login now login_data db = (db', Ok tokens) ->
  exists user,
    find (fun u => String.eqb (User.email u) (UserLoginSchema.email login_data))
         (user_table db) = Some user
    /\ TokenSchema.access_token tokens
       = create_access_token now
           {| Claims.sub := Some (str (User.id user));
              Claims.email := Some (User.email user);
              Claims.exp := None; Claims.type := None |} None
    /\ TokenSchema.refresh_token tokens
       = create_refresh_token now
           {| Claims.sub := Some (str (User.id user)); Claims.email := None;
              Claims.exp := None; Claims.type := None |}
    /\ user_table db' = user_table db.
Proof.
  unfold login.
  destruct (find _ (user_table db)) as [user|] eqn:Hfind; [|discriminate].
  destruct (verify_password _ _) as [[|]|] eqn:Hverify; try discriminate.
  intros H. injection H as <- <-. exists user. simpl. repeat split; auto.
Qed.

(** [get_current_user] on an access token that [login] issued at [now0]. *)
Lemma get_current_user_issued now0 now user_id email db :
  (forall c, jwt_decode (jwt_encode c) = Some c) ->
  get_current_user now
    (create_access_token now0
       {| Claims.sub := Some (str user_id); Claims.email := Some email;
          Claims.exp := None; Claims.type := None |} None) db
  = if now0 + 60 * ACCESS_TOKEN_EXPIRE_MINUTES <=? now
    then Raise (HTTPException 401 "Токен истек")
    else match find (fun u => User.id u =? user_id) (user_table db) with
         | None => Raise (HTTPException 404 "Пользователь не найден")
         | Some user => Ok user
         end.
Proof.
  intros Hcodec. unfold get_current_user, decode_token, create_access_token.
  rewrite Hcodec. cbn [Claims.exp Claims.type Claims.sub timedelta_or].
  destruct (_ <=? now); [reflexivity|].
  simpl. now rewrite int_str.
Qed.

(** X1.  Round trip of the access token: when [login] succeeds, resolving
    the access token it returned, at the time of the login and on the
    database the login left, yields a user with the id of the user who
    logged in; the very row, when user ids are distinct.  (The codec reads
    back what it wrote and the access lifetime is positive.) *)
Theorem login_access_token_resolves now login_data db db' tokens :
  (forall c, jwt_decode (jwt_encode c) = Some c) ->
  0 < ACCESS_TOKEN_EXPIRE_MINUTES ->
  login now login_data db = (db', Ok tokens) ->
  exists u user,
    find (fun u => String.eqb (User.email u) (UserLoginSchema.email login_data))
         (user_table db) = Some u
    /\ get_current_user now (TokenSchema.access_token tokens) db' = Ok user
    /\ User.id user = User.id u
    /\ (NoDup (map User.id (user_table db)) -> user = u).
Proof.
  intros Hcodec Hlife Hlogin.
  apply login_issues in Hlogin as (u & Hfind & -> & _ & Husers).
  rewrite get_current_user_issued by exact Hcodec. rewrite Husers.
  destruct (Z.leb_spec (now + 60 * ACCESS_TOKEN_EXPIRE_MINUTES) now); [lia|].
  assert (In u (user_table db)) as Hin by (now apply find_some in Hfind).
  destruct (find_exists (fun x => User.id x =? User.id u) (user_table db) u Hin)
    as (user & Huser); [apply Z.eqb_refl|].
  exists u, user. rewrite Huser.
  destruct (find_some _ _ Huser) as [Hin' Hid]. apply Z.eqb_eq in Hid.
  repeat split; auto.
  intros Hpk. now apply (pk_injective User.id (user_table db)).
Qed.

(** X2.  The two kinds of token are not interchangeable.  Of the pair
    [login] returned, the refresh token is never accepted as a bearer
    credential and the access token is never accepted by [refresh_token]:
    at any time and on any database each raises 401, "wrong token type"
    while the token lives and "token expired" afterwards; [refresh_token]
    returns the database as it was. *)
Theorem login_tokens_not_interchangeable now login_data db db' tokens :
  (forall c, jwt_decode (jwt_encode c) = Some c) ->
  login now login_data db = (db', Ok tokens) ->
  forall now' dbx,
    get_current_user now' (TokenSchema.refresh_token tokens) dbx
    = Raise (HTTPException 401
               (if now + 86400 * REFRESH_TOKEN_EXPIRE_DAYS <=? now'
                then "Токен истек" else "Неверный тип токена"))
    /\ refresh_token now'
         {| RefreshTokenRequestSchema.refresh_token :=
              TokenSchema.access_token tokens |} dbx
       = (dbx, Raise (HTTPException 401
                        (if now + 60 * ACCESS_TOKEN_EXPIRE_MINUTES <=? now'
                         then "Токен истек" else "Неверный тип токена"))).
Proof.
  intros Hcodec Hlogin now' dbx.
  apply login_issues in Hlogin as (u & _ & -> & -> & _). split.
  - unfold get_current_user, decode_token, create_refresh_token.
    rewrite Hcodec. cbn [Claims.exp Claims.type Claims.sub].
    now destruct (_ <=? now').
  - unfold refresh_token, decode_token, create_access_token.
    cbn [RefreshTokenRequestSchema.refresh_token].
    rewrite Hcodec. cbn [Claims.exp Claims.type Claims.sub timedelta_or].
    now destruct (_ <=? now').
Qed.

(** X3.  Lifetimes.  The access token [login] issued at [now] is refused
    with 401 "token expired" from [now + 60 * ACCESS_TOKEN_EXPIRE_MINUTES]
    on, and before that resolves to the first user with its subject id, or
    raises 404 when that user is gone; the refresh token is refused with 401
    "token expired" from [now + 86400 * REFRESH_TOKEN_EXPIRE_DAYS] on,
    whatever the database holds. *)
Theorem login_tokens_expire now login_data db db' tokens :
  (forall c, jwt_decode (jwt_encode c) = Some c) ->
  login now login_data db = (db', Ok tokens) ->
  exists u,
    find (fun u => String.eqb (User.email u) (UserLoginSchema.email login_data))
         (user_table db) = Some u
    /\ forall now' dbx,
         (now + 60 * ACCESS_TOKEN_EXPIRE_MINUTES <= now' ->
          get_current_user now' (TokenSchema.access_token tokens) dbx
          = Raise (HTTPException 401 "Токен истек"))
         /\ (now' < now + 60 * ACCESS_TOKEN_EXPIRE_MINUTES ->
             get_current_user now' (TokenSchema.access_token tokens) dbx
             = match find (fun x => User.id x =? User.id u) (user_table dbx) with
               | None => Raise (HTTPException 404 "Пользователь не найден")
               | Some user => Ok user
               end)
         /\ (now + 86400 * REFRESH_TOKEN_EXPIRE_DAYS <= now' ->
             refresh_token now'
               {| RefreshTokenRequestSchema.refresh_token :=
                    TokenSchema.refresh_token tokens |} dbx
             = (dbx, Raise (HTTPException 401 "Токен истек"))).
Proof.
  intros Hcodec Hlogin.
  apply login_issues in Hlogin as (u & Hfind & -> & -> & _).
  exists u. split; [exact Hfind|]. intros now' dbx.
  rewrite get_current_user_issued by exact Hcodec.
  assert (Heval := refresh_token_issued now now' (User.id u) dbx Hcodec).
  cbv zeta in Heval. rewrite Heval.
  repeat split; intros H.
  - destruct (Z.leb_spec (now + 60 * ACCESS_TOKEN_EXPIRE_MINUTES) now');
      [reflexivity|lia].
  - destruct (Z.leb_spec (now + 60 * ACCESS_TOKEN_EXPIRE_MINUTES) now');
      [lia|reflexivity].
  - destruct (Z.leb_spec (now + 86400 * REFRESH_TOKEN_EXPIRE_DAYS) now');
      [reflexivity|lia].
Qed.

(** X4.  An account takes its e-mail address and its user name: after a
    successful [register], a second registration with the same e-mail
    address or with the same user name is refused with 409, whatever its
    other fields, and adds no user. *)
Theorem register_twice salt now user_data db db' r salt' now' user_data' :
  register salt now user_data db = (db', Ok r) ->
  UserCreateSchema.email user_data' = UserCreateSchema.email user_data
  \/ UserCreateSchema.username user_data' = UserCreateSchema.username user_data ->
  exists detail,
    register salt' now' user_data' db'
    = (db', Raise (HTTPException 409 detail)).
Proof.
  unfold register at 1.
  destruct (find _ (user_table db)); [discriminate|].
  destruct (find _ (user_table db)); [discriminate|].
  destruct (hash_password salt _) as [hashed|]; [|discriminate].
  intros H Hsame. injection H as <- _. unfold register. simpl user_table.
  match goal with |- context [(user_table db ++ [?x])%list] => set (user := x) end.
  destruct (find (fun u => String.eqb (User.email u)
                             (UserCreateSchema.email user_data'))
                 (user_table db ++ [user])%list) eqn:Hemail; [eauto|].
  destruct Hsame as [Hsame|Hsame].
  - destruct (find_first_match
                (fun u => String.eqb (User.email u)
                            (UserCreateSchema.email user_data'))
                (user_table db) [] user) as (y & Hy & _);
      [simpl; rewrite Hsame; apply String.eqb_refl|congruence].
  - destruct (find_first_match
                (fun u => String.eqb (User.username u)
                            (UserCreateSchema.username user_data'))
                (user_table db) [] user) as (y & -> & _);
      [simpl; rewrite Hsame; apply String.eqb_refl|eauto].
Qed.


(** X6.  A refresh token renews the access: when [login] succeeds, then until
    the refresh token expires [refresh_token] on the database the login left
    returns an access token, and that token resolves, at the time of the
    refresh, to a user with the identifier of the one who logged in.  (The
    codec reads back what it wrote and the access lifetime is positive.) *)
Theorem login_then_refresh now0 now login_data db db' tokens :
  (forall c, jwt_decode (jwt_encode c) = Some c) ->
  0 < ACCESS_TOKEN_EXPIRE_MINUTES ->
  login now0 login_data db = (db', Ok tokens) ->
  now < now0 + 86400 * REFRESH_TOKEN_EXPIRE_DAYS ->
  exists user r u,
    find (fun u => String.eqb (User.email u) (UserLoginSchema.email login_data))
         (user_table db) = Some user
    /\ refresh_token now
         {| RefreshTokenRequestSchema.refresh_token :=
              TokenSchema.refresh_token tokens |} db'
       = (db', Ok r)
    /\ get_current_user now (AccessTokenSchema.access_token r) db' = Ok u
    /\ User.id u = User.id user.
Proof.
  intros Hcodec Hpos Hlogin Hfresh.
  apply login_ok in Hlogin as (user & Hfind & _ & Htoken & Hdb).
  assert (Husers : user_table db' = user_table db) by now rewrite Hdb.
  assert (Htable : refresh_token_table db'
                   = (refresh_token_table db
                      ++ [{| RefreshToken.id :=
                               next_id (map RefreshToken.id (refresh_token_table db));
                             RefreshToken.user_id := User.id user;
                             RefreshToken.token := TokenSchema.refresh_token tokens;
                             RefreshToken.created_date := now0 |}])%list)
    by now rewrite Hdb.
  clear Hdb.
  destruct (find_exists (fun x => User.id x =? User.id user) (user_table db') user)
    as (u & Hu); [rewrite Husers; now apply find_some in Hfind
                 |apply Z.eqb_refl|].
  assert (Hid : User.id u = User.id user)
    by (apply find_some in Hu as [_ E]; now apply Z.eqb_eq in E).
  destruct (find_exists (fun x => User.id x =? User.id u) (user_table db') u)
    as (u' & Hu'); [now apply find_some in Hu|apply Z.eqb_refl|].
  exists user. eexists. exists u'. split; [exact Hfind|].
  assert (Heval := refresh_token_issued now0 now (User.id user) db' Hcodec).
  cbv zeta in Heval. rewrite <- Htoken in Heval. rewrite Heval. clear Heval.
  destruct (Z.leb_spec (now0 + 86400 * REFRESH_TOKEN_EXPIRE_DAYS) now); [lia|].
  rewrite Htable.
  destruct (find_first_match
              (fun t => String.eqb (RefreshToken.token t)
                          (TokenSchema.refresh_token tokens)
                        && (RefreshToken.user_id t =? User.id user))
              (refresh_token_table db) []
              {| RefreshToken.id :=
                   next_id (map RefreshToken.id (refresh_token_table db));
                 RefreshToken.user_id := User.id user;
                 RefreshToken.token := TokenSchema.refresh_token tokens;
                 RefreshToken.created_date := now0 |})
    as (row & -> & _); [simpl; now rewrite String.eqb_refl, Z.eqb_refl|].
  rewrite Hu. split; [reflexivity|]. simpl AccessTokenSchema.access_token.
  rewrite (get_current_user_issued now now (User.id u) (User.email u) db' Hcodec).
  destruct (Z.leb_spec (now + 60 * ACCESS_TOKEN_EXPIRE_MINUTES) now); [lia|].
  rewrite Hu'. split; [reflexivity|].
  apply find_some in Hu' as [_ E]. apply Z.eqb_eq in E. congruence.
Qed.

Lemma find_among_kept {A : Type} (p keep : A -> bool) (l : list A) :
  (forall x, In x l -> p x = true -> keep x = true) ->
  find p (filter keep l) = find p l.
Proof.
  intros Hkeep. induction l as [|a l IH]; simpl; [reflexivity|].
  assert (IH' : find p (filter keep l) = find p l)
    by (apply IH; intros x Hx; apply Hkeep; now right).
  destruct (keep a) eqn:Ha; simpl.
  - now rewrite IH'.
  - destruct (p a) eqn:Hp; [|exact IH'].
    rewrite (Hkeep a) in Ha; [discriminate|now left|assumption].
Qed.

(** X7.  [logout] revokes the token it is given and nothing else: with [id] a
    key of the refresh-token table, [refresh_token] with any other token
    answers after the logout what it answered before, and no credentials
    resolve differently: the access tokens of the session that logged out
    stay valid until they expire. *)
Theorem logout_leaves_other_tokens now data other credentials db :
  NoDup (map RefreshToken.id (refresh_token_table db)) ->
  RefreshTokenRequestSchema.refresh_token other
  <> RefreshTokenRequestSchema.refresh_token data ->
  snd (refresh_token now other (fst (logout data db)))
  = snd (refresh_token now other db)
  /\ get_current_user now credentials (fst (logout data db))
     = get_current_user now credentials db.
Proof.
  intros Hpk Hother.
  assert (Husers : user_table (fst (logout data db)) = user_table db).
  { unfold logout. simpl. now destruct (find _ (refresh_token_table db)). }
  split; [|unfold get_current_user; now rewrite Husers].
  assert (Hfind : forall user_id,
             find (fun t => String.eqb (RefreshToken.token t)
                              (RefreshTokenRequestSchema.refresh_token other)
                            && (RefreshToken.user_id t =? user_id))
                  (refresh_token_table (fst (logout data db)))
             = find (fun t => String.eqb (RefreshToken.token t)
                                (RefreshTokenRequestSchema.refresh_token other)
                              && (RefreshToken.user_id t =? user_id))
                    (refresh_token_table db)).
  { intros user_id. unfold logout. simpl.
    destruct (find _ (refresh_token_table db)) as [found|] eqn:Hfound; simpl;
      [|reflexivity].
    apply find_some in Hfound as [Hin Htoken]. apply String.eqb_eq in Htoken.
    apply find_among_kept. intros t Ht Hp.
    apply Bool.andb_true_iff in Hp as [Hp _]. apply String.eqb_eq in Hp.
    apply Bool.negb_true_iff, Z.eqb_neq. intros E.
    apply Hother. rewrite <- Hp, <- Htoken. f_equal.
    eapply pk_injective; eauto. }
  unfold refresh_token.
  destruct (decode_token now _) as [payload|]; [|reflexivity].
  destruct (negb _); [reflexivity|].
  destruct (Claims.sub payload); [|reflexivity].
  destruct (int _) as [user_id|]; [|reflexivity].
  rewrite Hfind, Husers.
  destruct (find _ (refresh_token_table db)); [|reflexivity].
  now destruct (find _ (user_table db)).
Qed.

(** ** The user table under the requests *)

Lemma fold_cascade_user_table (qs : list Question) (db : Database) :
  user_table (fold_left (fun db q => cascade_delete_question (Question.id q) db)
                        qs db) = user_table db.
Proof.
  revert db. induction qs as [|q qs IH]; intros db; simpl; [reflexivity|].
  now rewrite IH.
Qed.

Lemma fold_options_user_table question_id options db :
  user_table (fold_left (add_answer_option question_id) options db)
  = user_table db.
Proof.
  revert db. induction options as [|o options IH]; intros db; simpl;
    [reflexivity|]. now rewrite IH.
Qed.

(** The handlers of the exam and catalog routes leave the user table alone. *)
Lemma exam_handlers_keep_users rng now exam_id answer_data u db :
  user_table (fst (start_exam rng now u db)) = user_table db
  /\ user_table (fst (answer_question now exam_id answer_data u db)) = user_table db
  /\ user_table (fst (finish_exam now exam_id u db)) = user_table db.
Proof.
  split; [|split].
  - destruct (start_exam_db rng now u db) as [->|[_ ->]]; reflexivity.
  - destruct (answer_question_db now exam_id answer_data u db)
      as [->|(exam & option & _ & _ & _ & ->)]; reflexivity.
  - destruct (finish_exam_db now exam_id u db) as [->|(exam & _ & _ & ->)];
      reflexivity.
Qed.

Lemma catalog_handlers_keep_users now category_id category_data update_data
  question_id question_data question_update u db :
  user_table (fst (create_category category_data u db)) = user_table db
  /\ user_table (fst (update_category category_id update_data u db)) = user_table db
  /\ user_table (fst (delete_category category_id u db)) = user_table db
  /\ user_table (fst (create_question now question_data u db)) = user_table db
  /\ user_table (fst (update_question question_id question_update u db))
     = user_table db
  /\ user_table (fst (delete_question question_id u db)) = user_table db.
Proof.
  repeat split.
  - unfold create_category. split_handler; reflexivity.
  - unfold update_category. split_handler; reflexivity.
  - unfold delete_category. split_handler; try reflexivity.
    unfold cascade_delete_category. simpl. apply fold_cascade_user_table.
  - unfold create_question. split_handler; try reflexivity.
    now rewrite fold_options_user_table.
  - unfold update_question.
    destruct (check_admin_role u); simpl; [|reflexivity].
    destruct (find _ (question_table db)); simpl; [|reflexivity].
    match goal with |- context [if ?c then _ else _] => destruct c end;
      simpl; [reflexivity|].
    destruct (setattr_question _ _); simpl; [|reflexivity].
    destruct (existsb _ _); reflexivity.
  - unfold delete_question. split_handler; reflexivity.
Qed.

(** The user a request is made by: the one its credentials resolve to. *)
Definition credentials_of (req : Request) : option (datetime * string) :=
  match req with
  | POST_auth_register _ _ _ | POST_auth_login _ _ | POST_auth_refresh _ _
  | POST_auth_logout _ => None
  | POST_exams_start credentials _ now
  | POST_exams_answer credentials now _ _
  | POST_exams_finish credentials now _
  | PUT_users_me credentials now _ _
  | PUT_admin_users credentials now _ _ _
  | POST_categories credentials now _
  | DELETE_categories credentials now _
  | POST_questions credentials now _
  | DELETE_questions credentials now _
  | PUT_categories credentials now _ _
  | PUT_questions credentials now _ _ => Some (now, credentials)
  end.

Definition caller (req : Request) (db : Database) : option User :=
  match credentials_of req with
  | None => None
  | Some (now, credentials) =>
      match get_current_user now credentials db with
      | Ok u => Some u
      | Raise _ => None
      end
  end.

(** What a request made by [who] does to the user table: nothing, a
    registration, or the commit of one changed row by an administrator. *)
Inductive user_effect (who : option User) (db db' : Database) : Prop :=
| users_same : user_table db' = user_table db -> user_effect who db db'
| users_registered (user : User) :
    user_table db' = (user_table db ++ [user])%list ->
    User.id user = next_id (map User.id (user_table db)) ->
    User.role user = RoleChoices.user ->
    (forall u, In u (user_table db) ->
               User.email u <> User.email user
               /\ User.username u <> User.username user) ->
    user_effect who db db'
| users_committed (actor old user : User) :
    who = Some actor ->
    User.role actor = RoleChoices.admin ->
    In old (user_table db) ->
    User.id user = User.id old ->
    commit_user user db = Ok db' ->
    user_effect who db db'.

Lemma register_user_effect who salt now user_data db :
  user_effect who db (fst (register salt now user_data db)).
Proof.
  unfold register.
  destruct (find _ (user_table db)) eqn:He; simpl; [now apply users_same|].
  destruct (find (fun u => String.eqb (User.username u) _) (user_table db))
    eqn:Hn; simpl; [now apply users_same|].
  destruct (hash_password salt _) as [hashed|]; simpl; [|now apply users_same].
  eapply users_registered; simpl; try reflexivity.
  intros u Hu. split; apply String.eqb_neq.
  - apply (find_none _ _ He u Hu).
  - apply (find_none _ _ Hn u Hu).
Qed.

Lemma get_current_user_In now credentials db u :
  get_current_user now credentials db = Ok u -> In u (user_table db).
Proof.
  unfold get_current_user.
  destruct (decode_token now credentials) as [payload|]; [|discriminate].
  destruct (negb _); [discriminate|].
  destruct (Claims.sub payload); [|discriminate].
  destruct (int _); [|discriminate].
  destruct (find _ (user_table db)) as [user|] eqn:Hfind; [|discriminate].
  intros H. injection H as <-. now apply find_some in Hfind.
Qed.

Lemma caller_In req db u : caller req db = Some u -> In u (user_table db).
Proof.
  unfold caller. destruct (credentials_of req) as [[now c]|]; [|discriminate].
  destruct (get_current_user now c db) eqn:H; [|discriminate].
  intros E. injection E as <-. now apply get_current_user_In in H.
Qed.

Lemma assign_if_keeps value set u :
  (forall v x, User.id (set v x) = User.id x /\ User.role (set v x) = User.role x) ->
  User.id (assign_if value set u) = User.id u
  /\ User.role (assign_if value set u) = User.role u.
Proof.
  intros Hset. unfold assign_if.
  destruct (truthy value); [|auto]. destruct value; [apply Hset|auto].
Qed.

Lemma assign_password_if_keeps ctx salt value u u' :
  assign_password_if ctx salt value u = Ok u' ->
  User.id u' = User.id u /\ User.role u' = User.role u
  /\ User.email u' = User.email u /\ User.username u' = User.username u.
Proof.
  unfold assign_password_if. destruct (truthy value); [|intros H; now injection H as <-].
  destruct value as [v|]; [|intros H; now injection H as <-].
  destruct (CryptContext_hash ctx salt v); [|discriminate].
  intros H. injection H as <-. simpl. auto.
Qed.

Lemma admin_update_user_user_effect salt user_id update_data u db :
  fst (admin_update_user salt user_id update_data u db) = db
  \/ User.role u = RoleChoices.admin
     /\ exists old user,
          In old (user_table db) /\ User.id user = User.id old
          /\ commit_user user db
             = Ok (fst (admin_update_user salt user_id update_data u db)).
Proof.
  unfold admin_update_user.
  destruct (RoleChoices.eqb (User.role u) RoleChoices.admin) eqn:Hrole; simpl;
    [|now left].
  destruct (find _ (user_table db)) as [old|] eqn:Hfind; simpl; [|now left].
  destruct (assign_password_if _ _ _ _) as [u'|] eqn:Hp; simpl; [|now left].
  match goal with |- context [commit_user ?x db] =>
    destruct (commit_user x db) as [db'|] eqn:Hc; simpl; [|now left];
    right; split; [now destruct (User.role u)|]; exists old, x
  end.
  split; [now apply find_some in Hfind|]. split; [|exact Hc].
  apply assign_password_if_keeps in Hp as (Hid & _).
  destruct (assign_if_keeps (AdminUpdateUserSchema.username update_data)
              set_username
              (assign_if (AdminUpdateUserSchema.email update_data) set_email old))
    as [Hid1 _]; [intros; split; reflexivity|].
  destruct (assign_if_keeps (AdminUpdateUserSchema.email update_data) set_email old)
    as [Hid2 _]; [intros; split; reflexivity|].
  destruct (AdminUpdateUserSchema.role update_data); simpl; congruence.
Qed.

Lemma handle_user_effect req db :
  user_effect (caller req db) db (handle req db).
Proof.
  destruct req; unfold caller; simpl;
    try match goal with
        | |- context [Depends_current_user ?n ?c ?h db] =>
            unfold Depends_current_user;
            destruct (get_current_user n c db) as [u|] eqn:Hu; simpl;
            [|now apply users_same]
        end.
  - apply register_user_effect.
  - apply users_same. unfold login. split_handler; reflexivity.
  - apply users_same. unfold refresh_token. split_handler; reflexivity.
  - apply users_same. unfold logout. split_handler; reflexivity.
  - apply users_same. apply (exam_handlers_keep_users rng now 0
                               {| ExamAnswerRequestSchema.question_id := 0;
                                  ExamAnswerRequestSchema.option_id := 0 |} u db).
  - apply users_same. apply (exam_handlers_keep_users (fun _ => O) now exam_id
                               answer_data u db).
  - apply users_same. apply (exam_handlers_keep_users (fun _ => O) now exam_id
                               {| ExamAnswerRequestSchema.question_id := 0;
                                  ExamAnswerRequestSchema.option_id := 0 |} u db).
  - apply users_same. now rewrite update_current_user_profile_db.
  - destruct (admin_update_user_user_effect salt user_id update_data u db)
      as [->|(Hadmin & old & user & Hin & Hid & Hc)]; [now apply users_same|].
    apply users_committed with u old user; auto.
  - apply users_same. unfold create_category. split_handler; reflexivity.
  - apply users_same.
    apply (catalog_handlers_keep_users now category_id
             {| CategoryCreateSchema.category_name := "" |}
             {| CategoryUpdateSchema.category_name := "" |} 0
             {| QuestionCreateSchema.text := ""; QuestionCreateSchema.image := None;
                QuestionCreateSchema.explanation := "";
                QuestionCreateSchema.difficulty := DifficultyChoices.easy;
                QuestionCreateSchema.category_id := 0;
                QuestionCreateSchema.options := [] |}
             {| QuestionUpdateSchema.text := Field.unset;
                QuestionUpdateSchema.image := Field.unset;
                QuestionUpdateSchema.explanation := Field.unset;
                QuestionUpdateSchema.difficulty := Field.unset;
                QuestionUpdateSchema.category_id := Field.unset |} u db).
  - destruct (validate_options _); [|now apply users_same].
    unfold Depends_current_user.
    destruct (get_current_user now credentials db) as [u|]; simpl;
      [|now apply users_same].
    apply users_same. unfold create_question. split_handler; try reflexivity.
    now rewrite fold_options_user_table.
  - apply users_same. unfold delete_question. split_handler; reflexivity.
  - apply users_same. unfold update_category. split_handler; reflexivity.
  - apply users_same.
    apply (catalog_handlers_keep_users now 0
             {| CategoryCreateSchema.category_name := "" |}
             {| CategoryUpdateSchema.category_name := "" |} question_id
             {| QuestionCreateSchema.text := ""; QuestionCreateSchema.image := None;
                QuestionCreateSchema.explanation := "";
                QuestionCreateSchema.difficulty := DifficultyChoices.easy;
                QuestionCreateSchema.category_id := 0;
                QuestionCreateSchema.options := [] |}
             question_data u db).
Qed.

(** ** Identity columns, roles and the routes reserved to administrators *)

Definition users_unique (db : Database) : Prop :=
  NoDup (map User.id (user_table db))
  /\ NoDup (map User.email (user_table db))
  /\ NoDup (map User.username (user_table db)).

Definition admin_route (req : Request) : bool :=
  match req with
  | PUT_admin_users _ _ _ _ _ | POST_categories _ _ _ | DELETE_categories _ _ _
  | POST_questions _ _ _ | DELETE_questions _ _ _ | PUT_categories _ _ _ _
  | PUT_questions _ _ _ _ => true
  | _ => false
  end.

Lemma replaced_rows {Row : Type} (key : Row -> Z) (row : Row) (l : list Row)
  (x : Row) :
  In x (map (fun r => if key r =? key row then row else r) l) ->
  (x = row /\ In (key row) (map key l)) \/ (In x l /\ key x <> key row).
Proof.
  rewrite in_map_iff. intros (r & <- & Hr).
  destruct (Z.eqb_spec (key r) (key row)) as [E|]; auto.
  left. split; [reflexivity|]. rewrite <- E. now apply in_map.
Qed.

(** Replacing the row of a key by a row whose column value no other row has
    keeps the column free of repetitions. *)
Lemma replaced_column {Row K : Type} (key : Row -> Z) (column : Row -> K)
  (row : Row) (l : list Row) :
  NoDup (map key l) -> NoDup (map column l) ->
  (forall r, In r l -> key r <> key row -> column r <> column row) ->
  NoDup (map column (map (fun r => if key r =? key row then row else r) l)).
Proof.
  induction l as [|a l IH]; simpl; intros Hkey Hcol Hother; [constructor|].
  inversion Hkey as [|? ? Hka Hkl]; inversion Hcol as [|? ? Hcola Hcoll]; subst.
  constructor; [|apply IH; auto].
  rewrite in_map_iff. intros (x & Hx & Hin).
  apply replaced_rows in Hin as [[-> Hin]|[Hin Hne]];
    destruct (Z.eqb_spec (key a) (key row)) as [Ha|Ha].
  - apply Hka. now rewrite Ha.
  - apply (Hother a); auto.
  - apply (Hother x); auto.
  - apply Hcola. rewrite <- Hx. now apply in_map.
Qed.

Lemma commit_user_ok user db db' :
  commit_user user db = Ok db' ->
  user_table db'
  = map (fun u => if User.id u =? User.id user then user else u) (user_table db)
  /\ forall u, In u (user_table db) -> User.id u <> User.id user ->
               User.email u <> User.email user
               /\ User.username u <> User.username user.
Proof.
  unfold commit_user. destruct (existsb _ _) eqn:He; [discriminate|].
  intros H. injection H as <-. split; [reflexivity|].
  intros u Hu Hne.
  assert (Hrow : negb (User.id u =? User.id user)
                 && (String.eqb (User.email u) (User.email user)
                     || String.eqb (User.username u) (User.username user))
                 = false).
  { match goal with |- ?b = false => destruct b eqn:E; [|reflexivity] end.
    rewrite <- He. symmetry. apply existsb_exists. exists u. auto. }
  apply Z.eqb_neq in Hne. rewrite Hne in Hrow. simpl in Hrow.
  apply Bool.orb_false_iff in Hrow as [H1 H2].
  split; now apply String.eqb_neq.
Qed.

Lemma users_unique_preserved who db db' :
  user_effect who db db' -> users_unique db -> users_unique db'.
Proof.
  intros [Hsame|user Htable Hid _ Hfree|actor old user _ _ Hin Hid Hcommit]
         (Hids & Hemails & Hnames); unfold users_unique.
  - now rewrite Hsame.
  - rewrite Htable, !map_app. simpl. repeat split; apply NoDup_snoc; auto.
    + rewrite Hid. apply next_id_fresh.
    + rewrite in_map_iff. intros (u & E & Hu).
      destruct (Hfree u Hu) as [H1 H2]. congruence.
    + rewrite in_map_iff. intros (u & E & Hu).
      destruct (Hfree u Hu) as [H1 H2]. congruence.
  - apply commit_user_ok in Hcommit as [-> Hother].
    repeat split; apply (replaced_column User.id); auto.
    + intros u Hu Hne. now apply Hother.
    + intros u Hu Hne. now apply Hother.
Qed.

(** X8.  Given identifiers, e-mail addresses and user names without
    repetition in the user table, no request produces one: the table that
    [register] and the administrator's update leave behind has pairwise
    distinct identifiers, e-mail addresses and user names, whatever the
    request and its outcome. *)
Theorem users_stay_unique (req : Request) (db : Database) :
  users_unique db -> users_unique (handle req db).
Proof. apply users_unique_preserved with (caller req db), handle_user_effect. Qed.

(** The handlers behind the reserved routes return the database they found
    to a caller who is not an administrator. *)
Lemma non_admin_request (req : Request) (db : Database) :
  admin_route req = true ->
  (forall u, caller req db = Some u -> User.role u <> RoleChoices.admin) ->
  handle req db = db.
Proof.
  intros Hroute Hcaller.
  destruct req; try discriminate; unfold caller in Hcaller; simpl in *;
    try (destruct (validate_options _); [|reflexivity]);
    unfold Depends_current_user;
    destruct (get_current_user now credentials db) as [u|]; simpl;
    try reflexivity;
    specialize (Hcaller u eq_refl);
    [ unfold admin_update_user
    | unfold create_category, check_admin_role
    | unfold delete_category, check_admin_role
    | unfold create_question, check_admin_role
    | unfold delete_question, check_admin_role
    | unfold update_category, check_admin_role
    | unfold update_question, check_admin_role ];
    destruct (User.role u); simpl; try reflexivity; now elim Hcaller.
Qed.

(** X9.  The user administration and every catalog route that writes (create,
    update and delete of categories and questions) change the database only
    for an administrator: when such a request leaves a database other than
    the one it found, its credentials resolve to a row of the user table
    whose role is [admin]. *)
Theorem admin_routes_need_admin (req : Request) (db : Database) :
  admin_route req = true -> handle req db <> db ->
  exists u, caller req db = Some u /\ User.role u = RoleChoices.admin
            /\ In u (user_table db).
Proof.
  intros Hroute Hchanged.
  destruct (caller req db) as [u|] eqn:Hcaller.
  - destruct (User.role u) eqn:Hrole.
    + exists u. repeat split; auto. now apply caller_In with req.
    + elim Hchanged. apply non_admin_request; [assumption|].
      rewrite Hcaller. intros u' E. injection E as <-. congruence.
  - elim Hchanged. apply non_admin_request; [assumption|].
    rewrite Hcaller. discriminate.
Qed.

(** X10.  Roles change only through an administrator. After a request whose
    caller is not an administrator every row of the user table either is a
    freshly registered account with role [user], or carries the identifier
    and the role of a row that was there before; in particular a database
    without administrators never gets one. *)
Theorem roles_change_only_by_admin (req : Request) (db : Database) (u' : User) :
  (forall a, caller req db = Some a -> User.role a <> RoleChoices.admin) ->
  In u' (user_table (handle req db)) ->
  (User.role u' = RoleChoices.user
   /\ ~ In (User.id u') (map User.id (user_table db)))
  \/ exists u, In u (user_table db) /\ User.id u = User.id u'
               /\ User.role u = User.role u'.
Proof.
  intros Hcaller Hin.
  assert (Hkept : user_table (handle req db) = user_table db ->
                  exists u, In u (user_table db) /\ User.id u = User.id u'
                            /\ User.role u = User.role u').
  { intros E. rewrite E in Hin. now exists u'. }
  destruct req; unfold caller in Hcaller; simpl in Hcaller;
    try (right; apply Hkept; apply (f_equal user_table);
         apply non_admin_request; [reflexivity|exact Hcaller]).
  - simpl in Hin. revert Hin. unfold register.
    destruct (find _ (user_table db)); simpl; [right; now exists u'|].
    destruct (find _ (user_table db)); simpl; [right; now exists u'|].
    destruct (hash_password salt _) as [hashed|]; simpl; [|right; now exists u'].
    intros Hin. apply in_app_or in Hin as [Hin|[<-|[]]].
    + right. now exists u'.
    + left. split; [reflexivity|]. apply next_id_fresh.
  - right. apply Hkept. simpl. unfold login. split_handler; reflexivity.
  - right. apply Hkept. simpl. unfold refresh_token. split_handler; reflexivity.
  - right. apply Hkept. simpl. unfold logout. split_handler; reflexivity.
  - right. apply Hkept. simpl. unfold Depends_current_user.
    destruct (get_current_user now credentials db) as [u|]; simpl;
      [apply (exam_handlers_keep_users rng now 0
                {| ExamAnswerRequestSchema.question_id := 0;
                   ExamAnswerRequestSchema.option_id := 0 |} u db)|reflexivity].
  - right. apply Hkept. simpl. unfold Depends_current_user.
    destruct (get_current_user now credentials db) as [u|]; simpl;
      [apply (exam_handlers_keep_users (fun _ => O) now exam_id answer_data u db)
      |reflexivity].
  - right. apply Hkept. simpl. unfold Depends_current_user.
    destruct (get_current_user now credentials db) as [u|]; simpl;
      [apply (exam_handlers_keep_users (fun _ => O) now exam_id
                {| ExamAnswerRequestSchema.question_id := 0;
                   ExamAnswerRequestSchema.option_id := 0 |} u db)|reflexivity].
  - right. apply Hkept. simpl. unfold Depends_current_user.
    destruct (get_current_user now credentials db) as [u|]; simpl;
      [now rewrite update_current_user_profile_db|reflexivity].
Qed.

(** X11.  No user changes the profile of another unless as an administrator:
    a row of the user table whose identifier is not the caller's is a row of
    the table after every request of a caller who is not an administrator,
    and after every request without valid credentials. *)
Theorem profiles_of_others_untouched (req : Request) (db : Database) (x : User) :
  In x (user_table db) ->
  (forall u, caller req db = Some u ->
             User.role u <> RoleChoices.admin /\ User.id u <> User.id x) ->
  In x (user_table (handle req db)).
Proof.
  intros Hx Hcaller.
  destruct (handle_user_effect req db)
    as [E|user E _ _ _|actor old user Hactor Hwho _ _ Hc].
  - now rewrite E.
  - rewrite E, in_app_iff. now left.
  - destruct (Hcaller actor Hactor) as [Hrole Hne]. contradiction.
Qed.

Lemma unique_column {Row K : Type} (column : Row -> K) (l : list Row) (x y : Row) :
  NoDup (map column l) -> In x l -> In y l -> column x = column y -> x = y.
Proof.
  induction l as [|a l IH]; simpl; [tauto|].
  intros Hnd Hx Hy Hc. inversion Hnd as [|? ? Hnotin Hnd']; subst.
  destruct Hx as [->|Hx], Hy as [->|Hy]; auto; exfalso; apply Hnotin.
  - rewrite Hc. now apply in_map.
  - rewrite <- Hc. now apply in_map.
Qed.

(** X12.  [PUT /admin/users/{id}] stores the update and then fails.  For an
    administrator, a user that exists and a new role, on a user table with
    unique e-mail addresses and user names, the role is stored and the
    answer is the [ValidationError] of [UserProfileSchema], which is built
    with [stats] where the schema requires [status]; and whatever update is
    sent for that user, the outcome is an exception, never a profile. *)
Theorem admin_update_user_stores_then_fails salt user_id role u target db :
  users_unique db ->
  User.role u = RoleChoices.admin ->
  find (fun x => User.id x =? user_id) (user_table db) = Some target ->
  admin_update_user salt user_id
    {| AdminUpdateUserSchema.email := None;
       AdminUpdateUserSchema.username := None;
       AdminUpdateUserSchema.password := None;
       AdminUpdateUserSchema.role := Some role |} u db
  = (with_users
       (map (fun x => if User.id x =? user_id then set_role role target else x)
            (user_table db)) db,
     Raise ValidationError)
  /\ forall update_data,
       exists e, snd (admin_update_user salt user_id update_data u db) = Raise e.
Proof.
  intros (_ & Hemails & Hnames) Hadmin Hfind.
  assert (Hin : In target (user_table db)) by now apply find_some in Hfind.
  assert (Hid : User.id target = user_id)
    by (apply find_some in Hfind as [_ E]; now apply Z.eqb_eq in E).
  split.
  - unfold admin_update_user, assign_if, assign_password_if, commit_user.
    rewrite Hadmin, Hfind. simpl. rewrite Hid.
    replace (existsb _ (user_table db)) with false; [reflexivity|].
    symmetry. apply Bool.not_true_iff_false. intros Hex.
    apply existsb_exists in Hex as (v & Hv & Hrow).
    apply Bool.andb_true_iff in Hrow as [Hne Hsame].
    apply Bool.negb_true_iff, Z.eqb_neq in Hne.
    apply Bool.orb_true_iff in Hsame as [E|E]; apply String.eqb_eq in E;
      apply Hne; rewrite <- Hid; f_equal.
    + now apply (unique_column User.email (user_table db)).
    + now apply (unique_column User.username (user_table db)).
  - intros update_data. unfold admin_update_user.
    destruct (negb _); simpl; [eauto|]. rewrite Hfind.
    destruct (assign_password_if _ _ _ _) as [u'|]; simpl; [|eauto].
    match goal with |- context [commit_user ?x db] =>
      destruct (commit_user x db) end; simpl; unfold UserProfileSchema_with_stats;
      eauto.
Qed.

(** ** The exam table under the requests *)

(** What the columns of an exam row say together: an exam in progress has no
    finish time, a finished one has a finish time and the status that its
    score earns. *)
Definition exam_consistent (e : Exam) : Prop :=
  0 <= Exam.score e
  /\ match Exam.status e with
     | ExamStatusChoices.in_progress => Exam.finished_at e = None
     | ExamStatusChoices.completed =>
         Exam.finished_at e <> None /\ PASSING_SCORE <= Exam.score e
     | ExamStatusChoices.failed =>
         Exam.finished_at e <> None /\ Exam.score e < PASSING_SCORE
     end.

Lemma scored_consistent option exam :
  Exam.status exam = ExamStatusChoices.in_progress ->
  exam_consistent exam -> exam_consistent (scored option exam).
Proof.
  unfold exam_consistent, scored. intros Hst [Hscore Hrow].
  rewrite Hst in Hrow.
  destruct (AnswerOption.is_correct option); simpl; rewrite Hst; split;
    auto; lia.
Qed.

Lemma finished_consistent now exam :
  exam_consistent exam ->
  exam_consistent (set_finished (verdict exam) now exam).
Proof.
  unfold exam_consistent, verdict. intros [Hscore _]. simpl.
  split; [assumption|].
  destruct (Z.geb_spec (Exam.score exam) PASSING_SCORE); simpl;
    (split; [discriminate|lia]).
Qed.

Lemma exam_consistent_preserved d db db' :
  exam_effect d db db' ->
  (forall e, In e (exam_table db) -> exam_consistent e) ->
  forall e, In e (exam_table db') -> exam_consistent e.
Proof.
  intros [E _ _|q E _ _ _|ka kq _ E _ _|now u Hnone E _ _
         |exam o a Hexam Hst Hnone Hc E _ _|now exam Hin Hst E _ _] Hall e;
    rewrite E; auto.
  - rewrite in_app_iff. intros [He|[<-|[]]]; [auto|].
    unfold exam_consistent. simpl. split; [lia|reflexivity].
  - intros He. apply In_replace_exam in He as [[-> _]|[He _]]; [|auto].
    apply find_exam_id in Hexam as [Hin _]. apply scored_consistent; auto.
  - intros He. apply In_replace_exam in He as [[-> _]|[He _]]; [|auto].
    apply finished_consistent; auto.
Qed.

(** X13.  The columns of an exam row stay consistent under every request: given
    rows whose score is not negative, whose finish time is empty exactly when
    the status is [in_progress], and whose status [completed] (resp. [failed])
    goes with a score of at least (resp. less than) [PASSING_SCORE], every
    row of the table after any request is such a row. *)
Theorem exam_rows_stay_consistent (req : Request) (db : Database) :
  (forall e, In e (exam_table db) -> exam_consistent e) ->
  forall e, In e (exam_table (handle req db)) -> exam_consistent e.
Proof. apply exam_consistent_preserved with (deletes_catalog req), handle_effect. Qed.

Lemma replace_exam_In (x e : Exam) (l : list Exam) :
  In e l -> In (if Exam.id e =? Exam.id x then x else e) (replace_exam x l).
Proof.
  intros He. unfold replace_exam. apply in_map_iff. now exists e.
Qed.

Lemma replace_exam_length (x : Exam) (l : list Exam) :
  List.length (replace_exam x l) = List.length l.
Proof. apply length_map. Qed.

(** X14.  No request deletes an exam or rewrites its history: with [id] a key
    of the exam table, every exam found before a request is found after it
    under the same identifier, with the same owner and start time and a
    score that is not smaller; the table grows by at most one row. *)
Theorem exam_history_is_kept (req : Request) (db : Database) (e : Exam) :
  exam_pk db -> In e (exam_table db) ->
  (exists e', In e' (exam_table (handle req db))
              /\ Exam.id e' = Exam.id e
              /\ Exam.user_id e' = Exam.user_id e
              /\ Exam.started_at e' = Exam.started_at e
              /\ Exam.score e <= Exam.score e')
  /\ (List.length (exam_table db)
      <= List.length (exam_table (handle req db))
      <= S (List.length (exam_table db)))%nat.
Proof.
  intros Hpk He.
  destruct (handle_effect req db)
    as [E _ _|q E _ _ _|ka kq _ E _ _|now u Hnone E _ _
       |exam o a Hexam Hst Hnone Hc E _ _|now exam Hin Hst E _ _];
    rewrite E; rewrite ?replace_exam_length.
  1-3: split; [exists e; repeat split; auto; lia|lia].
  - split; [exists e; repeat split; auto; try lia; rewrite in_app_iff; auto|].
    rewrite length_app. simpl. lia.
  - split; [|lia]. apply find_exam_id in Hexam as [Hin Hid].
    eexists. split; [apply replace_exam_In, He|].
    rewrite scored_id.
    destruct (Z.eqb_spec (Exam.id e) (Exam.id exam)) as [Heq|];
      [|repeat split; lia].
    assert (e = exam) as -> by (eapply pk_injective; eauto).
    rewrite scored_id, scored_user, scored_score. unfold scored.
    destruct (AnswerOption.is_correct o); repeat split; simpl; lia.
  - split; [|lia].
    eexists. split; [apply replace_exam_In, He|]. simpl.
    destruct (Z.eqb_spec (Exam.id e) (Exam.id exam)) as [Heq|];
      [|repeat split; lia].
    assert (e = exam) as -> by (eapply pk_injective; eauto).
    repeat split; simpl; lia.
Qed.

(** The routes outside [/exams] write neither exams nor, unless they delete
    from the catalog, answers. *)
Lemma other_routes_keep_exams (req : Request) (db : Database) :
  match req with
  | POST_exams_start _ _ _ | POST_exams_answer _ _ _ _
  | POST_exams_finish _ _ _ => True
  | _ => exam_table (handle req db) = exam_table db
         /\ (deletes_catalog req = false ->
             exam_answer_table (handle req db) = exam_answer_table db)
  end.
Proof.
  destruct req; simpl; try exact I;
    try (destruct (validate_options _); [|now split]);
    try (unfold Depends_current_user;
         destruct (get_current_user now credentials db) as [u|]; simpl;
         [|now split]).
  - unfold register. split_handler; now split.
  - unfold login. split_handler; now split.
  - unfold refresh_token. split_handler; now split.
  - unfold logout. split_handler; now split.
  - rewrite update_current_user_profile_db. now split.
  - unfold admin_update_user, commit_user.
    destruct (negb _); simpl; [now split|].
    destruct (find _ _) as [user|]; simpl; [|now split].
    destruct (assign_password_if _ _ _ _) as [u'|]; simpl; [|now split].
    destruct (existsb _ _); now split.
  - unfold create_category. split_handler; now split.
  - split; [|discriminate]. unfold delete_category.
    destruct (check_admin_role u); simpl; [|reflexivity].
    destruct (find _ _) as [c|]; simpl; [|reflexivity].
    unfold cascade_delete_category.
    match goal with |- context [fold_left ?f ?l db] =>
      destruct (cascade_delete_questions_tables l db) as (ka & kq & H1 & _)
    end.
    simpl. exact H1.
  - unfold create_question.
    destruct (check_admin_role u); simpl; [|now split].
    destruct (find _ (category_table db)); simpl; [|now split].
    match goal with |- context [fold_left ?f ?l ?d] =>
      destruct (add_answer_options_tables
                  (next_id (map Question.id (question_table db))) l d)
        as (H1 & H2 & _) end.
    simpl in *. now split.
  - split; [|discriminate]. unfold delete_question. split_handler; reflexivity.
  - unfold update_category. split_handler; now split.
  - unfold update_question.
    destruct (check_admin_role u); simpl; [|now split].
    destruct (find _ (question_table db)); simpl; [|now split].
    match goal with |- context [if ?c then _ else _] => destruct c end;
      simpl; [now split|].
    destruct (setattr_question _ _); simpl; [|now split].
    destruct (existsb _ _); now split.
Qed.

(** X15.  A request changes nothing of another user's exam: with [id] a key of
    the exam table, an exam that does not belong to the caller of a request
    (or any exam, when the credentials resolve to no user) is in the table
    after the request as it was before, and, unless the request is a deletion
    from the catalog, so are the answers recorded for it. *)
Theorem exams_of_others_untouched (req : Request) (db : Database) (e : Exam) :
  exam_pk db -> In e (exam_table db) ->
  (forall u, caller req db = Some u -> Exam.user_id e <> User.id u) ->
  In e (exam_table (handle req db))
  /\ (deletes_catalog req = false ->
      exam_answers (handle req db) e = exam_answers db e).
Proof.
  intros Hpk He Hcaller.
  assert (Hother : forall x : Exam,
             In x (exam_table db) -> Exam.user_id x <> Exam.user_id e ->
             Exam.id e <> Exam.id x).
  { intros x Hx Hne Hid. apply Hne. f_equal. symmetry.
    eapply pk_injective; eauto. }
  assert (Hframe := other_routes_keep_exams req db).
  destruct req;
    try (match type of Hframe with
         | _ /\ _ => destruct Hframe as [E Ea]; rewrite E; split; [assumption|];
                      intros Hd; unfold exam_answers; now rewrite (Ea Hd)
         end);
    clear Hframe; unfold caller in Hcaller; simpl in *;
    unfold Depends_current_user in *;
    destruct (get_current_user now credentials db) as [u|]; simpl;
    try (split; [assumption|reflexivity]);
    specialize (Hcaller u eq_refl); intros.
  - destruct (start_exam_db rng now u db) as [->|[_ ->]]; simpl;
      [split; [assumption|reflexivity]|].
    split; [rewrite in_app_iff; auto|reflexivity].
  - destruct (answer_question now exam_id answer_data u db) as [db' [r|err]] eqn:H;
      simpl.
    + apply answer_question_ok in H
        as (exam & q & o & Hexam & Hu & _ & _ & _ & _ & -> & _).
      apply find_exam_id in Hexam as [Hin Hid].
      assert (Hne : Exam.id e <> Exam.id exam)
        by (apply Hother; [assumption|congruence]).
      split; [|intros _].
      * simpl. apply in_map_iff. exists e. split; [|assumption].
        rewrite scored_id. now apply Z.eqb_neq in Hne as ->.
      * unfold exam_answers. simpl. rewrite filter_app. simpl.
        subst exam_id. apply not_eq_sym, Z.eqb_neq in Hne. rewrite Hne.
        apply app_nil_r.
    + apply answer_question_raises in H as ->. split; [assumption|reflexivity].
  - destruct (finish_exam now exam_id u db) as [db' [r|err]] eqn:H; simpl.
    + apply finish_exam_ok in H as (exam & Hexam & Hu & _ & _ & -> & _).
      apply find_exam_id in Hexam as [Hin Hid].
      assert (Hne : Exam.id e <> Exam.id exam)
        by (apply Hother; [assumption|congruence]).
      split; [|reflexivity].
      simpl. apply in_map_iff. exists e. split; [|assumption].
      now apply Z.eqb_neq in Hne as ->.
    + apply finish_exam_raises in H as ->. split; [assumption|reflexivity].
Qed.

(** ** Reading the exams back: the history and the detail *)

Definition later_first (a b : Exam) : Prop :=
  Exam.started_at b <= Exam.started_at a.

Lemma insert_by_started_at_desc_rows (e : Exam) (l : list Exam) :
  Permutation (insert_by_started_at_desc e l) (e :: l).
Proof.
  induction l as [|x l IH]; simpl; [reflexivity|].
  destruct (Exam.started_at x <=? Exam.started_at e); [reflexivity|].
  rewrite IH. apply perm_swap.
Qed.

Lemma order_by_started_at_desc_rows (l : list Exam) :
  Permutation (order_by_started_at_desc l) l.
Proof.
  induction l as [|e l IH]; simpl; [reflexivity|].
  rewrite insert_by_started_at_desc_rows. now constructor.
Qed.

Lemma insert_by_started_at_desc_sorted (e : Exam) (l : list Exam) :
  StronglySorted later_first l ->
  StronglySorted later_first (insert_by_started_at_desc e l).
Proof.
  induction l as [|x l IH]; simpl; intros Hs.
  - constructor; constructor.
  - inversion Hs as [|? ? Hl Hx]; subst.
    destruct (Z.leb_spec (Exam.started_at x) (Exam.started_at e)) as [Hle|Hgt].
    + constructor; [assumption|]. constructor; [exact Hle|].
      eapply Forall_impl; [|exact Hx]. unfold later_first. intros; lia.
    + constructor; [now apply IH|].
      apply Forall_forall. intros y Hy.
      apply (Permutation_in _ (insert_by_started_at_desc_rows e l)) in Hy
        as [<-|Hy].
      * unfold later_first. lia.
      * revert y Hy. now apply Forall_forall.
Qed.

Lemma order_by_started_at_desc_sorted (l : list Exam) :
  StronglySorted later_first (order_by_started_at_desc l).
Proof.
  induction l as [|e l IH]; simpl; [constructor|].
  now apply insert_by_started_at_desc_sorted.
Qed.

Lemma page_rows {A : Type} (limit offset : nat) (l : list A) (x : A) :
  In x (firstn limit (skipn offset l)) -> In x l.
Proof.
  intros Hx. rewrite <- (firstn_skipn offset l), in_app_iff. right.
  rewrite <- (firstn_skipn limit (skipn offset l)), in_app_iff. now left.
Qed.

Lemma page_sorted {A : Type} (R : A -> A -> Prop) (limit offset : nat)
  (l : list A) :
  StronglySorted R l -> StronglySorted R (firstn limit (skipn offset l)).
Proof.
  intros Hs.
  assert (Hskip : StronglySorted R (skipn offset l)).
  { revert l Hs. induction offset as [|n IH]; intros [|x l] Hs; simpl; auto.
    inversion Hs; auto. }
  clear Hs. revert limit. induction Hskip as [|x l' Hl IH Hx]; intros [|n];
    simpl; try constructor.
  - apply IH.
  - apply Forall_forall. intros y Hy. apply (proj1 (Forall_forall _ _) Hx).
    apply (page_rows n 0 l' y Hy).
Qed.

(** The rows the query of [get_user_exams] selects, before ordering and
    paging. *)
Definition exams_query (status : option ExamStatusChoices.t) (u : User)
  (db : Database) : list Exam :=
  let query := filter (fun e => Exam.user_id e =? User.id u) (exam_table db) in
  match status with
  | Some status =>
      filter (fun e => ExamStatusChoices.eqb (Exam.status e) status) query
  | None => query
  end.

Lemma get_user_exams_pages status limit offset u db :
  get_user_exams status limit offset u db
  = firstn (Z.to_nat limit)
      (skipn (Z.to_nat offset)
         (order_by_started_at_desc (exams_query status u db))).
Proof. reflexivity. Qed.

Lemma exams_query_rows status u db e :
  In e (exams_query status u db) <->
  In e (exam_table db) /\ Exam.user_id e = User.id u
  /\ forall s, status = Some s -> Exam.status e = s.
Proof.
  unfold exams_query. destruct status as [s|].
  - rewrite !filter_In, Z.eqb_eq, status_eqb_eq. split.
    + intros [[H1 H2] H3]. repeat split; auto. intros s' E. congruence.
    + intros (H1 & H2 & H3). auto.
  - rewrite filter_In, Z.eqb_eq. split.
    + intros [H1 H2]. repeat split; auto. discriminate.
    + intros (H1 & H2 & _). auto.
Qed.

Lemma exams_query_length status u db :
  (List.length (exams_query status u db) <= List.length (exam_table db))%nat.
Proof.
  unfold exams_query. destruct status;
    repeat (etransitivity; [apply filter_length_le|]); auto.
Qed.

Lemma get_user_exams_listed status limit offset u db e :
  In e (get_user_exams status limit offset u db) ->
  In e (exams_query status u db).
Proof.
  rewrite get_user_exams_pages. intros He.
  apply (Permutation_in _ (order_by_started_at_desc_rows _)).
  eapply page_rows; eassumption.
Qed.

Lemma get_user_exams_complete status limit u db e :
  len (exam_table db) <= limit ->
  In e (exams_query status u db) ->
  In e (get_user_exams status limit 0 u db).
Proof.
  intros Hall He. rewrite get_user_exams_pages. simpl skipn.
  rewrite firstn_all2.
  - now apply (Permutation_in _ (Permutation_sym (order_by_started_at_desc_rows _))).
  - rewrite (Permutation_length (order_by_started_at_desc_rows _)).
    assert (H := exams_query_length status u db). unfold len in Hall. lia.
Qed.

(** X16.  [GET /exams/] for a limit and an offset that are not negative returns
    exams of the caller only, with the status asked for when one is given, at
    most [limit] of them, the latest started first; and from offset 0 with a
    limit that is not less than the number of exams it returns every exam of
    the caller that has the status asked for. *)
Theorem get_user_exams_lists_own_exams (status : option ExamStatusChoices.t)
  (limit offset : Z) (u : User) (db : Database) :
  0 <= limit -> 0 <= offset ->
  let exams := get_user_exams status limit offset u db in
  (forall e, In e exams ->
             In e (exam_table db) /\ Exam.user_id e = User.id u
             /\ forall s, status = Some s -> Exam.status e = s)
  /\ len exams <= limit
  /\ StronglySorted later_first exams
  /\ (offset = 0 -> len (exam_table db) <= limit ->
      forall e, In e (exam_table db) -> Exam.user_id e = User.id u ->
                (forall s, status = Some s -> Exam.status e = s) ->
                In e exams).
Proof.
  intros Hlimit Hoffset exams. subst exams. split; [|split; [|split]].
  - intros e He. now apply get_user_exams_listed, exams_query_rows in He.
  - rewrite get_user_exams_pages. unfold len. rewrite length_firstn. lia.
  - rewrite get_user_exams_pages.
    apply page_sorted, order_by_started_at_desc_sorted.
  - intros -> Hall e He Hu Hs.
    apply get_user_exams_complete; [assumption|]. apply exams_query_rows. auto.
Qed.

(** X17.  The detail of an exam is readable by its owner and by nobody else:
    [GET /exams/{id}] returns a row of the exam table that has the identifier
    asked for and belongs to the caller, or raises; with [id] a key of the
    table, it returns every exam of the caller, says 403 for every exam of
    somebody else and 404 for an identifier that no exam has. *)
Theorem get_exam_detail_is_for_the_owner (u : User) (db : Database) :
  exam_pk db ->
  (forall exam_id e, get_exam_detail exam_id u db = Ok e ->
                     In e (exam_table db) /\ Exam.id e = exam_id
                     /\ Exam.user_id e = User.id u)
  /\ (forall e, In e (exam_table db) ->
                get_exam_detail (Exam.id e) u db
                = if Exam.user_id e =? User.id u then Ok e
                  else Raise (HTTPException 403 "Это не ваш экзамен"))
  /\ (forall exam_id, ~ In exam_id (map Exam.id (exam_table db)) ->
                      get_exam_detail exam_id u db
                      = Raise (HTTPException 404 "Экзамен не найден")).
Proof.
  intros Hpk. unfold get_exam_detail. repeat split.
  1-3: destruct (find _ (exam_table db)) as [x|] eqn:Hfind; [|discriminate];
       destruct (Z.eqb_spec (Exam.user_id x) (User.id u)); simpl in *;
       [|discriminate]; injection H as <-;
       apply find_exam_id in Hfind as [Hin Hid]; auto.
  - intros e He.
    destruct (find _ (exam_table db)) as [x|] eqn:Hfind.
    + apply find_exam_id in Hfind as [Hin Hid].
      assert (x = e) as -> by (eapply pk_injective; eauto).
      now destruct (Exam.user_id e =? User.id u).
    + apply find_none with (x := e) in Hfind; [|assumption].
      now rewrite Z.eqb_refl in Hfind.
  - intros exam_id Hno.
    destruct (find _ (exam_table db)) as [x|] eqn:Hfind; [|reflexivity].
    apply find_exam_id in Hfind as [Hin Hid]. exfalso. apply Hno.
    rewrite <- Hid. now apply in_map.
Qed.

(** X18.  What [start_exam] creates can be read back: after a successful start
    the detail of the identifier in the response is, for the caller, the new
    exam (in progress, score 0, started now, no finish time), it is 403 for a
    user with another identifier, and the caller's history of exams in
    progress, read from offset 0 with the size of the table as limit,
    contains it. *)
Theorem start_exam_then_read (rng : nat -> nat) (now : datetime) (u : User)
  (db db' : Database) (r : ExamStartResponseSchema.t) :
  start_exam rng now u db = (db', Ok r) ->
  let exam := {| Exam.id := ExamStartResponseSchema.exam_id r;
                 Exam.user_id := User.id u;
                 Exam.status := ExamStatusChoices.in_progress;
                 Exam.started_at := now;
                 Exam.score := 0;
                 Exam.finished_at := None |} in
  get_exam_detail (ExamStartResponseSchema.exam_id r) u db' = Ok exam
  /\ (forall other, User.id other <> User.id u ->
        get_exam_detail (ExamStartResponseSchema.exam_id r) other db'
        = Raise (HTTPException 403 "Это не ваш экзамен"))
  /\ In exam (get_user_exams (Some ExamStatusChoices.in_progress)
                (len (exam_table db')) 0 u db').
Proof.
  intros H exam. apply start_exam_ok in H as (Hnone & _ & -> & Hid).
  assert (Hexam : exam = started_exam now u db).
  { subst exam. rewrite Hid. reflexivity. }
  rewrite Hid.
  assert (Hfind : find (fun e => Exam.id e =? Exam.id (started_exam now u db))
                       (exam_table db ++ [started_exam now u db])%list
                  = Some (started_exam now u db)).
  { apply find_snoc_fresh; [|apply Z.eqb_refl].
    intros e He. apply Z.eqb_neq. intros E.
    apply (next_id_fresh (map Exam.id (exam_table db))).
    change (next_id (map Exam.id (exam_table db)))
      with (Exam.id (started_exam now u db)).
    rewrite <- E. now apply in_map. }
  unfold get_exam_detail. simpl exam_table. rewrite Hfind. simpl.
  rewrite Z.eqb_refl. simpl. repeat split.
  - now rewrite Hexam.
  - intros other Hne. apply not_eq_sym, Z.eqb_neq in Hne. now rewrite Hne.
  - rewrite Hexam. apply get_user_exams_complete; [simpl; lia|].
    apply exams_query_rows. simpl. rewrite in_app_iff. repeat split.
    + right. now left.
    + intros s E. now injection E as <-.
Qed.

(** ** The catalog under the requests *)

(** Every answer option belongs to a question of the catalog, and every
    question has what [QuestionCreateSchema] asks of its options: at least
    two of them, exactly one of them correct. *)
Definition options_valid (db : Database) : Prop :=
  (forall o, In o (answer_option_table db) ->
             In (AnswerOption.question_id o) (map Question.id (question_table db)))
  /\ forall q, In q (question_table db) ->
               2 <= len (question_options db q)
               /\ len (filter AnswerOption.is_correct (question_options db q)) = 1.

(** Every recorded answer is to a question of the catalog and selects an
    option of that question, whose correctness it carries. *)
Definition answers_refer (db : Database) : Prop :=
  forall a, In a (exam_answer_table db) ->
    In (ExamAnswer.question_id a) (map Question.id (question_table db))
    /\ exists o, In o (answer_option_table db)
                 /\ AnswerOption.id o = ExamAnswer.selected_option_id a
                 /\ AnswerOption.question_id o = ExamAnswer.question_id a
                 /\ AnswerOption.is_correct o = ExamAnswer.is_correct a.

(** The tables the two properties read. *)
Definition same_catalog (db db' : Database) : Prop :=
  map Question.id (question_table db') = map Question.id (question_table db)
  /\ answer_option_table db' = answer_option_table db
  /\ exam_answer_table db' = exam_answer_table db.

Lemma same_catalog_refl db : same_catalog db db.
Proof. repeat split. Qed.

Lemma replaced_question_ids (question : Question) (l : list Question) :
  map Question.id
    (map (fun q => if Question.id q =? Question.id question then question else q) l)
  = map Question.id l.
Proof.
  induction l as [|row rows IH]; simpl; [reflexivity|].
  rewrite IH. destruct (Z.eqb_spec (Question.id row) (Question.id question)) as [E|];
    [now rewrite E|reflexivity].
Qed.

Lemma added_options (question_id : Z) (options : list AnswerOptionCreateSchema.t)
  (db : Database) :
  let db' := fold_left (add_answer_option question_id) options db in
  question_table db' = question_table db
  /\ exam_answer_table db' = exam_answer_table db
  /\ exists news,
       answer_option_table db' = (answer_option_table db ++ news)%list
       /\ Forall (fun n => AnswerOption.question_id n = question_id) news
       /\ map AnswerOption.is_correct news
          = map AnswerOptionCreateSchema.is_correct options.
Proof.
  revert db. induction options as [|o options IH]; intros db; simpl.
  - repeat split. exists []. now rewrite app_nil_r.
  - destruct (IH (add_answer_option question_id db o))
      as (Hq & Ha & news & Ho & Hnews & Hflags).
    rewrite Hq, Ha. repeat split.
    eexists (_ :: news). rewrite Ho. simpl. rewrite <- app_assoc. simpl.
    split; [reflexivity|]. split; [constructor; [reflexivity|assumption]|].
    simpl. now rewrite Hflags.
Qed.

Lemma validate_options_ok v v' :
  validate_options v = Ok v' ->
  v' = v /\ 2 <= len v
  /\ len (filter AnswerOptionCreateSchema.is_correct v) = 1.
Proof.
  unfold validate_options.
  destruct (Z.ltb_spec (len v) 2); [discriminate|].
  destruct (Z.eqb_spec (len (filter AnswerOptionCreateSchema.is_correct v)) 1);
    simpl; [|discriminate].
  intros E. injection E as <-. auto.
Qed.

Lemma filter_flags {A B : Type} (f : A -> bool) (g : B -> bool)
  (l : list A) (l' : list B) :
  map f l = map g l' ->
  List.length (filter f l) = List.length (filter g l').
Proof.
  revert l'. induction l as [|a l IH]; intros [|b l'] E; try discriminate;
    [reflexivity|].
  simpl in *. injection E as E1 E2. rewrite E1.
  destruct (g b); simpl; now rewrite (IH l').
Qed.

Lemma filter_every {A : Type} (p : A -> bool) (l : list A) :
  (forall y, In y l -> p y = true) -> filter p l = l.
Proof.
  intros Hl. apply forallb_filter_id, forallb_forall, Hl.
Qed.

Lemma kept_ids {A : Type} (key : A -> Z) (x k : Z) (l : list A) :
  In k (map key l) -> k <> x ->
  In k (map key (filter (fun a => negb (key a =? x)) l)).
Proof.
  rewrite !in_map_iff. intros (a & <- & Ha) Hne. exists a. split; [reflexivity|].
  apply filter_In. split; [assumption|]. now apply Z.eqb_neq in Hne as ->.
Qed.

Ltac same_tables := unfold same_catalog; simpl; repeat split.

(** A property of the catalog that survives the four ways the routes write
    to it survives every request. *)
Lemma handle_catalog (P : Database -> Prop) :
  (forall db db', same_catalog db db' -> P db -> P db') ->
  (forall now exam_id answer_data u db db' r,
      answer_question now exam_id answer_data u db = (db', Ok r) -> P db -> P db') ->
  (forall now question_data u db options,
      validate_options (QuestionCreateSchema.options question_data) = Ok options ->
      P db -> P (fst (create_question now question_data u db))) ->
  (forall question_id db, P db -> P (cascade_delete_question question_id db)) ->
  forall req db, P db -> P (handle req db).
Proof.
  intros Hsame Hanswer Hcreate Hdelete req db HP.
  assert (Hframe : forall db', same_catalog db db' -> P db')
    by (intros; eapply Hsame; eauto).
  destruct req; simpl;
    try (destruct (validate_options (QuestionCreateSchema.options question_data))
           as [options|] eqn:Hv; [|assumption]);
    try (unfold Depends_current_user;
         destruct (get_current_user now credentials db) as [u|]; simpl;
         [|assumption]).
  - apply Hframe. unfold register. split_handler; same_tables.
  - apply Hframe. unfold login. split_handler; same_tables.
  - apply Hframe. unfold refresh_token. split_handler; same_tables.
  - apply Hframe. unfold logout. split_handler; same_tables.
  - apply Hframe.
    destruct (start_exam_db rng now u db) as [->|[_ ->]]; same_tables.
  - destruct (answer_question now exam_id answer_data u db) as [db' [r|e]] eqn:H;
      simpl.
    + eapply Hanswer; eauto.
    + now apply answer_question_raises in H as ->.
  - apply Hframe.
    destruct (finish_exam_db now exam_id u db) as [->|(exam & _ & _ & ->)];
      same_tables.
  - now rewrite update_current_user_profile_db.
  - apply Hframe. unfold admin_update_user, commit_user.
    destruct (negb _); simpl; [same_tables|].
    destruct (find _ _) as [user|]; simpl; [|same_tables].
    destruct (assign_password_if _ _ _ _) as [u'|]; simpl;
      [|same_tables].
    destruct (existsb _ _); same_tables.
  - apply Hframe. unfold create_category. split_handler; same_tables.
  - unfold delete_category.
    destruct (check_admin_role u); simpl; [|assumption].
    destruct (find _ _) as [c|]; simpl; [|assumption].
    unfold cascade_delete_category.
    match goal with |- context [fold_left ?f ?l db] =>
      assert (Hfold : P (fold_left f l db))
    end.
    { generalize (filter (fun q => Question.category_id q =? Category.id c)
                         (question_table db)).
      intros qs. revert db HP Hframe.
      induction qs as [|q qs IH]; intros db HP _; simpl; [assumption|].
      apply IH; [now apply Hdelete|]. intros; eapply Hsame; eauto. }
    eapply Hsame; [|exact Hfold]. same_tables.
  - eapply Hcreate; eauto.
  - unfold delete_question.
    destruct (check_admin_role u); simpl; [|assumption].
    destruct (find _ _); simpl; [|assumption].
    now apply Hdelete.
  - apply Hframe. unfold update_category. split_handler; same_tables.
  - apply Hframe. unfold update_question.
    destruct (check_admin_role u); simpl; [|same_tables].
    destruct (find _ (question_table db)); simpl; [|same_tables].
    match goal with |- context [if ?c then _ else _] => destruct c end;
      simpl; [same_tables|].
    destruct (setattr_question _ _) as [q|]; simpl; [|same_tables].
    destruct (existsb _ _); simpl; [|same_tables].
    repeat split. simpl. apply replaced_question_ids.
Qed.

Lemma question_options_same db db' q q' :
  answer_option_table db' = answer_option_table db ->
  Question.id q' = Question.id q ->
  question_options db' q' = question_options db q.
Proof. unfold question_options. now intros -> ->. Qed.

(** X19.  Every question of the catalog keeps a well-formed set of options:
    given a database where each answer option belongs to a question of the
    catalog and each question has at least two options, exactly one of them
    correct, the database after any request is such a database. *)
Theorem questions_keep_valid_options (req : Request) (db : Database) :
  options_valid db -> options_valid (handle req db).
Proof.
  revert req db. apply handle_catalog.
  - intros db db' (Hq & Ho & _) [Hfk Hvalid]. split.
    + intros o. rewrite Ho, Hq. apply Hfk.
    + intros q' Hq'. apply (in_map Question.id) in Hq'. rewrite Hq in Hq'.
      apply in_map_iff in Hq' as (q & Hid & Hin).
      rewrite (question_options_same db db' q q') by auto. now apply Hvalid.
  - intros now exam_id answer_data u db db' r H HP.
    apply answer_question_ok in H
      as (exam & q & o & _ & _ & _ & _ & _ & _ & -> & _).
    exact HP.
  - intros now question_data u db options Hv [Hfk Hvalid].
    apply validate_options_ok in Hv as (_ & Hlen & Hone).
    unfold create_question.
    destruct (check_admin_role u); simpl; [|now split].
    destruct (find _ (category_table db)); simpl; [|now split].
    set (new_id := next_id (map Question.id (question_table db))).
    match goal with |- context [fold_left _ _ ?d] =>
      destruct (added_options new_id (QuestionCreateSchema.options question_data) d)
        as (Hq & _ & news & Ho & Hnews & Hflags)
    end.
    simpl in Hq, Ho.
    assert (Hfresh : forall o, In o (answer_option_table db) ->
                               (AnswerOption.question_id o =? new_id) = false).
    { intros o Hin. apply Z.eqb_neq. intros E.
      apply (next_id_fresh (map Question.id (question_table db))).
      fold new_id. rewrite <- E. now apply Hfk. }
    split.
    + intros o. rewrite Ho, Hq, map_app, !in_app_iff. simpl.
      intros [Hin|Hin]; [left; now apply Hfk|].
      right. left. symmetry. revert o Hin. now apply Forall_forall.
    + intros q. rewrite Hq, in_app_iff. unfold question_options. rewrite Ho.
      rewrite filter_app. intros [Hin|[<-|[]]].
      * rewrite (filter_none _ news), app_nil_r; [now apply Hvalid|].
        intros n Hn. apply (proj1 (Forall_forall _ _) Hnews) in Hn.
        rewrite Hn. apply Z.eqb_neq. intros E.
        apply (next_id_fresh (map Question.id (question_table db))).
        fold new_id. rewrite E. now apply in_map.
      * simpl Question.id. rewrite (filter_none _ (answer_option_table db))
          by exact Hfresh.
        simpl. rewrite (filter_every _ news)
          by (intros n Hn; apply Z.eqb_eq; revert n Hn; now apply Forall_forall).
        unfold len in *.
        rewrite (filter_flags _ AnswerOptionCreateSchema.is_correct news
                   (QuestionCreateSchema.options question_data) Hflags).
        rewrite <- (length_map AnswerOption.is_correct news), Hflags, length_map.
        auto.
  - intros x db [Hfk Hvalid]. unfold cascade_delete_question. split; simpl.
    + intros o Ho. apply filter_In in Ho as [Ho Hne].
      apply kept_ids; [now apply Hfk|].
      apply Bool.negb_true_iff, Z.eqb_neq in Hne. exact Hne.
    + intros q Hq. apply filter_In in Hq as [Hq Hne].
      apply Bool.negb_true_iff, Z.eqb_neq in Hne.
      unfold question_options. simpl. rewrite filter_filter.
      replace (filter _ (answer_option_table db)) with (question_options db q);
        [now apply Hvalid|].
      unfold question_options. apply filter_ext. intros o.
      destruct (Z.eqb_spec (AnswerOption.question_id o) (Question.id q)) as [E|];
        [|now rewrite Bool.andb_false_r].
      rewrite E. apply Z.eqb_neq in Hne. now rewrite Hne.
Qed.

(** X20.  Recorded answers never dangle: given a database where every recorded
    answer is to a question of the catalog and selects an option of that
    question whose correctness flag it carries, the database after any
    request (creation, update and cascading deletion of questions and
    categories included) is such a database. *)
Theorem answers_keep_referring (req : Request) (db : Database) :
  answers_refer db -> answers_refer (handle req db).
Proof.
  revert req db. apply handle_catalog.
  - intros db db' (Hq & Ho & Ha) HP a. rewrite Ha, Hq, Ho. apply HP.
  - intros now exam_id answer_data u db db' r H HP.
    apply answer_question_ok in H
      as (exam & q & o & _ & _ & _ & Hq & Ho & _ & -> & _).
    intros a. simpl. rewrite in_app_iff. intros [Ha|[<-|[]]]; [now apply HP|].
    simpl. apply find_some in Hq as [Hq Hqid]. apply find_some in Ho as [Ho Hoid].
    apply Z.eqb_eq in Hqid. apply Bool.andb_true_iff in Hoid as [Hoid Hoq].
    apply Z.eqb_eq in Hoid, Hoq. split.
    + rewrite <- Hqid. now apply in_map.
    + exists o. auto.
  - intros now question_data u db options _ HP.
    unfold create_question.
    destruct (check_admin_role u); simpl; [|assumption].
    destruct (find _ (category_table db)); simpl; [|assumption].
    match goal with |- context [fold_left _ ?l ?d] =>
      destruct (added_options (next_id (map Question.id (question_table db))) l d)
        as (Hq & Ha & news & Ho & _)
    end.
    simpl in Hq, Ha, Ho. intros row. rewrite Ha, Hq, Ho. intros Hin.
    destruct (HP row Hin) as (Hqa & o & Hino & Ho').
    split; [rewrite map_app, in_app_iff; now left|].
    exists o. rewrite in_app_iff. auto.
  - intros x db HP a. unfold cascade_delete_question. simpl.
    intros Ha. apply filter_In in Ha as [Ha Hne].
    apply Bool.negb_true_iff, Z.eqb_neq in Hne.
    destruct (HP a Ha) as (Hqa & o & Hino & Hid & Hoq & Hflag).
    split; [now apply kept_ids|].
    exists o. repeat split; auto. apply filter_In. split; [assumption|].
    rewrite Hoq. now apply Bool.negb_true_iff, Z.eqb_neq.
Qed.

(** X21.  A deleted question is gone for the exams too: after a successful
    [delete_question] the catalog has no question of that identifier, no
    option of it and no answer to it, and [answer_question] for it in an
    exam in progress of any caller is refused with 404 and records
    nothing. *)
Theorem delete_question_then_answer question_id admin db db' r :
  delete_question question_id admin db = (db', Ok r) ->
  (forall q, In q (question_table db') -> Question.id q <> question_id)
  /\ (forall o, In o (answer_option_table db') ->
                AnswerOption.question_id o <> question_id)
  /\ (forall a, In a (exam_answer_table db') ->
                ExamAnswer.question_id a <> question_id)
  /\ forall now exam_id option_id u exam,
       find (fun e => Exam.id e =? exam_id) (exam_table db') = Some exam ->
       Exam.user_id exam = User.id u ->
       Exam.status exam = ExamStatusChoices.in_progress ->
       answer_question now exam_id
         {| ExamAnswerRequestSchema.question_id := question_id;
            ExamAnswerRequestSchema.option_id := option_id |} u db'
       = (db', Raise (HTTPException 404 "Вопрос не найден")).
Proof.
  unfold delete_question.
  destruct (check_admin_role admin); [|discriminate].
  destruct (find _ (question_table db)) as [question|] eqn:Hfind; [|discriminate].
  intros H. injection H as <- _.
  apply find_some in Hfind as [_ Hid]. apply Z.eqb_eq in Hid. rewrite Hid.
  assert (Hgone : forall q, In q (question_table (cascade_delete_question question_id db)) ->
                            Question.id q <> question_id).
  { intros q Hq. apply filter_In in Hq as [_ Hne].
    now apply Bool.negb_true_iff, Z.eqb_neq in Hne. }
  split; [exact Hgone|]. split; [|split].
  - intros o Ho. apply filter_In in Ho as [_ Hne].
    now apply Bool.negb_true_iff, Z.eqb_neq in Hne.
  - intros a0 Ha. apply filter_In in Ha as [_ Hne].
    now apply Bool.negb_true_iff, Z.eqb_neq in Hne.
  - intros now exam_id option_id u exam Hexam Hu Hst.
    rewrite (answer_question_checks now exam_id _ u _ exam Hexam Hu Hst).
    cbn [ExamAnswerRequestSchema.question_id].
    rewrite find_absent; [reflexivity|].
    intros q Hq. apply Z.eqb_neq. now apply Hgone.
Qed.

(** ** The category table under the requests *)

Definition categories_unique (db : Database) : Prop :=
  NoDup (map Category.id (category_table db))
  /\ NoDup (map Category.category_name (category_table db)).

Lemma added_options_categories question_id options db :
  category_table (fold_left (add_answer_option question_id) options db)
  = category_table db.
Proof.
  revert db. induction options as [|o options IH]; intros db; simpl;
    [reflexivity|]. now rewrite IH.
Qed.

Lemma cascade_delete_questions_categories (qs : list Question) (db : Database) :
  category_table
    (fold_left (fun db q => cascade_delete_question (Question.id q) db) qs db)
  = category_table db.
Proof.
  revert db. induction qs as [|q qs IH]; intros db; simpl; [reflexivity|].
  now rewrite IH.
Qed.

(** What a request does to the category table: nothing, one more category
    under a name that was free, a new name that no other category has for
    one category, or the removal of the categories of one identifier. *)
Inductive category_effect (db db' : Database) : Prop :=
| categories_same :
    category_table db' = category_table db -> category_effect db db'
| category_created (c : Category) :
    category_table db' = (category_table db ++ [c])%list ->
    Category.id c = next_id (map Category.id (category_table db)) ->
    ~ In (Category.category_name c)
         (map Category.category_name (category_table db)) ->
    category_effect db db'
| category_renamed (c : Category) :
    category_table db'
    = map (fun r => if Category.id r =? Category.id c then c else r)
          (category_table db) ->
    (forall r, In r (category_table db) -> Category.id r <> Category.id c ->
               Category.category_name r <> Category.category_name c) ->
    category_effect db db'
| category_deleted (category_id : Z) :
    category_table db'
    = filter (fun c => negb (Category.id c =? category_id)) (category_table db) ->
    category_effect db db'.

Lemma handle_category_effect (req : Request) (db : Database) :
  category_effect db (handle req db).
Proof.
  destruct req; simpl;
    try (destruct (validate_options _); [|now apply categories_same]);
    try (unfold Depends_current_user;
         destruct (get_current_user now credentials db) as [u|]; simpl;
         [|now apply categories_same]).
  - apply categories_same. unfold register. split_handler; reflexivity.
  - apply categories_same. unfold login. split_handler; reflexivity.
  - apply categories_same. unfold refresh_token. split_handler; reflexivity.
  - apply categories_same. unfold logout. split_handler; reflexivity.
  - apply categories_same.
    destruct (start_exam_db rng now u db) as [->|[_ ->]]; reflexivity.
  - apply categories_same.
    destruct (answer_question_db now exam_id answer_data u db)
      as [->|(exam & option & _ & _ & _ & ->)]; reflexivity.
  - apply categories_same.
    destruct (finish_exam_db now exam_id u db) as [->|(exam & _ & _ & ->)];
      reflexivity.
  - apply categories_same. now rewrite update_current_user_profile_db.
  - apply categories_same. unfold admin_update_user, commit_user.
    destruct (negb _); simpl; [reflexivity|].
    destruct (find _ _) as [user|]; simpl; [|reflexivity].
    destruct (assign_password_if _ _ _ _) as [u'|]; simpl; [|reflexivity].
    destruct (existsb _ _); reflexivity.
  - unfold create_category.
    destruct (check_admin_role u); simpl; [|now apply categories_same].
    destruct (find _ (category_table db)) eqn:Hfind; simpl;
      [now apply categories_same|].
    eapply category_created; simpl; try reflexivity.
    rewrite in_map_iff. intros (r & E & Hr).
    apply (find_none _ _ Hfind) in Hr. apply String.eqb_neq in Hr. auto.
  - unfold delete_category.
    destruct (check_admin_role u); simpl; [|now apply categories_same].
    destruct (find _ _) as [c|]; simpl; [|now apply categories_same].
    apply category_deleted with (Category.id c). unfold cascade_delete_category.
    simpl. now rewrite cascade_delete_questions_categories.
  - apply categories_same. unfold create_question.
    destruct (check_admin_role u); simpl; [|reflexivity].
    destruct (find _ (category_table db)); simpl; [|reflexivity].
    now rewrite added_options_categories.
  - apply categories_same. unfold delete_question. split_handler; reflexivity.
  - unfold update_category.
    destruct (check_admin_role u); simpl; [|now apply categories_same].
    destruct (find _ (category_table db)) as [c|] eqn:Hc; simpl;
      [|now apply categories_same].
    destruct (negb _); simpl; [|now apply categories_same].
    match goal with |- context [find ?p (category_table db)] =>
      destruct (find p (category_table db)) eqn:Hfind; simpl;
        [now apply categories_same|]
    end.
    apply find_some in Hc as [_ Hid]. apply Z.eqb_eq in Hid.
    apply category_renamed
      with {| Category.id := Category.id c;
              Category.category_name :=
                CategoryUpdateSchema.category_name category_data |};
      simpl; [reflexivity|].
    intros r Hr Hne E. apply (find_none _ _ Hfind) in Hr.
    rewrite E, String.eqb_refl in Hr. simpl in Hr.
    apply Bool.negb_false_iff, Z.eqb_eq in Hr. congruence.
  - apply categories_same. unfold update_question.
    destruct (check_admin_role u); simpl; [|reflexivity].
    destruct (find _ (question_table db)); simpl; [|reflexivity].
    match goal with |- context [if ?c then _ else _] => destruct c end;
      simpl; [reflexivity|].
    destruct (setattr_question _ _); simpl; [|reflexivity].
    destruct (existsb _ _); reflexivity.
Qed.

(** X22.  Category names stay unique: given a category table without repeated
    identifiers or names, the table after any request has none; the checks of
    [create_category] and [update_category] let no second category take a
    name. *)
Theorem categories_stay_unique (req : Request) (db : Database) :
  categories_unique db -> categories_unique (handle req db).
Proof.
  intros [Hids Hnames].
  destruct (handle_category_effect req db)
    as [E|c E Hid Hfree|c E Hother|category_id E];
    unfold categories_unique; rewrite E.
  - now split.
  - rewrite !map_app. simpl. split; apply NoDup_snoc; auto.
    rewrite Hid. apply next_id_fresh.
  - split; apply (replaced_column Category.id); auto.
  - split; apply keys_of_kept_rows_NoDup; assumption.
Qed.

End Deployment.

(** * A deployment to run the handlers on

    An unsigned token codec that writes the claims out and reads them back,
    a checksum that keeps the salt and the secret apart, and a small
    service: an administrator, two users, a catalog, one exam. *)

Local Open Scope char_scope.

Fixpoint put_string (s k : string) : string :=
  match s with
  | EmptyString => String "." k
  | String c s' => String "+" (String c (put_string s' k))
  end.

Fixpoint get_string (s : string) : option (string * string) :=
  match s with
  | String "." k => Some (EmptyString, k)
  | String "+" (String c s') =>
      match get_string s' with
      | Some (v, k) => Some (String c v, k)
      | None => None
      end
  | _ => None
  end.

Definition put_option (o : option string) (k : string) : string :=
  match o with
  | None => String "N" k
  | Some s => String "S" (put_string s k)
  end.

Definition get_option (s : string) : option (option string * string) :=
  match s with
  | String "N" k => Some (None, k)
  | String "S" s' =>
      match get_string s' with
      | Some (v, k) => Some (Some v, k)
      | None => None
      end
  | _ => None
  end.

Local Close Scope char_scope.

Definition demo_encode (c : Claims.t) : string :=
  put_option (Claims.sub c)
    (put_option (Claims.email c)
       (put_option (option_map str (Claims.exp c))
          (put_option (Claims.type c) ""))).

Definition demo_decode (s : string) : option Claims.t :=
  match get_option s with
  | Some (sub, s) =>
  match get_option s with
  | Some (email, s) =>
  match get_option s with
  | Some (exp, s) =>
  match get_option s with
  | Some (type, _) =>
      match exp with
      | None => Some {| Claims.sub := sub; Claims.email := email;
                        Claims.exp := None; Claims.type := type |}
      | Some e =>
          match int e with
          | Ok n => Some {| Claims.sub := sub; Claims.email := email;
                            Claims.exp := Some n; Claims.type := type |}
          | Raise _ => None
          end
      end
  | None => None end
  | None => None end
  | None => None end
  | None => None end.

Definition demo_digest (scheme : Scheme.t) (salt secret : string) : string :=
  salt ++ "$" ++ secret.

Lemma get_put_string (s k : string) : get_string (put_string s k) = Some (s, k).
Proof. induction s as [|c s IH]; simpl; [reflexivity|now rewrite IH]. Qed.

Lemma get_put_option (o : option string) (k : string) :
  get_option (put_option o k) = Some (o, k).
Proof. destruct o; simpl; [now rewrite get_put_string|reflexivity]. Qed.

Lemma demo_codec (c : Claims.t) : demo_decode (demo_encode c) = Some c.
Proof.
  destruct c as [sub email exp type]. unfold demo_decode, demo_encode. simpl.
  rewrite !get_put_option. destruct exp as [n|]; simpl; [|reflexivity].
  now rewrite int_str.
Qed.

Definition demo_handle : Request -> Database -> Database :=
  handle 30 7 demo_encode demo_decode demo_digest.

Definition demo_run : list Request -> Database -> Database :=
  run 30 7 demo_encode demo_decode demo_digest.

(** The access token [login] hands a user at [now]. *)
Definition demo_access_token (now : datetime) (u : User) : string :=
  create_access_token 30 demo_encode now
    {| Claims.sub := Some (str (User.id u)); Claims.email := Some (User.email u);
       Claims.exp := None; Claims.type := None |} None.

Definition demo_root : User :=
  {| User.id := 1; User.email := "root@pdd.example"; User.username := "root";
     User.password := {| PasswordHash.ident := Scheme.argon2;
                         PasswordHash.salt := "s0";
                         PasswordHash.checksum := "s0$toor-toor" |};
     User.role := RoleChoices.admin; User.created_at := 0 |}.

Definition demo_alice : User :=
  {| User.id := 2; User.email := "alice@pdd.example"; User.username := "alice";
     User.password := {| PasswordHash.ident := Scheme.argon2;
                         PasswordHash.salt := "s1";
                         PasswordHash.checksum := "s1$wonderland" |};
     User.role := RoleChoices.user; User.created_at := 10 |}.

Definition demo_bob : User :=
  {| User.id := 3; User.email := "bob@pdd.example"; User.username := "bob";
     User.password := {| PasswordHash.ident := Scheme.argon2;
                         PasswordHash.salt := "s2";
                         PasswordHash.checksum := "s2$builder" |};
     User.role := RoleChoices.user; User.created_at := 11 |}.

Definition demo_question (k : nat) : QuestionCreateSchema.t :=
  {| QuestionCreateSchema.text := "question " ++ str (Z.of_nat k);
     QuestionCreateSchema.image := None;
     QuestionCreateSchema.explanation := "because";
     QuestionCreateSchema.difficulty := DifficultyChoices.easy;
     QuestionCreateSchema.category_id := 1;
     QuestionCreateSchema.options :=
       [ {| AnswerOptionCreateSchema.text := "yes";
            AnswerOptionCreateSchema.is_correct := true |};
         {| AnswerOptionCreateSchema.text := "no";
            AnswerOptionCreateSchema.is_correct := false |} ] |}.

(** The administrator is seeded; the users register; the administrator
    fills a category with 21 questions, each with a right option (key
    [2k - 1]) and a wrong one (key [2k]). *)
Definition demo_seed : Database := with_users [demo_root] empty_db.

Definition demo_setup : list Request :=
  ([ POST_auth_register "s1" 10
       {| UserCreateSchema.email := "alice@pdd.example";
          UserCreateSchema.username := "alice";
          UserCreateSchema.password := "wonderland" |};
     POST_auth_register "s2" 11
       {| UserCreateSchema.email := "bob@pdd.example";
          UserCreateSchema.username := "bob";
          UserCreateSchema.password := "builder" |};
     POST_categories (demo_access_token 20 demo_root) 20
       {| CategoryCreateSchema.category_name := "signs" |} ]
   ++ map (fun k => POST_questions (demo_access_token 20 demo_root) 30
                      (demo_question k))
          (seq 1 21))%list.

Definition demo_catalog : Database := demo_run demo_setup demo_seed.

(** Alice starts an exam; every draw of the generator is 0. *)
Definition demo_started : Database :=
  demo_handle (POST_exams_start (demo_access_token 90 demo_alice) (fun _ => O) 100)
    demo_catalog.

(** Alice answers the questions 1 to [n], the first [wrong] of them with
    the wrong option. *)
Definition demo_answer (wrong k : nat) : ExamAnswerRequestSchema.t :=
  {| ExamAnswerRequestSchema.question_id := Z.of_nat k;
     ExamAnswerRequestSchema.option_id :=
       if (k <=? wrong)%nat then 2 * Z.of_nat k else 2 * Z.of_nat k - 1 |}.

Definition demo_answered (n wrong : nat) : Database :=
  demo_run (map (fun k => POST_exams_answer (demo_access_token 90 demo_alice)
                            (200 + Z.of_nat k) 1 (demo_answer wrong k))
                (seq 1 n))
           demo_started.

Definition demo_exam (score : Z) : Exam :=
  {| Exam.id := 1; Exam.user_id := 2; Exam.score := score;
     Exam.status := ExamStatusChoices.in_progress; Exam.started_at := 100;
     Exam.finished_at := None |}.

Definition demo_login := login 30 7 demo_encode demo_digest.
Definition demo_refresh_token := refresh_token 30 demo_encode demo_decode.

Definition demo_alice_account : UserCreateSchema.t :=
  {| UserCreateSchema.email := "alice@pdd.example";
     UserCreateSchema.username := "alice";
     UserCreateSchema.password := "wonderland" |}.

Definition demo_alice_login : UserLoginSchema.t :=
  {| UserLoginSchema.email := "alice@pdd.example";
     UserLoginSchema.password := "wonderland" |}.

(** Alice finishes her exam after 20 answers, two of them wrong. *)
Definition demo_finished : Database :=
  demo_handle (POST_exams_finish (demo_access_token 90 demo_alice) 300 1)
    (demo_answered 20 2).

(** A list of keys has no repeats when the check says so. *)
Fixpoint distinct (l : list Z) : bool :=
  match l with
  | [] => true
  | x :: l' => negb (existsb (Z.eqb x) l') && distinct l'
  end.

Lemma distinct_NoDup (l : list Z) : distinct l = true -> NoDup l.
Proof.
  induction l as [|x l IH]; simpl; [constructor|].
  intros H. apply andb_prop in H as [Hx Hl]. constructor; [|auto].
  intros Hin. apply negb_true_iff in Hx.
  assert (existsb (Z.eqb x) l = true) as E
    by (apply existsb_exists; exists x; split; [auto|apply Z.eqb_refl]).
  congruence.
Qed.

Lemma demo_seed_invariants : exam_pk demo_seed /\ one_in_progress demo_seed.
Proof. split; [constructor|]. intros uid. simpl. lia. Qed.

(** ** The theorems at work on the service, and the inputs that set the
    code apart from what was claimed of it *)

(** C1, witness: Alice's exam with 20 answers and score 18 is hers and in
    progress; [finish_exam] succeeds on it with [passed] true. *)
Lemma finish_exam_requires_all_answers_witness :
  find (fun e => Exam.id e =? 1) (exam_table (demo_answered 20 2))
  = Some (demo_exam 18)
  /\ Exam.user_id (demo_exam 18) = User.id demo_alice
  /\ Exam.status (demo_exam 18) = ExamStatusChoices.in_progress
  /\ len (exam_answers (demo_answered 20 2) (demo_exam 18)) = 20
  /\ exists db' r,
       finish_exam 300 1 demo_alice (demo_answered 20 2) = (db', Ok r)
       /\ ExamFinishResponseSchema.passed r = true.
Proof.
  assert (find (fun e => Exam.id e =? 1) (exam_table (demo_answered 20 2))
          = Some (demo_exam 18)) as Hfind by (vm_compute; reflexivity).
  assert (len (exam_answers (demo_answered 20 2) (demo_exam 18)) = 20) as Hlen
    by (vm_compute; reflexivity).
  assert (H := finish_exam_requires_all_answers 300 1 demo_alice
                 (demo_answered 20 2) (demo_exam 18) Hfind eq_refl eq_refl).
  cbv zeta in H. destruct H as (_ & _ & _ & _ & _ & Hpass & _).
  destruct (Hpass Hlen eq_refl) as (db' & r & _ & Hok & _ & _ & _ & _ & _ & Hp & _).
  repeat split; auto. exists db', r. auto.
Defined.

(** C1, counterexample.  Alice answers all 21 questions of the catalog in
    her exam, one more than [EXAM_QUESTIONS_COUNT]; the exam is hers and in
    progress, 21 answers are recorded, not 20, and [finish_exam] succeeds:
    success does not need exactly 20 recorded answers. *)
Lemma finish_exam_with_21_answers :
  find (fun e => Exam.id e =? 1) (exam_table (demo_answered 21 0))
  = Some (demo_exam 21)
  /\ Exam.user_id (demo_exam 21) = User.id demo_alice
  /\ Exam.status (demo_exam 21) = ExamStatusChoices.in_progress
  /\ len (exam_answers (demo_answered 21 0) (demo_exam 21)) = 21
  /\ len (exam_answers (demo_answered 21 0) (demo_exam 21)) <> EXAM_QUESTIONS_COUNT
  /\ snd (finish_exam 300 1 demo_alice (demo_answered 21 0))
     = Ok {| ExamFinishResponseSchema.message := "Экзамен завершен";
             ExamFinishResponseSchema.exam_id := 1;
             ExamFinishResponseSchema.score := 21;
             ExamFinishResponseSchema.total_questions := 21;
             ExamFinishResponseSchema.passed := true;
             ExamFinishResponseSchema.finished_at := 300 |}
  /\ ~ ((exists db' r,
            finish_exam 300 1 demo_alice (demo_answered 21 0) = (db', Ok r))
        <-> len (exam_answers (demo_answered 21 0) (demo_exam 21))
            = EXAM_QUESTIONS_COUNT).
Proof.
  assert (len (exam_answers (demo_answered 21 0) (demo_exam 21)) = 21) as Hlen
    by (vm_compute; reflexivity).
  assert (snd (finish_exam 300 1 demo_alice (demo_answered 21 0))
          = Ok {| ExamFinishResponseSchema.message := "Экзамен завершен";
                  ExamFinishResponseSchema.exam_id := 1;
                  ExamFinishResponseSchema.score := 21;
                  ExamFinishResponseSchema.total_questions := 21;
                  ExamFinishResponseSchema.passed := true;
                  ExamFinishResponseSchema.finished_at := 300 |}) as Hok
    by (vm_compute; reflexivity).
  split; [vm_compute; reflexivity|].
  split; [reflexivity|]. split; [reflexivity|]. split; [exact Hlen|].
  split; [rewrite Hlen; discriminate|]. split; [exact Hok|].
  intros [Hiff _]. rewrite Hlen in Hiff.
  assert (21 = EXAM_QUESTIONS_COUNT) as E; [|discriminate E].
  apply Hiff.
  destruct (finish_exam 300 1 demo_alice (demo_answered 21 0)) as [db' [r|e]];
    [eauto|discriminate Hok].
Qed.

(** C2, witness: the service with Alice's exam in progress satisfies the
    invariant; it still does after Bob starts an exam of his own; and a
    second [start_exam] by Alice is refused, no exam created. *)
Lemma one_exam_in_progress_per_user_witness :
  (exam_pk demo_started /\ one_in_progress demo_started)
  /\ one_in_progress
       (demo_handle
          (POST_exams_start (demo_access_token 90 demo_bob) (fun _ => 1%nat) 150)
          demo_started)
  /\ start_exam (fun _ => O) 150 demo_alice demo_started
     = (demo_started,
        Raise (HTTPException 400
          "У вас уже есть активный экзамен. Завершите его перед началом нового.")).
Proof.
  destruct (one_exam_in_progress_per_user 30 7 demo_encode demo_decode demo_digest)
    as (_ & Hstep & Hrun & _ & Hstart).
  destruct demo_seed_invariants as [Hpk Hone].
  destruct (Hrun demo_setup demo_seed Hpk Hone) as [Hpk1 Hone1].
  assert (exam_pk demo_started /\ one_in_progress demo_started) as [Hpk2 Hone2]
    by (apply Hstep; assumption).
  split; [split; assumption|].
  split; [apply Hstep; assumption|].
  apply Hstart with (demo_exam 0); [vm_compute; left|..]; reflexivity.
Defined.

(** C3, witness: Alice's first answer to question 1 is accepted; a second
    answer to question 1, with the same option or with the other option of
    the question, is refused with 400 and changes nothing. *)
Lemma answer_question_once_per_question_witness :
  answer_question 201 1 (demo_answer 0 1) demo_alice demo_started
  = (demo_answered 1 0,
     Ok {| ExamAnswerResponseSchema.message := "Ответ сохранен";
           ExamAnswerResponseSchema.is_correct := true;
           ExamAnswerResponseSchema.current_score := 1 |})
  /\ answer_question 202 1 (demo_answer 0 1) demo_alice (demo_answered 1 0)
     = (demo_answered 1 0, Raise (HTTPException 400 "Вы уже ответили на этот вопрос"))
  /\ answer_question 202 1 (demo_answer 1 1) demo_alice (demo_answered 1 0)
     = (demo_answered 1 0, Raise (HTTPException 400 "Вы уже ответили на этот вопрос"))
  /\ answer_unique (demo_answered 1 0).
Proof.
  assert (answer_question 201 1 (demo_answer 0 1) demo_alice demo_started
          = (demo_answered 1 0,
             Ok {| ExamAnswerResponseSchema.message := "Ответ сохранен";
                   ExamAnswerResponseSchema.is_correct := true;
                   ExamAnswerResponseSchema.current_score := 1 |})) as Hok
    by (vm_compute; reflexivity).
  destruct (answer_question_once_per_question 30 7 demo_encode demo_decode
              demo_digest) as (_ & Hstep & Hagain).
  split; [exact Hok|].
  split; [|split].
  - destruct (Hagain _ _ _ _ _ _ _ Hok 202 1) as (_ & _ & Hsame & _).
    apply Hsame. reflexivity.
  - destruct (Hagain _ _ _ _ _ _ _ Hok 202 2) as (_ & Hbelongs & _).
    apply Hbelongs.
    exists {| AnswerOption.id := 2; AnswerOption.question_id := 1;
              AnswerOption.text := "no"; AnswerOption.is_correct := false |}.
    split; [vm_compute; right; left; reflexivity|split; reflexivity].
  - apply Hstep.
    assert (exam_answer_table demo_started = []) as E by (vm_compute; reflexivity).
    unfold answer_unique. rewrite E. constructor.
Defined.

(** C4, witness: Alice registers with a password of ten characters; she
    logs in with it and is refused with another one. *)
Lemma register_then_login_witness :
  str_len "wonderland" <= MAX_PASSWORD_SIZE
  /\ exists db1 r,
       register demo_digest "s1" 10 demo_alice_account demo_seed = (db1, Ok r)
       /\ (exists db2 tokens, demo_login 50 demo_alice_login db1 = (db2, Ok tokens))
       /\ demo_login 50
            {| UserLoginSchema.email := "alice@pdd.example";
               UserLoginSchema.password := "looking-glass" |} db1
          = (db1, Raise (HTTPException 401 "Неверный email или пароль")).
Proof.
  assert (str_len "wonderland" <= MAX_PASSWORD_SIZE) as Hsize
    by (vm_compute; discriminate).
  split; [exact Hsize|].
  destruct (register_then_login 30 7 demo_encode demo_digest "s1" 10
              demo_alice_account demo_seed) as [Hsized _].
  - intros u [<-|[]]. discriminate.
  - intros u [<-|[]]. discriminate.
  - destruct (Hsized Hsize) as (db1 & r & Hreg & _ & _ & Hlogin & _ & Hwrong & _).
    exists db1, r. split; [exact Hreg|]. split.
    + destruct (Hlogin 50) as (db2 & tokens & H & _). now exists db2, tokens.
    + apply Hwrong; [| |discriminate].
      * intros secret H. unfold demo_digest in H. simpl in H. now injection H.
      * vm_compute. discriminate.
Defined.

(** A password of 4097 characters, which the schemas accept. *)
Fixpoint repeat_char (c : ascii) (n : nat) : string :=
  match n with
  | O => EmptyString
  | S n' => String c (repeat_char c n')
  end.

Definition demo_long_password : string := repeat_char "a"%char 4097.

Definition demo_carol_account : UserCreateSchema.t :=
  {| UserCreateSchema.email := "carol@pdd.example";
     UserCreateSchema.username := "carol";
     UserCreateSchema.password := demo_long_password |}.

(** C4, counterexample.  Carol's address and name are free and her password
    has 4097 characters: [register] raises [PasswordSizeError] and stores
    nothing, so no login follows.  And for Alice, who is registered, a wrong
    password of that size is answered with [PasswordSizeError], not with
    401. *)
Lemma register_with_oversized_password :
  (forall u, In u (user_table demo_seed) ->
             User.email u <> UserCreateSchema.email demo_carol_account)
  /\ (forall u, In u (user_table demo_seed) ->
                User.username u <> UserCreateSchema.username demo_carol_account)
  /\ register demo_digest "s5" 12 demo_carol_account demo_seed
     = (demo_seed, Raise PasswordSizeError)
  /\ ~ (exists db1 r,
          register demo_digest "s5" 12 demo_carol_account demo_seed = (db1, Ok r))
  /\ demo_long_password <> "wonderland"
  /\ demo_login 50
       {| UserLoginSchema.email := "alice@pdd.example";
          UserLoginSchema.password := demo_long_password |} demo_catalog
     = (demo_catalog, Raise PasswordSizeError)
  /\ demo_login 50
       {| UserLoginSchema.email := "alice@pdd.example";
          UserLoginSchema.password := demo_long_password |} demo_catalog
     <> (demo_catalog, Raise (HTTPException 401 "Неверный email или пароль")).
Proof.
  assert (register demo_digest "s5" 12 demo_carol_account demo_seed
          = (demo_seed, Raise PasswordSizeError)) as Hreg
    by (vm_compute; reflexivity).
  assert (demo_login 50
            {| UserLoginSchema.email := "alice@pdd.example";
               UserLoginSchema.password := demo_long_password |} demo_catalog
          = (demo_catalog, Raise PasswordSizeError)) as Hlogin
    by (vm_compute; reflexivity).
  split; [intros u [<-|[]]; discriminate|].
  split; [intros u [<-|[]]; discriminate|].
  split; [exact Hreg|].
  split; [intros (db1 & r & H); rewrite Hreg in H; apply (f_equal snd) in H;
          cbn [snd] in H; discriminate H|].
  split; [intros E; apply (f_equal String.length) in E; vm_compute in E;
          discriminate E|].
  split; [exact Hlogin|].
  rewrite Hlogin. intros E. apply (f_equal snd) in E. cbn [snd] in E.
  discriminate E.
Qed.

(** The database and the tokens of Alice's first login at second 500, and
    the database of her second login within the same second. *)
Definition demo_tokens : TokenSchema.t :=
  {| TokenSchema.access_token := demo_access_token 500 demo_alice;
     TokenSchema.refresh_token :=
       create_refresh_token 7 demo_encode 500
         {| Claims.sub := Some (str 2); Claims.email := None;
            Claims.exp := None; Claims.type := None |};
     TokenSchema.token_type := "Bearer" |}.

Definition demo_login_once : Database :=
  fst (demo_login 500 demo_alice_login demo_catalog).

Definition demo_login_twice : Database :=
  fst (demo_login 500 demo_alice_login demo_login_once).

(** C5, witness of the departure: Alice logs in twice at second 500 and is
    handed one refresh token twice; she logs out with it, and
    [refresh_token] still answers it with a new access token. *)
Lemma refresh_after_logout_of_twin_login_witness :
  demo_login 500 demo_alice_login demo_catalog = (demo_login_once, Ok demo_tokens)
  /\ demo_login 500 demo_alice_login demo_login_once
     = (demo_login_twice, Ok demo_tokens)
  /\ exists db3 r,
       logout {| RefreshTokenRequestSchema.refresh_token :=
                   TokenSchema.refresh_token demo_tokens |} demo_login_twice
       = (db3, Ok {| LogoutResponseSchema.message := "Logout success" |})
       /\ demo_refresh_token 500
            {| RefreshTokenRequestSchema.refresh_token :=
                 TokenSchema.refresh_token demo_tokens |} db3
          = (db3, Ok r).
Proof.
  assert (demo_login 500 demo_alice_login demo_catalog
          = (demo_login_once, Ok demo_tokens)) as H1 by (vm_compute; reflexivity).
  assert (demo_login 500 demo_alice_login demo_login_once
          = (demo_login_twice, Ok demo_tokens)) as H2 by (vm_compute; reflexivity).
  split; [exact H1|]. split; [exact H2|].
  exact (proj2 (refresh_after_logout_of_twin_login 30 7 demo_encode demo_decode
                  demo_digest 500 demo_alice_login demo_catalog demo_login_once
                  demo_login_twice demo_tokens demo_tokens
                  demo_codec eq_refl H1 H2)).
Defined.

(** C5, the single row: with one login only, the token is held by one row,
    and [refresh_token] after [logout] raises 401 "token revoked". *)
Lemma refresh_after_logout_of_one_login :
  exists db1 db2 tokens,
    demo_login 500 demo_alice_login demo_catalog = (db1, Ok tokens)
    /\ logout {| RefreshTokenRequestSchema.refresh_token :=
                   TokenSchema.refresh_token tokens |} db1
       = (db2, Ok {| LogoutResponseSchema.message := "Logout success" |})
    /\ demo_refresh_token 500
         {| RefreshTokenRequestSchema.refresh_token :=
              TokenSchema.refresh_token tokens |} db2
       = (db2, Raise (HTTPException 401 "Токен отозван")).
Proof.
  eexists _, _, _. split; [vm_compute; reflexivity|].
  split; vm_compute; reflexivity.
Qed.

(** C6, witness: Alice's finished exam is [completed]; her further answer
    and her further finish are refused with 400, Bob's with another
    exception, and the database stays as it was; the row and its answers
    are what they were after her refused answer. *)
Lemma terminal_exam_is_final_witness :
  let again := POST_exams_answer (demo_access_token 90 demo_alice) 301 1
                 (demo_answer 0 21) in
  let exam := set_finished ExamStatusChoices.completed 300 (demo_exam 18) in
  find (fun e => Exam.id e =? 1) (exam_table demo_finished) = Some exam
  /\ answer_question 301 1 (demo_answer 0 21) demo_alice demo_finished
     = (demo_finished, Raise (HTTPException 400 "Экзамен уже завершен"))
  /\ finish_exam 301 1 demo_alice demo_finished
     = (demo_finished, Raise (HTTPException 400 "Экзамен уже завершен"))
  /\ (exists e, finish_exam 301 1 demo_bob demo_finished = (demo_finished, Raise e))
  /\ In exam (exam_table (demo_handle again demo_finished))
  /\ exam_answers (demo_handle again demo_finished) exam
     = exam_answers demo_finished exam.
Proof.
  intros again exam.
  assert (find (fun e => Exam.id e =? 1) (exam_table demo_finished) = Some exam)
    as Hfind by (vm_compute; reflexivity).
  assert (terminal exam) as Hterminal by (left; reflexivity).
  assert (exam_pk demo_finished) as Hpk
    by (apply distinct_NoDup; vm_compute; reflexivity).
  destruct (terminal_exam_is_final 30 7 demo_encode demo_decode demo_digest)
    as (Hreject & _ & _ & Hrow & _ & Hanswers).
  split; [exact Hfind|].
  destruct (Hreject _ _ _ Hfind Hterminal 301 demo_alice (demo_answer 0 21))
    as (_ & _ & Howner).
  destruct (Howner eq_refl) as [Hanswer Hfinish].
  destruct (Hreject _ _ _ Hfind Hterminal 301 demo_bob (demo_answer 0 21))
    as (_ & Hbob & _).
  split; [exact Hanswer|]. split; [exact Hfinish|]. split; [exact Hbob|].
  split.
  - exact (Hrow again demo_finished exam Hpk (proj1 (find_some _ _ Hfind))
             Hterminal).
  - exact (proj1 (Hanswers again demo_finished exam Hpk
                    (proj1 (find_some _ _ Hfind)) Hterminal) eq_refl).
Defined.

(** C6, counterexample.  Alice's exam is [completed] with 20 recorded
    answers, 18 of them correct.  The administrator deletes question 3,
    which she answered correctly: the row of the exam stays, and the cascade
    takes its answer away; 19 answers are left, 17 of them correct.  The
    answers of a terminal exam have changed. *)
Lemma answers_of_finished_exam_after_deletion :
  let delete := DELETE_questions (demo_access_token 240 demo_root) 310 3 in
  let exam := set_finished ExamStatusChoices.completed 300 (demo_exam 18) in
  In exam (exam_table demo_finished)
  /\ terminal exam
  /\ len (exam_answers demo_finished exam) = 20
  /\ correct_answers demo_finished exam = 18
  /\ In exam (exam_table (demo_handle delete demo_finished))
  /\ len (exam_answers (demo_handle delete demo_finished) exam) = 19
  /\ correct_answers (demo_handle delete demo_finished) exam = 17
  /\ exam_answers (demo_handle delete demo_finished) exam
     <> exam_answers demo_finished exam.
Proof.
  intros delete exam.
  assert (len (exam_answers demo_finished exam) = 20) as H20
    by (vm_compute; reflexivity).
  assert (len (exam_answers (demo_handle delete demo_finished) exam) = 19) as H19
    by (vm_compute; reflexivity).
  split; [vm_compute; left; reflexivity|].
  split; [left; reflexivity|].
  split; [exact H20|].
  split; [vm_compute; reflexivity|].
  split; [vm_compute; left; reflexivity|].
  split; [exact H19|].
  split; [vm_compute; reflexivity|].
  intros E. rewrite E, H20 in H19. discriminate H19.
Qed.

(** C7, witness: on the catalog of 21 questions, [start_exam] returns 20
    questions with distinct ids; on the seeded service, with no question,
    it raises 400 and the database stays as it was. *)
Lemma start_exam_samples_distinct_questions_witness :
  question_pk demo_catalog
  /\ find (in_progress_of (User.id demo_alice)) (exam_table demo_catalog) = None
  /\ (exists db' r,
         start_exam (fun _ => O) 100 demo_alice demo_catalog = (db', Ok r)
         /\ len (ExamStartResponseSchema.questions r) = 20
         /\ NoDup (map QuestionSchema.id (ExamStartResponseSchema.questions r)))
  /\ start_exam (fun _ => O) 100 demo_alice demo_seed
     = (demo_seed,
        Raise (HTTPException 400
          "Недостаточно вопросов для экзамена. Требуется минимум 20 вопросов.")).
Proof.
  assert (question_pk demo_catalog) as Hpk
    by (apply distinct_NoDup; vm_compute; reflexivity).
  assert (find (in_progress_of (User.id demo_alice)) (exam_table demo_catalog)
          = None) as Hnone by (vm_compute; reflexivity).
  split; [exact Hpk|]. split; [exact Hnone|]. split.
  - destruct (start_exam_samples_distinct_questions (fun _ => O) 100 demo_alice
                demo_catalog Hpk Hnone) as [Hmany _].
    destruct Hmany as (db' & r & Hok & Hlen & Hnd & _);
      [vm_compute; discriminate|].
    exists db', r. auto.
  - destruct (start_exam_samples_distinct_questions (fun _ => O) 100 demo_alice
                demo_seed) as [_ Hfew];
      [constructor|reflexivity|].
    apply Hfew. vm_compute. reflexivity.
Defined.

(** C8, witness: with Alice's exam started and nothing answered, the scores
    count the correct answers; they still do after her first answer, and
    after the administrator deletes question 5, which she has not answered;
    they bound them after the administrator deletes question 1. *)
Lemma score_counts_correct_answers_witness :
  let answer := POST_exams_answer (demo_access_token 90 demo_alice) 201 1
                  (demo_answer 0 1) in
  let delete_other := DELETE_questions (demo_access_token 240 demo_root) 250 5 in
  let delete := DELETE_questions (demo_access_token 240 demo_root) 250 1 in
  answer_fk demo_started /\ score_counts demo_started
  /\ score_counts (demo_handle answer demo_started)
  /\ score_counts (demo_handle delete_other (demo_handle answer demo_started))
  /\ score_bounds (demo_handle delete (demo_handle answer demo_started)).
Proof.
  intros answer delete_other delete.
  assert (answer_fk demo_started) as Hfk.
  { intros a Ha. vm_compute in Ha. destruct Ha. }
  assert (score_counts demo_started) as Hs.
  { intros e He. vm_compute in He. destruct He as [<-|[]]. vm_compute. reflexivity. }
  destruct (score_counts_correct_answers 30 7 demo_encode demo_decode demo_digest)
    as (_ & Hstep & Hkeep & Hbound & _).
  destruct (Hstep answer demo_started eq_refl Hfk Hs) as [Hfk1 Hs1].
  split; [exact Hfk|]. split; [exact Hs|]. split; [exact Hs1|].
  assert (forallb
            (fun a => existsb (Z.eqb (ExamAnswer.question_id a))
                        (map Question.id
                           (question_table
                              (handle 30 7 demo_encode demo_decode demo_digest
                                 delete_other
                                 (demo_handle answer demo_started)))))
            (exam_answer_table (demo_handle answer demo_started)) = true)
    as Hleft by (vm_compute; reflexivity).
  split.
  - apply (Hkeep delete_other (demo_handle answer demo_started) Hfk1 Hs1).
    intros a Ha _.
    apply (proj1 (forallb_forall _ _) Hleft) in Ha.
    apply existsb_exists in Ha as (k & Hk & E). apply Z.eqb_eq in E.
    rewrite E. exact Hk.
  - apply (Hbound delete (demo_handle answer demo_started) Hfk1).
    intros e He. assert (E := Hs1 e He). unfold demo_handle in *.
    rewrite E. apply Z.le_refl.
Defined.

(** C8, counterexample.  Alice has answered question 1 correctly: score 1,
    one correct answer recorded.  The administrator deletes question 1; the
    cascade deletes the answer, and the score stays 1 with no correct
    answer recorded. *)
Lemma score_after_deleting_answered_question :
  let req := DELETE_questions (demo_access_token 240 demo_root) 250 1 in
  score_counts (demo_answered 1 0)
  /\ exam_table (demo_handle req (demo_answered 1 0)) = [demo_exam 1]
  /\ exam_answers (demo_handle req (demo_answered 1 0)) (demo_exam 1) = []
  /\ correct_answers (demo_handle req (demo_answered 1 0)) (demo_exam 1) = 0
  /\ Exam.score (demo_exam 1) = 1
  /\ ~ score_counts (demo_handle req (demo_answered 1 0)).
Proof.
  intros req.
  assert (exam_table (demo_handle req (demo_answered 1 0)) = [demo_exam 1]) as E
    by (vm_compute; reflexivity).
  split.
  { intros e He. vm_compute in He. destruct He as [<-|[]]. vm_compute. reflexivity. }
  split; [exact E|].
  split; [vm_compute; reflexivity|].
  split; [vm_compute; reflexivity|].
  split; [reflexivity|].
  intros H. specialize (H (demo_exam 1)). rewrite E in H.
  specialize (H (or_introl eq_refl)). vm_compute in H. discriminate H.
Qed.

(** C9, the departure end to end: the administrator sets Alice's password;
    the change is committed, hashed with bcrypt, and [login] with the new
    password raises [UnknownHashError] instead of returning tokens. *)
Lemma login_after_admin_password_update :
  let db := fst (admin_update_user demo_digest "s3" 2
                   {| AdminUpdateUserSchema.email := None;
                      AdminUpdateUserSchema.username := None;
                      AdminUpdateUserSchema.password := Some "rabbit-hole";
                      AdminUpdateUserSchema.role := None |}
                   demo_root demo_catalog) in
  option_map User.password (find (fun u => User.id u =? 2) (user_table db))
  = Some {| PasswordHash.ident := Scheme.bcrypt; PasswordHash.salt := "s3";
            PasswordHash.checksum := "s3$rabbit-hole" |}
  /\ demo_login 600
       {| UserLoginSchema.email := "alice@pdd.example";
          UserLoginSchema.password := "rabbit-hole" |} db
     = (db, Raise UnknownHashError).
Proof. split; vm_compute; reflexivity. Qed.

(** C9, witness: the password the administrator sets in that request is one
    passlib accepts. *)
Lemma update_paths_hash_with_another_scheme_witness :
  bytes_len "rabbit-hole" <= MAX_PASSWORD_SIZE
  /\ has_null "rabbit-hole" = false
  /\ exists h_user,
       CryptContext_hash demo_digest admin_pwd_context "s3" "rabbit-hole" = Ok h_user
       /\ verify_password demo_digest "rabbit-hole" h_user = Raise UnknownHashError.
Proof.
  assert (bytes_len "rabbit-hole" <= MAX_PASSWORD_SIZE) as Hsize
    by (vm_compute; discriminate).
  split; [exact Hsize|]. split; [reflexivity|].
  destruct (update_paths_hash_with_another_scheme demo_digest "s3" "rabbit-hole"
              Hsize eq_refl)
    as (_ & _ & h_admin & _ & _ & Hadmin & _ & _ & _ & _ & _ & _ & _ & Hverify).
  exists h_admin. split; [exact Hadmin|exact Hverify].
Defined.

(** C10, witness: question 2 is not among the questions [start_exam]
    returned to Alice, and her answer to it is accepted; after she has
    answered all 21 questions of the catalog her exam, still in progress,
    holds 21 answers. *)
Lemma answer_question_accepts_any_catalog_question_witness :
  (exists r, snd (start_exam (fun _ => O) 100 demo_alice demo_catalog) = Ok r
             /\ ~ In (str 2) (map QuestionSchema.id
                                (ExamStartResponseSchema.questions r)))
  /\ (exists db' r exam',
         answer_question 201 1
           {| ExamAnswerRequestSchema.question_id := 2;
              ExamAnswerRequestSchema.option_id := 3 |} demo_alice demo_started
         = (db', Ok r)
         /\ find (fun e => Exam.id e =? 1) (exam_table db') = Some exam'
         /\ len (exam_answers db' exam') = 1)
  /\ find (fun e => Exam.id e =? 1) (exam_table (demo_answered 21 0))
     = Some (demo_exam 21)
  /\ len (exam_answers (demo_answered 21 0) (demo_exam 21)) = 21.
Proof.
  split.
  { eexists. split; [vm_compute; reflexivity|].
    vm_compute. intuition discriminate. }
  split; [|split; vm_compute; reflexivity].
  destruct answer_question_accepts_any_catalog_question as [Haccept _].
  destruct (Haccept 201 1
              {| ExamAnswerRequestSchema.question_id := 2;
                 ExamAnswerRequestSchema.option_id := 3 |}
              demo_alice demo_started (demo_exam 0)
              {| Question.id := 2; Question.text := "question 2";
                 Question.image := None; Question.explanation := "because";
                 Question.difficulty := DifficultyChoices.easy;
                 Question.category_id := 1; Question.created_at := 30 |}
              {| AnswerOption.id := 3; AnswerOption.question_id := 2;
                 AnswerOption.text := "yes"; AnswerOption.is_correct := true |})
    as (db' & r & exam' & Hok & Hfind & _ & Hlen).
  - vm_compute. reflexivity.
  - reflexivity.
  - reflexivity.
  - vm_compute. right. left. reflexivity.
  - reflexivity.
  - vm_compute. right. right. left. reflexivity.
  - reflexivity.
  - reflexivity.
  - intros a Ha. vm_compute in Ha. destruct Ha.
  - exists db', r, exam'. split; [exact Hok|]. split; [exact Hfind|].
    rewrite Hlen. vm_compute. reflexivity.
Defined.

(** ** The further properties at work on the service *)

Definition demo_bob_login : UserLoginSchema.t :=
  {| UserLoginSchema.email := "bob@pdd.example";
     UserLoginSchema.password := "builder" |}.

(** Alice is logged in since second 500, Bob since second 501. *)
Definition demo_two_sessions : Database :=
  fst (demo_login 501 demo_bob_login demo_login_once).

Definition demo_refresh_of (now : datetime) (u : User)
  : RefreshTokenRequestSchema.t :=
  {| RefreshTokenRequestSchema.refresh_token :=
       create_refresh_token 7 demo_encode now
         {| Claims.sub := Some (str (User.id u)); Claims.email := None;
            Claims.exp := None; Claims.type := None |} |}.

Lemma ok_result {R : Type} (p : Database * Result R) :
  (match snd p with Ok _ => true | Raise _ => false end) = true ->
  exists r, p = (fst p, Ok r).
Proof. destruct p as [d [r|e]]; simpl; [eauto|discriminate]. Qed.

Lemma demo_catalog_users : user_table demo_catalog = [demo_root; demo_alice; demo_bob].
Proof. vm_compute. reflexivity. Qed.

Lemma demo_catalog_users_unique : users_unique demo_catalog.
Proof.
  unfold users_unique. rewrite demo_catalog_users. simpl.
  repeat split; repeat constructor; simpl; intuition discriminate.
Qed.

(** X1, at work: Alice logs in at second 500 and her access token resolves
    to her. *)
Lemma login_access_token_resolves_witness :
  demo_login 500 demo_alice_login demo_catalog = (demo_login_once, Ok demo_tokens)
  /\ exists u user,
       find (fun u => String.eqb (User.email u) (UserLoginSchema.email demo_alice_login))
            (user_table demo_catalog) = Some u
       /\ get_current_user demo_decode 500 (TokenSchema.access_token demo_tokens)
            demo_login_once = Ok user
       /\ User.id user = User.id u
       /\ (NoDup (map User.id (user_table demo_catalog)) -> user = u).
Proof.
  assert (demo_login 500 demo_alice_login demo_catalog
          = (demo_login_once, Ok demo_tokens)) as H1 by (vm_compute; reflexivity).
  split; [exact H1|].
  exact (login_access_token_resolves 30 7 demo_encode demo_decode demo_digest 500
           demo_alice_login demo_catalog demo_login_once demo_tokens
           demo_codec eq_refl H1).
Defined.

(** X2, at work: at second 600 Alice's refresh token is no credential and
    her access token refreshes nothing. *)
Lemma login_tokens_not_interchangeable_witness :
  demo_login 500 demo_alice_login demo_catalog = (demo_login_once, Ok demo_tokens)
  /\ get_current_user demo_decode 600 (TokenSchema.refresh_token demo_tokens)
       demo_login_once
     = Raise (HTTPException 401 "Неверный тип токена")
  /\ demo_refresh_token 600
       {| RefreshTokenRequestSchema.refresh_token :=
            TokenSchema.access_token demo_tokens |} demo_login_once
     = (demo_login_once, Raise (HTTPException 401 "Неверный тип токена")).
Proof.
  assert (demo_login 500 demo_alice_login demo_catalog
          = (demo_login_once, Ok demo_tokens)) as H1 by (vm_compute; reflexivity).
  split; [exact H1|].
  exact (login_tokens_not_interchangeable 30 7 demo_encode demo_decode demo_digest
           500 demo_alice_login demo_catalog demo_login_once demo_tokens
           demo_codec H1 600 demo_login_once).
Defined.

(** X3, at work: half an hour after the login the access token has expired,
    a week after it the refresh token. *)
Lemma login_tokens_expire_witness :
  demo_login 500 demo_alice_login demo_catalog = (demo_login_once, Ok demo_tokens)
  /\ get_current_user demo_decode 2300 (TokenSchema.access_token demo_tokens)
       demo_login_once
     = Raise (HTTPException 401 "Токен истек")
  /\ demo_refresh_token 605300
       {| RefreshTokenRequestSchema.refresh_token :=
            TokenSchema.refresh_token demo_tokens |} demo_login_once
     = (demo_login_once, Raise (HTTPException 401 "Токен истек")).
Proof.
  assert (demo_login 500 demo_alice_login demo_catalog
          = (demo_login_once, Ok demo_tokens)) as H1 by (vm_compute; reflexivity).
  split; [exact H1|].
  destruct (login_tokens_expire 30 7 demo_encode demo_decode demo_digest
              500 demo_alice_login demo_catalog demo_login_once demo_tokens
              demo_codec H1) as (u & _ & Hlife).
  split.
  - destruct (Hlife 2300 demo_login_once) as (Hexpired & _ & _).
    apply Hexpired. lia.
  - destruct (Hlife 605300 demo_login_once) as (_ & _ & Hexpired).
    apply Hexpired. lia.
Defined.

(** X4, at work: once Alice is registered, her address cannot be registered
    under another name. *)
Lemma register_twice_witness :
  let db1 := fst (register demo_digest "s1" 10 demo_alice_account demo_seed) in
  exists detail,
    register demo_digest "s9" 99
      {| UserCreateSchema.email := "alice@pdd.example";
         UserCreateSchema.username := "alice-too";
         UserCreateSchema.password := "rabbit" |} db1
    = (db1, Raise (HTTPException 409 detail)).
Proof.
  intros db1.
  destruct (ok_result (register demo_digest "s1" 10 demo_alice_account demo_seed))
    as (r & H1); [vm_compute; reflexivity|].
  apply (register_twice demo_digest "s1" 10 demo_alice_account demo_seed db1 r
           "s9" 99 _ H1).
  left. reflexivity.
Defined.


(** X6, at work: at second 600 Alice's refresh token gets her a new access
    token, which resolves to her. *)
Lemma login_then_refresh_witness :
  demo_login 500 demo_alice_login demo_catalog = (demo_login_once, Ok demo_tokens)
  /\ exists user r u,
       find (fun u => String.eqb (User.email u) (UserLoginSchema.email demo_alice_login))
            (user_table demo_catalog) = Some user
       /\ demo_refresh_token 600
            {| RefreshTokenRequestSchema.refresh_token :=
                 TokenSchema.refresh_token demo_tokens |} demo_login_once
          = (demo_login_once, Ok r)
       /\ get_current_user demo_decode 600 (AccessTokenSchema.access_token r)
            demo_login_once = Ok u
       /\ User.id u = User.id user.
Proof.
  assert (demo_login 500 demo_alice_login demo_catalog
          = (demo_login_once, Ok demo_tokens)) as H1 by (vm_compute; reflexivity).
  split; [exact H1|].
  apply (login_then_refresh 30 7 demo_encode demo_decode demo_digest 500 600
           demo_alice_login demo_catalog demo_login_once demo_tokens
           demo_codec eq_refl H1).
  lia.
Defined.

(** X7, at work: Bob logs out; Alice's refresh token and everybody's access
    tokens work as before. *)
Lemma logout_leaves_other_tokens_witness :
  NoDup (map RefreshToken.id (refresh_token_table demo_two_sessions))
  /\ snd (demo_refresh_token 600 (demo_refresh_of 500 demo_alice)
            (fst (logout (demo_refresh_of 501 demo_bob) demo_two_sessions)))
     = snd (demo_refresh_token 600 (demo_refresh_of 500 demo_alice)
              demo_two_sessions)
  /\ get_current_user demo_decode 600 (demo_access_token 501 demo_bob)
       (fst (logout (demo_refresh_of 501 demo_bob) demo_two_sessions))
     = get_current_user demo_decode 600 (demo_access_token 501 demo_bob)
         demo_two_sessions.
Proof.
  assert (NoDup (map RefreshToken.id (refresh_token_table demo_two_sessions)))
    as Hpk by (apply distinct_NoDup; vm_compute; reflexivity).
  split; [exact Hpk|].
  apply (logout_leaves_other_tokens 30 demo_encode demo_decode 600
           (demo_refresh_of 501 demo_bob) (demo_refresh_of 500 demo_alice)
           (demo_access_token 501 demo_bob) demo_two_sessions Hpk).
  intros E. vm_compute in E. discriminate E.
Defined.

Definition demo_bob_renamed : Request :=
  PUT_admin_users (demo_access_token 240 demo_root) 250 "s3" 3
    {| AdminUpdateUserSchema.email := None;
       AdminUpdateUserSchema.username := Some "robert";
       AdminUpdateUserSchema.password := None;
       AdminUpdateUserSchema.role := None |}.

(** X8, at work: the service's users are distinct, and still are when the
    administrator renames Bob. *)
Lemma users_stay_unique_witness :
  users_unique demo_catalog
  /\ users_unique (demo_handle demo_bob_renamed demo_catalog).
Proof.
  split; [exact demo_catalog_users_unique|].
  exact (users_stay_unique 30 7 demo_encode demo_decode demo_digest
           demo_bob_renamed demo_catalog demo_catalog_users_unique).
Defined.

Definition demo_new_category (u : User) : Request :=
  POST_categories (demo_access_token 240 u) 250
    {| CategoryCreateSchema.category_name := "markings" |}.

(** X9, at work: a second category appears, so the request came from an
    administrator. *)
Lemma admin_routes_need_admin_witness :
  demo_handle (demo_new_category demo_root) demo_catalog <> demo_catalog
  /\ exists u, caller demo_decode (demo_new_category demo_root) demo_catalog = Some u
               /\ User.role u = RoleChoices.admin
               /\ In u (user_table demo_catalog).
Proof.
  assert (demo_handle (demo_new_category demo_root) demo_catalog <> demo_catalog)
    as Hchanged.
  { intros E. apply (f_equal (fun d => List.length (category_table d))) in E.
    vm_compute in E. discriminate E. }
  split; [exact Hchanged|].
  exact (admin_routes_need_admin 30 7 demo_encode demo_decode demo_digest
           (demo_new_category demo_root) demo_catalog eq_refl Hchanged).
Defined.

Definition demo_alice_renamed : Request :=
  PUT_users_me (demo_access_token 240 demo_alice) 250 "s4"
    {| UserUpdateSchema.email := None;
       UserUpdateSchema.username := Some "alice-liddell";
       UserUpdateSchema.password := None |}.

Lemma demo_alice_calls :
  caller demo_decode demo_alice_renamed demo_catalog = Some demo_alice.
Proof. vm_compute. reflexivity. Qed.

Definition demo_carol_registers : Request :=
  POST_auth_register "s5" 12
    {| UserCreateSchema.email := "carol@pdd.example";
       UserCreateSchema.username := "carol";
       UserCreateSchema.password := "looking-glass" |}.

Definition demo_carol : User :=
  {| User.id := 4; User.email := "carol@pdd.example"; User.username := "carol";
     User.password := {| PasswordHash.ident := Scheme.argon2;
                         PasswordHash.salt := "s5";
                         PasswordHash.checksum := "s5$looking-glass" |};
     User.role := RoleChoices.user; User.created_at := 12 |}.

(** X10, at work: Carol registers; her row is new and its role is [user]. *)
Lemma roles_change_only_by_admin_witness :
  In demo_carol (user_table (demo_handle demo_carol_registers demo_catalog))
  /\ ((User.role demo_carol = RoleChoices.user
       /\ ~ In (User.id demo_carol) (map User.id (user_table demo_catalog)))
      \/ exists u, In u (user_table demo_catalog)
                   /\ User.id u = User.id demo_carol
                   /\ User.role u = User.role demo_carol).
Proof.
  assert (In demo_carol
            (user_table (demo_handle demo_carol_registers demo_catalog)))
    as Hin by (vm_compute; right; right; right; left; reflexivity).
  split; [exact Hin|].
  apply (roles_change_only_by_admin 30 7 demo_encode demo_decode demo_digest
           demo_carol_registers demo_catalog demo_carol); [|exact Hin].
  intros a Ha. vm_compute in Ha. discriminate Ha.
Defined.

(** X11, at work: Alice's update leaves Bob's row alone. *)
Lemma profiles_of_others_untouched_witness :
  In demo_bob (user_table demo_catalog)
  /\ In demo_bob (user_table (demo_handle demo_alice_renamed demo_catalog)).
Proof.
  assert (In demo_bob (user_table demo_catalog)) as Hin
    by (rewrite demo_catalog_users; right; right; left; reflexivity).
  split; [exact Hin|].
  apply (profiles_of_others_untouched 30 7 demo_encode demo_decode demo_digest
           demo_alice_renamed demo_catalog demo_bob Hin).
  intros a Ha. rewrite demo_alice_calls in Ha. injection Ha as <-.
  split; discriminate.
Defined.

(** X12, at work: the administrator makes Bob an administrator; the role is
    stored, the answer is the validation error. *)
Lemma admin_update_user_stores_then_fails_witness :
  admin_update_user demo_digest "s3" 3
    {| AdminUpdateUserSchema.email := None;
       AdminUpdateUserSchema.username := None;
       AdminUpdateUserSchema.password := None;
       AdminUpdateUserSchema.role := Some RoleChoices.admin |} demo_root demo_catalog
  = (with_users
       (map (fun x => if User.id x =? 3 then set_role RoleChoices.admin demo_bob
                      else x)
            (user_table demo_catalog)) demo_catalog,
     Raise ValidationError).
Proof.
  apply (admin_update_user_stores_then_fails demo_digest "s3" 3 RoleChoices.admin
           demo_root demo_bob demo_catalog demo_catalog_users_unique eq_refl).
  rewrite demo_catalog_users. reflexivity.
Defined.

Definition demo_finish : Request :=
  POST_exams_finish (demo_access_token 90 demo_alice) 300 1.

Lemma demo_answered_exams : exam_table (demo_answered 20 2) = [demo_exam 18].
Proof. vm_compute. reflexivity. Qed.

Lemma demo_started_exams : exam_table demo_started = [demo_exam 0].
Proof. vm_compute. reflexivity. Qed.

(** X13, at work: Alice's exam is consistent with 18 points in progress, and
    so is the row her finish leaves. *)
Lemma exam_rows_stay_consistent_witness :
  (forall e, In e (exam_table (demo_answered 20 2)) -> exam_consistent e)
  /\ forall e, In e (exam_table (demo_handle demo_finish (demo_answered 20 2))) ->
               exam_consistent e.
Proof.
  assert (forall e, In e (exam_table (demo_answered 20 2)) -> exam_consistent e)
    as Hrows.
  { rewrite demo_answered_exams. intros e [<-|[]].
    unfold exam_consistent. simpl. split; [lia|reflexivity]. }
  split; [exact Hrows|].
  exact (exam_rows_stay_consistent 30 7 demo_encode demo_decode demo_digest
           demo_finish (demo_answered 20 2) Hrows).
Defined.

(** X14, at work: Alice's exam is still there after she finishes it, hers,
    started when it was, with its 18 points. *)
Lemma exam_history_is_kept_witness :
  exam_pk (demo_answered 20 2)
  /\ In (demo_exam 18) (exam_table (demo_answered 20 2))
  /\ exists e', In e' (exam_table (demo_handle demo_finish (demo_answered 20 2)))
                /\ Exam.id e' = 1 /\ Exam.user_id e' = 2
                /\ Exam.started_at e' = 100 /\ 18 <= Exam.score e'.
Proof.
  assert (exam_pk (demo_answered 20 2)) as Hpk
    by (apply distinct_NoDup; vm_compute; reflexivity).
  assert (In (demo_exam 18) (exam_table (demo_answered 20 2))) as Hin
    by (rewrite demo_answered_exams; left; reflexivity).
  split; [exact Hpk|]. split; [exact Hin|].
  exact (proj1 (exam_history_is_kept 30 7 demo_encode demo_decode demo_digest
                  demo_finish (demo_answered 20 2) (demo_exam 18) Hpk Hin)).
Defined.

Definition demo_bob_answers : Request :=
  POST_exams_answer (demo_access_token 190 demo_bob) 200 1 (demo_answer 0 1).

Lemma demo_bob_calls :
  caller demo_decode demo_bob_answers demo_started = Some demo_bob.
Proof. vm_compute. reflexivity. Qed.

(** X15, at work: Bob sends an answer to Alice's exam; the exam and its
    answers stay as they were. *)
Lemma exams_of_others_untouched_witness :
  exam_pk demo_started
  /\ In (demo_exam 0) (exam_table demo_started)
  /\ In (demo_exam 0) (exam_table (demo_handle demo_bob_answers demo_started))
  /\ exam_answers (demo_handle demo_bob_answers demo_started) (demo_exam 0)
     = exam_answers demo_started (demo_exam 0).
Proof.
  assert (exam_pk demo_started) as Hpk
    by (apply distinct_NoDup; vm_compute; reflexivity).
  assert (In (demo_exam 0) (exam_table demo_started)) as Hin
    by (rewrite demo_started_exams; left; reflexivity).
  split; [exact Hpk|]. split; [exact Hin|].
  destruct (exams_of_others_untouched 30 7 demo_encode demo_decode demo_digest
              demo_bob_answers demo_started (demo_exam 0) Hpk Hin) as [Hrow Hanswers].
  - intros u Hu. rewrite demo_bob_calls in Hu. injection Hu as <-. discriminate.
  - split; [exact Hrow|]. apply Hanswers. reflexivity.
Defined.

(** X16, at work: Alice's history after her exam, first page. *)
Lemma get_user_exams_lists_own_exams_witness :
  let exams := get_user_exams None 20 0 demo_alice demo_finished in
  (forall e, In e exams -> Exam.user_id e = User.id demo_alice)
  /\ len exams <= 20
  /\ StronglySorted later_first exams.
Proof.
  intros exams.
  destruct (get_user_exams_lists_own_exams None 20 0 demo_alice demo_finished)
    as (Hown & Hlen & Hsorted & _); [lia|lia|].
  split; [|split; assumption].
  intros e He. exact (proj1 (proj2 (Hown e He))).
Defined.

(** X17, at work: Bob asks for Alice's exam and is refused. *)
Lemma get_exam_detail_is_for_the_owner_witness :
  exam_pk demo_started
  /\ get_exam_detail 1 demo_bob demo_started
     = Raise (HTTPException 403 "Это не ваш экзамен").
Proof.
  assert (exam_pk demo_started) as Hpk
    by (apply distinct_NoDup; vm_compute; reflexivity).
  split; [exact Hpk|].
  destruct (get_exam_detail_is_for_the_owner demo_bob demo_started Hpk)
    as (_ & Hrows & _).
  apply (Hrows (demo_exam 0)). rewrite demo_started_exams. left. reflexivity.
Defined.

(** X18, at work: Alice starts her exam and reads it back. *)
Lemma start_exam_then_read_witness :
  exists db' r,
    start_exam (fun _ => O) 100 demo_alice demo_catalog = (db', Ok r)
    /\ get_exam_detail (ExamStartResponseSchema.exam_id r) demo_alice db'
       = Ok {| Exam.id := ExamStartResponseSchema.exam_id r;
               Exam.user_id := User.id demo_alice;
               Exam.status := ExamStatusChoices.in_progress;
               Exam.started_at := 100;
               Exam.score := 0;
               Exam.finished_at := None |}.
Proof.
  destruct (ok_result (start_exam (fun _ => O) 100 demo_alice demo_catalog))
    as (r & H); [vm_compute; reflexivity|].
  eexists. exists r. split; [exact H|].
  exact (proj1 (start_exam_then_read (fun _ => O) 100 demo_alice demo_catalog
                  _ r H)).
Defined.

Definition demo_delete_question : Request :=
  DELETE_questions (demo_access_token 240 demo_root) 250 1.

(** X19, at work: the 21 questions the administrator entered have valid
    options, and the 20 that are left when question 1 is deleted. *)
Lemma questions_keep_valid_options_witness :
  options_valid demo_catalog
  /\ options_valid (demo_handle demo_delete_question demo_catalog).
Proof.
  assert (forall reqs db, options_valid db -> options_valid (demo_run reqs db))
    as Hrun.
  { induction reqs as [|req reqs IH]; intros db Hdb; [exact Hdb|].
    apply IH.
    exact (questions_keep_valid_options 30 7 demo_encode demo_decode demo_digest
             req db Hdb). }
  assert (options_valid demo_seed) as Hseed
    by (split; [intros o []|intros q []]).
  assert (options_valid demo_catalog) as Hcatalog
    by exact (Hrun demo_setup demo_seed Hseed).
  split; [exact Hcatalog|].
  exact (questions_keep_valid_options 30 7 demo_encode demo_decode demo_digest
           demo_delete_question demo_catalog Hcatalog).
Defined.

(** X20, at work: Alice's 20 answers refer to the catalog; so do the 19 that
    are left when question 1 is deleted. *)
Lemma answers_keep_referring_witness :
  answers_refer (demo_answered 20 2)
  /\ answers_refer (demo_handle demo_delete_question (demo_answered 20 2)).
Proof.
  assert (forall reqs db, answers_refer db -> answers_refer (demo_run reqs db))
    as Hrun.
  { induction reqs as [|req reqs IH]; intros db Hdb; [exact Hdb|].
    apply IH.
    exact (answers_keep_referring 30 7 demo_encode demo_decode demo_digest
             req db Hdb). }
  assert (answers_refer demo_seed) as Hseed by (intros a []).
  assert (answers_refer demo_started) as Hstarted.
  { exact (answers_keep_referring 30 7 demo_encode demo_decode demo_digest _ _
             (Hrun demo_setup demo_seed Hseed)). }
  assert (answers_refer (demo_answered 20 2)) as Hanswered
    by exact (Hrun _ demo_started Hstarted).
  split; [exact Hanswered|].
  exact (answers_keep_referring 30 7 demo_encode demo_decode demo_digest
           demo_delete_question (demo_answered 20 2) Hanswered).
Defined.

(** X21, at work: the administrator deletes question 1 while Alice's exam is
    in progress; her answer to it is refused. *)
Lemma delete_question_then_answer_witness :
  exists db' r,
    delete_question 1 demo_root demo_started = (db', Ok r)
    /\ find (fun e => Exam.id e =? 1) (exam_table db') = Some (demo_exam 0)
    /\ answer_question 260 1
         {| ExamAnswerRequestSchema.question_id := 1;
            ExamAnswerRequestSchema.option_id := 1 |} demo_alice db'
       = (db', Raise (HTTPException 404 "Вопрос не найден")).
Proof.
  destruct (ok_result (delete_question 1 demo_root demo_started))
    as (r & H); [vm_compute; reflexivity|].
  assert (find (fun e => Exam.id e =? 1)
               (exam_table (fst (delete_question 1 demo_root demo_started)))
          = Some (demo_exam 0)) as Hexam by (vm_compute; reflexivity).
  eexists. exists r. split; [exact H|]. split; [exact Hexam|].
  destruct (delete_question_then_answer 1 demo_root demo_started _ r H)
    as (_ & _ & _ & Hanswer).
  exact (Hanswer 260 1 1 demo_alice (demo_exam 0) Hexam eq_refl eq_refl).
Defined.

(** X22, at work: the category of the service is unique, and a second
    category leaves the names distinct. *)
Lemma categories_stay_unique_witness :
  categories_unique demo_catalog
  /\ categories_unique (demo_handle (demo_new_category demo_root) demo_catalog).
Proof.
  assert (forall reqs db, categories_unique db ->
                          categories_unique (demo_run reqs db)) as Hrun.
  { induction reqs as [|req reqs IH]; intros db Hdb; [exact Hdb|].
    apply IH.
    exact (categories_stay_unique 30 7 demo_encode demo_decode demo_digest
             req db Hdb). }
  assert (categories_unique demo_seed) as Hseed by (split; constructor).
  assert (categories_unique demo_catalog) as Hcatalog
    by exact (Hrun demo_setup demo_seed Hseed).
  split; [exact Hcatalog|].
  exact (categories_stay_unique 30 7 demo_encode demo_decode demo_digest
           (demo_new_category demo_root) demo_catalog Hcatalog).
Defined.
